(** * release-man: the version algebra and the release checklist of script.js

    A shallow embedding of [src/script.js].
    - [JS]: the JavaScript primitives the code relies on: numbers and
      [undefined], [replace(/^v/, "")], [split], [trim], [Number],
      [parseInt], template-literal printing, [===], [<], [>];
    - [Regex]: regular expressions with a derivative matcher, and the
      regular expression of [VersionUtils.isValidSemver];
    - [VersionUtils]: the four static methods of the class;
    - [SemVer]: the text of a version as the specification describes it (the
      numeric-triple grammar, the triple, the three increment rules);
    - [GitHub], [Async]: the answers of the API, and [async] functions as
      resumptions over the page, suspended at each [fetch]; an event loop
      for several calls in flight;
    - [GitHubAPI], [ReleaseApp]: the methods of the two classes behind
      [validateVersion], and the part of the page they read and write.
    Lemmas and the theorems on the specification follow the definitions.

    Strings.  A string is a sequence of code units below U+0100.

    Numbers.  A JavaScript number is an IEEE-754 double.  The numbers this
    program computes are read from runs of decimal digits and increased by
    one: they are [NaN], an infinity, or an integer.  A finite number is
    carried as the integer it is equal to, and every operation that makes a
    number rounds the exact result to the nearest double ([JS.to_double]:
    53 significant bits, ties to the even one, infinity from 2^1024 on;
    proved equal to the rounding of binary64 in the Standard Library's
    [SpecFloat]), so that, as in the engine, 9007199254740993 is read as
    9007199254740992 and 9007199254740992 + 1 is 9007199254740992.  Numbers
    are printed with the fewest digits that read back as the same double,
    with an exponent from 10^21 on. *)

From Stdlib Require Import String Ascii List ZArith NArith Nnat Lia Bool.
From Stdlib Require Import SpecFloat.
From ExtLib Require Import Structures.Monad.
Import ListNotations.
Import MonadNotation.

Local Open Scope string_scope.
Local Open Scope Z_scope.
Local Open Scope monad_scope.

(* ===================================================================== *)
(** * JavaScript primitives *)
(* ===================================================================== *)

Module JS.

(** ** Numbers and array slots *)

(** A double that is [NaN], an integer, or an infinity with its sign.  In
    [Num z] the integer [z] is one a double can hold: numbers are made by
    [to_double], which rounds, and from small constants. *)
Inductive number : Type :=
| NaN : number
| Num : Z -> number
| Inf : bool -> number.

(** 2^53: up to it every integer is a double.  [Number.MAX_SAFE_INTEGER] is
    2^53 - 1, the last integer [n] for which [n + 1] is a double too. *)
Definition two53 : Z := 9007199254740992.
Definition MAX_SAFE_INTEGER : Z := 9007199254740991.

(** The multiple of 2^e nearest to [a >= 0], the one with the even quotient
    when [a] is half way between two. *)
Definition nearest_even (a e : Z) : Z :=
  let q := Z.shiftr a e in
  let rest := a - Z.shiftl q e in
  let half := Z.shiftl 1 (e - 1) in
  let q := if (half <? rest) || ((half =? rest) && Z.odd q) then q + 1 else q in
  Z.shiftl q e.

(** The double nearest to an integer: the integer itself up to 2^53 in
    absolute value, and beyond that its 53 leading bits, rounded to nearest
    with ties to even; from 2^1024 on the result is an infinity. *)
Definition to_double (z : Z) : number :=
  let a := Z.abs z in
  if a <=? two53 then Num z
  else
    let r := nearest_even a (Z.log2 a - 52) in
    if Z.shiftl 1 1024 <=? r then Inf (z <? 0)
    else Num (if z <? 0 then - r else r).

(** A double that is a natural number, or the infinity: what [Number] reads
    from a run of digits, and what adding one makes of it. *)
Definition natural (x : number) : Prop :=
  match x with
  | NaN => False
  | Num a => 0 <= a /\ to_double a = Num a
  | Inf negative => negative = false
  end.

(** The integers, infinities and NaN among the binary64 numbers of the
    Standard Library's specification of IEEE-754 ([SpecFloat]), as numbers
    of this model: [to_double] is compared with the rounding specified
    there. *)
Definition of_binary64 (f : spec_float) : number :=
  match f with
  | S754_zero _ => Num 0
  | S754_infinity negative => Inf negative
  | S754_nan => NaN
  | S754_finite negative m e =>
      let magnitude := if 0 <=? e then Zpos m * 2 ^ e else Zpos m / 2 ^ (- e) in
      Num (if negative then - magnitude else magnitude)
  end.

(** What [parts[i]] evaluates to: a number, or [undefined] past the end of
    the array. *)
Inductive value : Type :=
| Undefined : value
| VNum : number -> value.

(** [ToNumber] on the values above. *)
Definition to_number (v : value) : number :=
  match v with
  | Undefined => NaN
  | VNum n => n
  end.

(** [a + b] when neither operand is a string: the exact sum, rounded. *)
Definition add (a b : value) : number :=
  match to_number a, to_number b with
  | Num x, Num y => to_double (x + y)
  | Inf s, Num _ => Inf s
  | Num _, Inf s => Inf s
  | Inf s, Inf s' => if Bool.eqb s s' then Inf s else NaN
  | _, _ => NaN
  end.

(** [x < y] on numbers: false as soon as one side is [NaN]. *)
Definition less (x y : number) : bool :=
  match x, y with
  | Num x, Num y => x <? y
  | Num _, Inf negative => negb negative
  | Inf negative, Num _ => negative
  | Inf negative, Inf negative' => negative && negb negative'
  | _, _ => false
  end.

(** [a > b] and [a < b]. *)
Definition gt (a b : value) : bool := less (to_number b) (to_number a).

Definition lt (a b : value) : bool := less (to_number a) (to_number b).

(** [a === b]: no conversion, and [NaN] differs from itself. *)
Definition strict_eq (a b : value) : bool :=
  match a, b with
  | Undefined, Undefined => true
  | VNum (Num x), VNum (Num y) => x =? y
  | VNum (Inf s), VNum (Inf s') => Bool.eqb s s'
  | _, _ => false
  end.

(** [arr[i]]. *)
Definition index (arr : list number) (i : nat) : value :=
  match nth_error arr i with
  | Some n => VNum n
  | None => Undefined
  end.

(** ** Characters *)

Definition code (c : ascii) : Z := Z.of_nat (nat_of_ascii c).

(** [\d] *)
Definition is_digit (c : ascii) : bool := (48 <=? code c) && (code c <=? 57).

(** [\w]: letters, digits and the underscore. *)
Definition is_word (c : ascii) : bool :=
  is_digit c
  || ((65 <=? code c) && (code c <=? 90))
  || ((97 <=? code c) && (code c <=? 122))
  || (code c =? 95).

(** White space removed by [trim] and skipped by [parseInt].  A character
    of the model is a code unit from U+0000 to U+00FF: tab, line feed,
    vertical tab, form feed, carriage return, space and the no-break space
    U+00A0 are the white space in that range. *)
Definition is_space (c : ascii) : bool :=
  ((9 <=? code c) && (code c <=? 13)) || (code c =? 32) || (code c =? 160).

Definition digit_val (c : ascii) : Z := code c - 48.

Definition digit_char (d : Z) : ascii := ascii_of_nat (Z.to_nat (48 + d)).

(** ** Strings *)

(** [s.replace(/^v/, "")]: one leading lower-case [v] is removed. *)
Definition strip_v (s : string) : string :=
  match s with
  | String "v"%char rest => rest
  | _ => s
  end.

(** [s.split(sep)] for a separator of one character.  The result always has
    at least one element. *)
Fixpoint split (sep : ascii) (s : string) : list string :=
  match s with
  | EmptyString => [EmptyString]
  | String c rest =>
      if Ascii.eqb c sep then EmptyString :: split sep rest
      else match split sep rest with
           | piece :: pieces => String c piece :: pieces
           | [] => [String c EmptyString]
           end
  end.

(** [arr[0]] of an array of strings that [split] returned. *)
Definition first (pieces : list string) : string := hd EmptyString pieces.

(** Every character of [s] satisfies [p]. *)
Fixpoint all_chars (p : ascii -> bool) (s : string) : bool :=
  match s with
  | EmptyString => true
  | String c rest => p c && all_chars p rest
  end.

Definition all_digits (s : string) : bool := all_chars is_digit s.

(** Value of a run of decimal digits, most significant first. *)
Fixpoint digits_value (acc : Z) (s : string) : Z :=
  match s with
  | EmptyString => acc
  | String c rest => digits_value (10 * acc + digit_val c) rest
  end.

(** A numeral cut at its first [e] or [E]: what stands before, and the
    exponent part if there is one. *)
Fixpoint cut_exponent (s : string) : string * option string :=
  match s with
  | EmptyString => (EmptyString, None)
  | String c rest =>
      if Ascii.eqb c "e" || Ascii.eqb c "E" then (EmptyString, Some rest)
      else let '(mantissa, exponent) := cut_exponent rest in
           (String c mantissa, exponent)
  end.

Definition strip_plus (s : string) : string :=
  match s with
  | String "+"%char rest => rest
  | _ => s
  end.

Definition some_digits (s : string) : bool :=
  match s with
  | EmptyString => false
  | String _ _ => all_digits s
  end.

(** [Number(s)] on the pieces [split] produces here, and on the pieces of
    what the code prints: the empty string is 0, a run of decimal digits is
    the double nearest to its value, also with an exponent [e+N] or [eN]
    after it, ["Infinity"] is the infinity, and anything else that can occur
    in a piece of an accepted version (digits followed by [+] and more) is
    [NaN].  The other numeric literals of JavaScript (a sign, a fraction, a
    negative exponent, [0x..], surrounding white space) are not recognised
    by this model; they cannot occur in one of the first three pieces of a
    string the validator accepts, the only pieces the code reads, nor in a
    piece of a string [getNextVersion] prints. *)
Definition Number (s : string) : number :=
  if String.eqb s "Infinity" then Inf false
  else
    match cut_exponent s with
    | (mantissa, None) =>
        if all_digits mantissa then to_double (digits_value 0 mantissa) else NaN
    | (mantissa, Some exponent) =>
        let exponent := strip_plus exponent in
        if some_digits mantissa && some_digits exponent
        then to_double (digits_value 0 mantissa * 10 ^ digits_value 0 exponent)
        else NaN
    end.

(** Decimal digits of a natural number, as [String(n)] prints them: the
    last digit is put in front of what is printed already, and the rest
    follows while it is not zero.  A number has no more decimal digits than
    binary ones, which bounds the recursion. *)
Fixpoint decimal_acc (fuel : nat) (n : N) (acc : string) : string :=
  let acc := String (digit_char (Z.of_N (n mod 10))) acc in
  match fuel with
  | O => acc
  | Datatypes.S fuel =>
      if (n / 10 =? 0)%N then acc else decimal_acc fuel (n / 10) acc
  end.

Definition decimal (n : N) : string :=
  decimal_acc (N.to_nat (N.size n)) n EmptyString.

(** *** Printing a number

    [Number::toString]: the digits [s] (there are [k] of them) and the
    position [n] with [s * 10^(n-k)] reading back as the number and [k] as
    small as possible; among several such [s] the one nearest to the
    number, and the even one of two equally near. *)

Definition reads_as (m c : Z) : bool :=
  match to_double c with
  | Num r => r =? m
  | _ => false
  end.

(** The best [s] of [k] digits for the [n]-digit integer [m], if one reads
    back as [m]: the nearest is one of the two multiples of [10^(n-k)]
    around [m]. *)
Definition candidate (m n k : Z) : option Z :=
  let scale := 10 ^ (n - k) in
  let lo := m / scale in
  let hi := lo + 1 in
  match reads_as m (lo * scale), reads_as m (hi * scale) with
  | true, true =>
      let below := m - lo * scale in
      let above := hi * scale - m in
      Some (if below <? above then lo
            else if above <? below then hi
            else if Z.even lo then lo else hi)
  | true, false => Some lo
  | false, true => Some hi
  | false, false => None
  end.

(** The search for the least [k], from [k] on; seventeen digits identify
    any double, and the [n] digits of [m] itself always do. *)
Fixpoint shortest (fuel : nat) (m n k : Z) : Z * Z :=
  match fuel with
  | O => (m, n)
  | Datatypes.S fuel =>
      if n <=? k then (m, n)
      else match candidate m n k with
           | Some s => (s, k)
           | None => shortest fuel m n (k + 1)
           end
  end.

Fixpoint zeros (n : nat) : string :=
  match n with
  | O => EmptyString
  | Datatypes.S n => String "0" (zeros n)
  end.

(** The digits of a positive integer double: as they are up to 2^53, where
    every integer is a double and so nothing shorter reads back as the same;
    beyond, the shortest digits, followed by zeros up to 21 digits, and
    after that written [de+x] when there is one digit and [d.ddde+x] when
    there are more. *)
Definition magnitude_to_string (m : Z) : string :=
  if m <=? two53 then decimal (Z.to_N m)
  else
    let n := Z.of_nat (String.length (decimal (Z.to_N m))) in
    let '(s, k) := shortest 17 m n 1 in
    let '(s, k, n) := if s =? 10 ^ k then (1, 1, n + 1) else (s, k, n) in
    if n <=? 21 then decimal (Z.to_N s) ++ zeros (Z.to_nat (n - k))
    else if k =? 1 then decimal (Z.to_N s) ++ "e+" ++ decimal (Z.to_N (n - 1))
    else
      match decimal (Z.to_N s) with
      | String d more => String d ("." ++ more ++ "e+" ++ decimal (Z.to_N (n - 1)))
      | EmptyString => EmptyString
      end.

(** [String(x)] / [`${x}`] for a number. *)
Definition number_to_string (n : number) : string :=
  match n with
  | NaN => "NaN"
  | Inf negative => if negative then "-Infinity" else "Infinity"
  | Num z => if z <? 0 then "-" ++ magnitude_to_string (- z) else magnitude_to_string z
  end.

(** [`${x}`] for an array slot. *)
Definition to_string (v : value) : string :=
  match v with
  | Undefined => "undefined"
  | VNum n => number_to_string n
  end.

(** [s.trim()]. *)
Fixpoint trim_start (s : string) : string :=
  match s with
  | EmptyString => EmptyString
  | String c rest => if is_space c then trim_start rest else s
  end.

Fixpoint trim_end (s : string) : string :=
  match s with
  | EmptyString => EmptyString
  | String c rest =>
      match trim_end rest with
      | EmptyString => if is_space c then EmptyString else String c EmptyString
      | kept => String c kept
      end
  end.

Definition trim (s : string) : string := trim_end (trim_start s).

(** Value of a character as a digit of the given radix (10 or 16). *)
Definition digit_in (radix : Z) (c : ascii) : option Z :=
  let d :=
    if is_digit c then code c - 48
    else if (97 <=? code c) && (code c <=? 102) then code c - 87
    else if (65 <=? code c) && (code c <=? 70) then code c - 55
    else 99 in
  if d <? radix then Some d else None.

(** The longest run of digits at the start of [s], if there is one. *)
Fixpoint leading_digits (radix : Z) (acc : option Z) (s : string) : option Z :=
  match s with
  | EmptyString => acc
  | String c rest =>
      match digit_in radix c with
      | Some d =>
          leading_digits radix
            (Some (radix * match acc with Some a => a | None => 0 end + d)) rest
      | None => acc
      end
  end.

(** [parseInt(s)] with no radix: leading white space, a sign, [0x] or [0X]
    for base sixteen, then as many digits as there are, read as the nearest
    double; [NaN] when there is none. *)
Definition parseInt (s : string) : number :=
  let s := trim_start s in
  let '(negative, s) :=
    match s with
    | String "-"%char rest => (true, rest)
    | String "+"%char rest => (false, rest)
    | _ => (false, s)
    end in
  let '(radix, s) :=
    match s with
    | String "0"%char (String "x"%char rest) => (16, rest)
    | String "0"%char (String "X"%char rest) => (16, rest)
    | _ => (10, s)
    end in
  match leading_digits radix None s with
  | Some n => to_double (if negative then - n else n)
  | None => NaN
  end.

(** [s.endsWith(suffix)] and [s.includes(piece)]. *)
Definition endsWith (s suffix : string) : bool :=
  let n := String.length s in
  let k := String.length suffix in
  (k <=? n)%nat && String.eqb (substring (n - k) k s) suffix.

Fixpoint includes (s piece : string) : bool :=
  prefix piece s
  || match s with
     | EmptyString => false
     | String _ rest => includes rest piece
     end.

(** The serialisation of [URLSearchParams]: letters, digits, [*], [-], [.]
    and [_] stand for themselves, a space becomes [+], and every other byte
    of the UTF-8 encoding is written [%HH]. *)
Definition hex_digit (d : Z) : ascii :=
  if d <? 10 then digit_char d else ascii_of_nat (Z.to_nat (55 + d)).

Definition percent (byte : Z) : string :=
  String "%" (String (hex_digit (byte / 16)) (String (hex_digit (byte mod 16)) EmptyString)).

Definition form_byte (c : ascii) : string :=
  if is_word c || (code c =? 42) || (code c =? 45) || (code c =? 46)
  then String c EmptyString
  else if code c =? 32 then "+"
  else if code c <? 128 then percent (code c)
  else percent (192 + code c / 64) ++ percent (128 + code c mod 64).

Fixpoint form_urlencode (s : string) : string :=
  match s with
  | EmptyString => EmptyString
  | String c rest => form_byte c ++ form_urlencode rest
  end.

(** [s.replace(/suffix$/, "")] for a literal suffix: it is removed when the
    string ends with it. *)
Fixpoint strip_end (suffix s : string) : string :=
  if String.eqb s suffix then EmptyString
  else match s with
       | EmptyString => EmptyString
       | String c rest => String c (strip_end suffix rest)
       end.

(** The double quote, for the markup the page writes. *)
Definition dquote : string := String "034"%char EmptyString.

End JS.

(* ===================================================================== *)
(** * Regular expressions *)
(* ===================================================================== *)

Module Regex.

Inductive regex : Type :=
| Void : regex
| Eps : regex
| Class : (ascii -> bool) -> regex
| Cat : regex -> regex -> regex
| Alt : regex -> regex -> regex
| Star : regex -> regex.

(** A literal character, [r+] and [(r)?]. *)
Definition lit (c : ascii) : regex := Class (Ascii.eqb c).
Definition plus (r : regex) : regex := Cat r (Star r).
Definition opt (r : regex) : regex := Alt r Eps.

Fixpoint nullable (r : regex) : bool :=
  match r with
  | Void => false
  | Eps => true
  | Class _ => false
  | Cat r1 r2 => nullable r1 && nullable r2
  | Alt r1 r2 => nullable r1 || nullable r2
  | Star _ => true
  end.

(** Brzozowski derivative. *)
Fixpoint der (c : ascii) (r : regex) : regex :=
  match r with
  | Void => Void
  | Eps => Void
  | Class p => if p c then Eps else Void
  | Cat r1 r2 =>
      if nullable r1 then Alt (Cat (der c r1) r2) (der c r2)
      else Cat (der c r1) r2
  | Alt r1 r2 => Alt (der c r1) (der c r2)
  | Star r1 => Cat (der c r1) (Star r1)
  end.

(** [/^r$/.test(s)]: the whole of [s] is matched by [r]. *)
Fixpoint test (r : regex) (s : string) : bool :=
  match s with
  | EmptyString => nullable r
  | String c rest => test (der c r) rest
  end.

(** The words of a regular expression. *)
Inductive lang : regex -> string -> Prop :=
| lang_eps : lang Eps EmptyString
| lang_class p c : p c = true -> lang (Class p) (String c EmptyString)
| lang_cat r1 r2 s1 s2 : lang r1 s1 -> lang r2 s2 -> lang (Cat r1 r2) (s1 ++ s2)
| lang_alt_l r1 r2 s : lang r1 s -> lang (Alt r1 r2) s
| lang_alt_r r1 r2 s : lang r2 s -> lang (Alt r1 r2) s
| lang_star_nil r : lang (Star r) EmptyString
| lang_star_cons r s1 s2 : lang r s1 -> lang (Star r) s2 -> lang (Star r) (s1 ++ s2).

(** [\d] and [[\w.-]]. *)
Definition digit : regex := Class JS.is_digit.

Definition ident_char (c : ascii) : bool :=
  JS.is_word c || Ascii.eqb c "." || Ascii.eqb c "-".

Definition ident : regex := Class ident_char.

(** [/^\d+\.\d+\.\d+(-[\w.-]+)?(\+[\w.-]+)?$/] *)
Definition semverRegex : regex :=
  Cat (plus digit)
 (Cat (lit ".")
 (Cat (plus digit)
 (Cat (lit ".")
 (Cat (plus digit)
 (Cat (opt (Cat (lit "-") (plus ident)))
      (opt (Cat (lit "+") (plus ident)))))))).

End Regex.

(* ===================================================================== *)
(** * class VersionUtils *)
(* ===================================================================== *)

Module VersionUtils.
Import JS.

Definition isValidSemver (version : string) : bool :=
  let cleanVersion := strip_v version in
  Regex.test Regex.semverRegex cleanVersion.

(** The steps with which [compareSemver], [getNextVersion] and
    [isNextVersion] each read a version:
    [version.replace(/^v/, "").split("-")[0].split(".").map(Number)]. *)
Definition parts (version : string) : list number :=
  map Number (split "." (first (split "-" (strip_v version)))).

(** The body of [for (let i = 0; i < 3; i++)] in [compareSemver], over the
    indices still to visit. *)
Fixpoint compare_loop (parts1 parts2 : list number) (indices : list nat) : Z :=
  match indices with
  | [] => 0
  | i :: rest =>
      if gt (index parts1 i) (index parts2 i) then 1
      else if lt (index parts1 i) (index parts2 i) then -1
      else compare_loop parts1 parts2 rest
  end.

Definition compareSemver (version1 version2 : string) : Z :=
  let clean1 := first (split "-" (strip_v version1)) in
  let clean2 := first (split "-" (strip_v version2)) in
  let parts1 := map Number (split "." clean1) in
  let parts2 := map Number (split "." clean2) in
  compare_loop parts1 parts2 [0; 1; 2]%nat.

Definition one : value := VNum (Num 1).

(** [type] is the second argument; the source gives it the default
    ["patch"], which selects the same branch as any string other than
    ["major"] and ["minor"]. *)
Definition getNextVersion (currentVersion type : string) : string :=
  let clean := first (split "-" (strip_v currentVersion)) in
  let parts := map Number (split "." clean) in
  if String.eqb type "major" then
    "v" ++ number_to_string (add (index parts 0) one) ++ ".0.0"
  else if String.eqb type "minor" then
    "v" ++ to_string (index parts 0) ++ "."
        ++ number_to_string (add (index parts 1) one) ++ ".0"
  else
    "v" ++ to_string (index parts 0) ++ "." ++ to_string (index parts 1) ++ "."
        ++ number_to_string (add (index parts 2) one).

(** The result is one of the strings ["patch"], ["minor"], ["major"]
    ([Some]) or the boolean [false] ([None]). *)
Definition isNextVersion (current next : string) : option string :=
  let cleanCurrent := first (split "-" (strip_v current)) in
  let cleanNext := first (split "-" (strip_v next)) in
  let currentParts := map Number (split "." cleanCurrent) in
  let nextParts := map Number (split "." cleanNext) in
  let zero := VNum (Num 0) in
  if strict_eq (index nextParts 2) (VNum (add (index currentParts 2) one))
     && strict_eq (index nextParts 1) (index currentParts 1)
     && strict_eq (index nextParts 0) (index currentParts 0)
  then Some "patch"
  else if strict_eq (index nextParts 1) (VNum (add (index currentParts 1) one))
     && strict_eq (index nextParts 2) zero
     && strict_eq (index nextParts 0) (index currentParts 0)
  then Some "minor"
  else if strict_eq (index nextParts 0) (VNum (add (index currentParts 0) one))
     && strict_eq (index nextParts 1) zero
     && strict_eq (index nextParts 2) zero
  then Some "major"
  else None.

End VersionUtils.

(* ===================================================================== *)
(** * The text of a version, as the specification describes it *)
(* ===================================================================== *)

(** The numeric-triple grammar of the specification:
    [^\d+\.\d+\.\d+(-[...])?(\+[...])?$] after one leading [v] is stripped.
    A [Version] is a string cut into the pieces the grammar names. *)
Module SemVer.
Import JS.

Record Version : Type := mkVersion {
  lead_v : bool;
  major : string;
  minor : string;
  patch : string;
  prerelease : option string;
  build : option string
}.

Definition nonempty (s : string) : bool :=
  match s with
  | EmptyString => false
  | String _ _ => true
  end.

(** One or more digits; one or more characters of [[\w.-]]. *)
Definition digits (s : string) : bool := nonempty s && all_digits s.
Definition identifier (s : string) : bool :=
  nonempty s && all_chars Regex.ident_char s.

Definition optional (p : string -> bool) (o : option string) : bool :=
  match o with
  | None => true
  | Some s => p s
  end.

Definition well_formed (v : Version) : bool :=
  digits (major v) && digits (minor v) && digits (patch v)
  && optional identifier (prerelease v) && optional identifier (build v).

Definition tagged (mark : string) (o : option string) : string :=
  match o with
  | None => ""
  | Some s => mark ++ s
  end.

Definition core (v : Version) : string :=
  major v ++ "." ++ minor v ++ "." ++ patch v.

Definition suffix (v : Version) : string :=
  tagged "-" (prerelease v) ++ tagged "+" (build v).

(** The version as text. *)
Definition render (v : Version) : string :=
  (if lead_v v then "v" else "") ++ core v ++ suffix v.

(** The (major, minor, patch) projection. *)
Definition triple (v : Version) : Z * Z * Z :=
  (digits_value 0 (major v), digits_value 0 (minor v), digits_value 0 (patch v)).

(** None of the three numbers exceeds 2^53: each is a double. *)
Definition exact (v : Version) : bool :=
  let '(M, m, p) := triple v in
  (M <=? two53) && (m <=? two53) && (p <=? two53).

(** The three numbers are safe integers: none exceeds
    [Number.MAX_SAFE_INTEGER], 2^53 - 1, so that each of them and its
    successor is a double. *)
Definition safe (v : Version) : bool :=
  let '(M, m, p) := triple v in
  (M <=? MAX_SAFE_INTEGER) && (m <=? MAX_SAFE_INTEGER) && (p <=? MAX_SAFE_INTEGER).

(** The three numbers, read as doubles, are below 10^21: such numbers are
    printed in full, without an exponent. *)
Definition printed_in_full (v : Version) : bool :=
  let '(M, m, p) := triple v in
  let limit := Num (10 ^ 21) in
  less (to_double M) limit && less (to_double m) limit && less (to_double p) limit.

(** None of the three numbers, read as a double, is printed with a fraction
    ([1.5e+21]): each is printed in full, or as one digit and an exponent
    ([1e+21]), or is the infinity. *)
Definition whole (x : number) : bool :=
  all_chars (fun c => negb (Ascii.eqb c ".")) (number_to_string x).

Definition printed_whole (v : Version) : bool :=
  let '(M, m, p) := triple v in
  whole (to_double M) && whole (to_double m) && whole (to_double p).

(** Build metadata that follows the numeric triple directly, with no
    pre-release in between. *)
Definition bare_build (v : Version) : bool :=
  match prerelease v, build v with
  | None, Some _ => true
  | _, _ => false
  end.

(** The strings of the grammar. *)
Definition numeric_triple_grammar (s : string) : Prop :=
  exists v, well_formed v = true /\ lead_v v = false /\ s = render v.

(** Lexicographic comparison of two triples, as -1, 0 or 1. *)
Definition sign (c : comparison) : Z :=
  match c with
  | Lt => -1
  | Eq => 0
  | Gt => 1
  end.

Definition lex_compare (a b : Z * Z * Z) : Z :=
  let '(a1, a2, a3) := a in
  let '(b1, b2, b3) := b in
  match a1 ?= b1 with
  | Eq => match a2 ?= b2 with
          | Eq => sign (a3 ?= b3)
          | c => sign c
          end
  | c => sign c
  end.

(** The triple [(M, m, p)] written in decimal, with a prefix and suffixes. *)
Definition of_numbers (v : bool) (M m p : N) (pre bld : option string) : Version :=
  mkVersion v (decimal M) (decimal m) (decimal p) pre bld.

(** The text [vM.m.p]. *)
Definition plain (M m p : Z) : string :=
  render (of_numbers true (Z.to_N M) (Z.to_N m) (Z.to_N p) None None).

(** The three increment rules, between the triple of the current version
    and the triple of a candidate. *)
Definition patch_bump (cur cand : Z * Z * Z) : Prop :=
  let '(M, m, p) := cur in
  let '(M', m', p') := cand in
  p' = p + 1 /\ m' = m /\ M' = M.

Definition minor_bump (cur cand : Z * Z * Z) : Prop :=
  let '(M, m, p) := cur in
  let '(M', m', p') := cand in
  m' = m + 1 /\ p' = 0 /\ M' = M.

Definition major_bump (cur cand : Z * Z * Z) : Prop :=
  let '(M, m, p) := cur in
  let '(M', m', p') := cand in
  M' = M + 1 /\ m' = 0 /\ p' = 0.

End SemVer.

(* ===================================================================== *)
(** * Asynchronous code *)
(* ===================================================================== *)

(** What the GitHub API sends back, as far as the page reads it. *)
Module GitHub.

(** An entry of [comparison.commits]: [commit.sha] and
    [commit.commit.message]. *)
Record Commit : Type := mkCommit {
  sha : string;
  message : string
}.

(** An entry of the release list. *)
Record Release : Type := mkRelease {
  tag_name : string;
  prerelease : bool
}.

(** The parsed package.json: its [version] field, when it is a string. *)
Record PackageJson : Type := mkPackageJson {
  version : option string
}.

(** The body of a response.
    - [JFile content parsed]: a file document; [content] is what [atob]
      makes of its base64 text and [parsed] what [JSON.parse] makes of that
      ([None] where the call throws);
    - [JComparison commits]: an object with its [commits] field (absent:
      [None]);
    - [JOther]: any other document; none of the fields above is there. *)
Inductive Json : Type :=
| JFile (content : option string) (parsed : option PackageJson)
| JComparison (commits : option (list Commit))
| JOther.

(** How a call to [fetch] ends: the promise rejects, or there is a response
    with [ok], [status], [statusText] and the outcome of [response.json()]
    ([None]: it rejects). *)
Inductive FetchResult : Type :=
| Rejected (reason : string)
| Responded (ok : bool) (status : Z) (statusText : string) (json : option Json).

End GitHub.

(** An [async] function over a state [S] (the page): it runs until it
    returns, throws, or awaits a [fetch]; in the last case it is resumed
    with the result of the fetch, on the state as it is by then. *)
Module Async.
Import GitHub.

Inductive Outcome (S A : Type) : Type :=
| Done (s : S) (a : A)
| Thrown (s : S) (error : string)
| Suspended (s : S) (url : string) (resume : FetchResult -> S -> Outcome S A).

Arguments Done {S A} s a.
Arguments Thrown {S A} s error.
Arguments Suspended {S A} s url resume.

Definition Async (S A : Type) : Type := S -> Outcome S A.

Definition pure {S A} (a : A) : Async S A := fun s => Done s a.

Fixpoint and_then {S A B} (o : Outcome S A) (f : A -> Async S B) : Outcome S B :=
  match o with
  | Done s a => f a s
  | Thrown s e => Thrown s e
  | Suspended s url resume =>
      Suspended s url (fun r s' => and_then (resume r s') f)
  end.

Definition bind_async {S A B} (m : Async S A) (f : A -> Async S B) : Async S B :=
  fun s => and_then (m s) f.

#[global] Instance Monad_Async {S} : Monad (Async S) :=
  {| ret := @pure S; bind := @bind_async S |}.

(** [throw new Error(e)]. *)
Definition throw {S A} (e : string) : Async S A := fun s => Thrown s e.

(** [try { m } catch (error) { handler(error) }]. *)
Fixpoint or_else {S A} (o : Outcome S A) (handler : string -> Async S A) : Outcome S A :=
  match o with
  | Done s a => Done s a
  | Thrown s e => handler e s
  | Suspended s url resume =>
      Suspended s url (fun r s' => or_else (resume r s') handler)
  end.

Definition try_catch {S A} (m : Async S A) (handler : string -> Async S A) : Async S A :=
  fun s => or_else (m s) handler.

(** Reading and writing the state. *)
Definition get {S} : Async S S := fun s => Done s s.
Definition modify {S} (f : S -> S) : Async S unit := fun s => Done (f s) tt.

(** [await fetch(url)] together with the [response.json()] that follows. *)
Definition fetch {S} (url : string) : Async S FetchResult :=
  fun s => Suspended s url (fun r s' => Done s' r).

(** The state an outcome stands at. *)
Definition state_of {S A} (o : Outcome S A) : S :=
  match o with
  | Done s _ => s
  | Thrown s _ => s
  | Suspended s _ _ => s
  end.

(** One function running alone: each fetch is answered, in turn, by the
    next result of [answers]. *)
Fixpoint feed {S A} (answers : list FetchResult) (o : Outcome S A) {struct o}
  : Outcome S A :=
  match o with
  | Suspended s url resume =>
      match answers with
      | r :: rest => feed rest (resume r s)
      | [] => o
      end
  | _ => o
  end.

(** The addresses fetched on the way. *)
Fixpoint requests {S A} (answers : list FetchResult) (o : Outcome S A) {struct o}
  : list string :=
  match o with
  | Suspended s url resume =>
      url :: match answers with
             | r :: rest => requests rest (resume r s)
             | [] => []
             end
  | _ => []
  end.

(** ** Several calls in flight

    The event loop runs one piece of code at a time.  A call that awaits a
    fetch waits in [tasks] until its result is delivered; between the two,
    other calls start and resume on the same state. *)

Record Pending (S : Type) : Type := mkPending {
  awaited : string;
  continue : FetchResult -> S -> Outcome S unit
}.

Arguments mkPending {S} awaited continue.
Arguments awaited {S} p.
Arguments continue {S} p.

Record Loop (S : Type) : Type := mkLoop {
  state : S;
  tasks : list (option (Pending S))
}.

Arguments mkLoop {S} state tasks.
Arguments state {S} l.
Arguments tasks {S} l.

Definition settle {S} (o : Outcome S unit) : S * option (Pending S) :=
  match o with
  | Done s _ => (s, None)
  | Thrown s _ => (s, None)
  | Suspended s url resume => (s, Some (mkPending url resume))
  end.

Fixpoint replace_nth {A} (i : nat) (x : A) (l : list A) : list A :=
  match l, i with
  | [], _ => []
  | _ :: rest, O => x :: rest
  | y :: rest, Datatypes.S j => y :: replace_nth j x rest
  end.

(** [Start call]: the call is made and runs to its first fetch.
    [Deliver i r]: the fetch that call number [i] awaits ends with [r]. *)
Inductive Event (S : Type) : Type :=
| Start (call : Async S unit)
| Deliver (i : nat) (r : FetchResult).

Arguments Start {S} call.
Arguments Deliver {S} i r.

Definition step {S} (l : Loop S) (e : Event S) : Loop S :=
  match e with
  | Start call =>
      let '(s, p) := settle (call (state l)) in
      mkLoop s (tasks l ++ [p])%list
  | Deliver i r =>
      match nth_error (tasks l) i with
      | Some (Some p) =>
          let '(s, p') := settle (continue p r (state l)) in
          mkLoop s (replace_nth i p' (tasks l))
      | _ => l
      end
  end.

Definition run {S} (events : list (Event S)) (l : Loop S) : Loop S :=
  fold_left step events l.

End Async.

(* ===================================================================== *)
(** * class GitHubAPI *)
(* ===================================================================== *)

Module GitHubAPI.
Import JS GitHub Async.

(** What [getPackageJson] returns: the parsed file, with the line of its
    version field added. *)
Record PackageInfo : Type := mkPackageInfo {
  version : option string;
  _versionLineNumber : option nat
}.

Section Methods.
Context {S : Type}.

Definition baseURL : string := "https://api.github.com".

(** [this.token] is [null]: the only header is [Accept]. *)
Definition request (endpoint : string) : Async S Json :=
  response <- fetch (baseURL ++ endpoint) ;;
  match response with
  | Rejected reason => throw reason
  | Responded ok status statusText json =>
      if negb ok then
        throw ("GitHub API error: " ++ number_to_string (Num status) ++ " " ++ statusText)
      else
        match json with
        | Some document => ret document
        | None => throw "SyntaxError"
        end
  end.

Definition checkBranchExists (owner repo branchName : string) : Async S bool :=
  try_catch
    (_ <- request ("/repos/" ++ owner ++ "/" ++ repo ++ "/branches/" ++ branchName) ;;
     ret true)
    (fun _ => ret false).

Definition checkTagExists (owner repo tagName : string) : Async S bool :=
  try_catch
    (_ <- request ("/repos/" ++ owner ++ "/" ++ repo ++ "/git/refs/tags/" ++ tagName) ;;
     ret true)
    (fun _ => ret false).

(** The result is the comparison, or [null] ([None]). *)
Definition compareCommits (owner repo base head : string) : Async S (option Json) :=
  try_catch
    (comparison <- request ("/repos/" ++ owner ++ "/" ++ repo ++ "/compare/"
                             ++ base ++ "..." ++ head) ;;
     ret (Some comparison))
    (fun _ => ret None).

(** The loop that looks for the line of the version field; [i] counts the
    lines passed. *)
Fixpoint find_version_line (lines : list string) (i : nat) : option nat :=
  match lines with
  | [] => None
  | line :: rest =>
      if includes line (dquote ++ "version" ++ dquote) && includes line ":"
      then Some (i + 1)%nat
      else find_version_line rest (Datatypes.S i)
  end.

(** [branch] is [null] ([None]) or a string; the empty string is falsy. *)
Definition getPackageJson (owner repo : string) (branch : option string)
  : Async S PackageInfo :=
  try_catch
    (let path :=
       if String.eqb owner "continuedev" && String.eqb repo "continue"
       then "extensions/vscode/package.json" else "package.json" in
     let endpoint :=
       match branch with
       | Some (String c b) =>
           "/repos/" ++ owner ++ "/" ++ repo ++ "/contents/" ++ path
                     ++ "?ref=" ++ String c b
       | _ => "/repos/" ++ owner ++ "/" ++ repo ++ "/contents/" ++ path
       end in
     response <- request endpoint ;;
     match response with
     | JFile (Some content) (Some parsed) =>
         let lines := split "010" content in
         let versionLineNumber := find_version_line lines 0 in
         ret (mkPackageInfo (GitHub.version parsed) versionLineNumber)
     | JFile (Some _) None => throw "SyntaxError"
     | _ => throw "InvalidCharacterError"
     end)
    (fun _ => throw "package.json not found").

End Methods.
End GitHubAPI.

(* ===================================================================== *)
(** * class ReleaseApp *)
(* ===================================================================== *)

(** The part of the page that [validateVersion], [generateReleaseSteps],
    [checkReleaseSteps] and the methods they call read and write. *)
Module ReleaseApp.
Import JS GitHub Async GitHubAPI.

(** A check of the list: the class of its element and the markup of the
    [span] inside. *)
Record CheckItem : Type := mkCheckItem {
  className : string;
  innerHTML : string
}.

Record Checks : Type := mkChecks {
  release_branch_exists_check : CheckItem;
  package_version_check : CheckItem;
  github_release_published_check : CheckItem
}.

(** The panel of cherry-picked commits: [style.display] of
    [cherry-picked-commits-info], the contents of the items of
    [cherry-picked-commits-list], and [href] of [github-compare-link]. *)
Record CherryPick : Type := mkCherryPick {
  display : string;
  items : list string;
  compare_href : string
}.

(** The texts and the link of the release steps. *)
Record Steps : Type := mkSteps {
  create_release_branch_command : string;
  target_version : string;
  push_release_branch_command : string;
  create_release_link : string;
  step_instruction : string
}.

(** The fields of the application ([currentRepo], [releases]; [null] is
    [None]), the two inputs, and the elements written. *)
Record Page : Type := mkPage {
  currentRepo : option (string * string);
  releases : option (list Release);
  target_release_version : string;
  from_prerelease_version : string;
  hidden : list string;
  steps : Steps;
  checks : Checks;
  cherry : CherryPick
}.

Definition with_steps (f : Steps -> Steps) (pg : Page) : Page :=
  mkPage (currentRepo pg) (releases pg) (target_release_version pg)
         (from_prerelease_version pg) (hidden pg) (f (steps pg)) (checks pg) (cherry pg).

Definition with_checks (f : Checks -> Checks) (pg : Page) : Page :=
  mkPage (currentRepo pg) (releases pg) (target_release_version pg)
         (from_prerelease_version pg) (hidden pg) (steps pg) (f (checks pg)) (cherry pg).

Definition with_cherry (f : CherryPick -> CherryPick) (pg : Page) : Page :=
  mkPage (currentRepo pg) (releases pg) (target_release_version pg)
         (from_prerelease_version pg) (hidden pg) (steps pg) (checks pg) (f (cherry pg)).

Definition with_target_release_version (value : string) (pg : Page) : Page :=
  mkPage (currentRepo pg) (releases pg) value (from_prerelease_version pg)
         (hidden pg) (steps pg) (checks pg) (cherry pg).

Definition with_hidden (f : list string -> list string) (pg : Page) : Page :=
  mkPage (currentRepo pg) (releases pg) (target_release_version pg)
         (from_prerelease_version pg) (f (hidden pg)) (steps pg) (checks pg) (cherry pg).

(** The three elements [updateStatus] is called on. *)
Inductive CheckId : Type :=
| ReleaseBranchExists
| PackageVersion
| GithubReleasePublished.

Definition on_check (id : CheckId) (f : CheckItem -> CheckItem) (c : Checks) : Checks :=
  match id with
  | ReleaseBranchExists =>
      mkChecks (f (release_branch_exists_check c)) (package_version_check c)
               (github_release_published_check c)
  | PackageVersion =>
      mkChecks (release_branch_exists_check c) (f (package_version_check c))
               (github_release_published_check c)
  | GithubReleasePublished =>
      mkChecks (release_branch_exists_check c) (package_version_check c)
               (f (github_release_published_check c))
  end.

(** [<a href="url" target="_blank" class="class">text</a>] *)
Definition anchor (url class text : string) : string :=
  "<a href=" ++ dquote ++ url ++ dquote ++ " target=" ++ dquote ++ "_blank" ++ dquote
  ++ " class=" ++ dquote ++ class ++ dquote ++ ">" ++ text ++ "</a>".

Definition updateStatus (checkElement : CheckId) (isValid : bool) (message : string)
  : Async Page unit :=
  modify (with_checks (on_check checkElement (fun _ =>
    mkCheckItem (if isValid then "check-item success" else "check-item danger")
                message))).

Definition showSection (sectionId : string) : Async Page unit :=
  modify (with_hidden (filter (fun id => negb (String.eqb id sectionId)))).

(** [const baseBranch] of [generateReleaseSteps]: the trimmed value of the
    from-version input or, when that is empty, the name made from the target
    version. *)
Definition baseBranch (version fromVersionInput : string) : string :=
  let cleanVersion := strip_v version in
  match fromVersionInput with
  | String _ _ => fromVersionInput
  | EmptyString =>
      "v" ++ first (split "." cleanVersion) ++ "."
          ++ number_to_string
               (add (VNum match nth_error (split "." cleanVersion) 1 with
                          | Some piece => parseInt piece
                          | None => NaN
                          end)
                    (VNum (Num 1)))
          ++ ".x-vscode"
  end.

Definition generateReleaseSteps (version : string) : Async Page unit :=
  pg <- get ;;
  let cleanVersion := strip_v version in
  let fromVersionInput := trim (from_prerelease_version pg) in
  let baseBranch := baseBranch version fromVersionInput in
  modify (with_steps (fun s =>
    mkSteps ("git checkout -b " ++ version ++ "-vscode-release " ++ baseBranch)
            cleanVersion
            ("git push origin " ++ version ++ "-vscode-release")
            (create_release_link s) (step_instruction s))) ;;
  match currentRepo pg with
  | None => throw "TypeError"
  | Some (owner, repo) =>
      let releaseParams :=
        "tag=" ++ form_urlencode (version ++ "-vscode")
        ++ "&target=" ++ form_urlencode (version ++ "-vscode-release") in
      let releaseUrl :=
        "https://github.com/" ++ owner ++ "/" ++ repo ++ "/releases/new?" ++ releaseParams in
      modify (with_steps (fun s =>
        mkSteps (create_release_branch_command s) (target_version s)
                (push_release_branch_command s) releaseUrl (step_instruction s))) ;;
      match releases pg with
      | None => throw "TypeError"
      | Some all =>
          let vscodeReleases := filter (fun release => endsWith (tag_name release) "-vscode") all in
          let latestRelease := find (fun release => negb (prerelease release)) vscodeReleases in
          let latestReleaseTag :=
            match latestRelease with
            | Some release => tag_name release
            | None => "latest release"
            end in
          modify (with_steps (fun s =>
            mkSteps (create_release_branch_command s) (target_version s)
                    (push_release_branch_command s) (create_release_link s)
                    ("This will open GitHub, select Previous tag: " ++ latestReleaseTag
                     ++ ", click " ++ dquote ++ "Generate release notes" ++ dquote
                     ++ " and " ++ dquote ++ "Publish release" ++ dquote ++ "!")))
      end
  end.

(** [parts[i]] is printed as it is; [parts[2] + 1] is a sum of numbers. *)
Definition getNextPatchVersion (currentVersion : string) : string :=
  let cleanVersion := strip_end "-vscode" (strip_v currentVersion) in
  let parts := map Number (split "." cleanVersion) in
  "v" ++ to_string (index parts 0) ++ "." ++ to_string (index parts 1) ++ "."
      ++ number_to_string (add (index parts 2) (VNum (Num 1))).

Definition hideCherryPickInfo : Async Page unit :=
  modify (with_cherry (fun c => mkCherryPick "none" (items c) (compare_href c))).

Definition showCherryPickInfo (owner repo baseBranch releaseBranch : string)
    (commits : list Commit) : Async Page unit :=
  let list :=
    match commits with
    | [] => ["None"]
    | _ =>
        map (fun commit =>
               let shortSha := substring 0 7 (sha commit) in
               let message := first (split "010" (message commit)) in
               let commitUrl :=
                 "https://github.com/" ++ owner ++ "/" ++ repo ++ "/commit/" ++ sha commit in
               anchor commitUrl "commit-link" shortSha ++ " " ++ message)
            commits
    end in
  let compareUrl :=
    "https://github.com/" ++ owner ++ "/" ++ repo ++ "/compare/"
    ++ baseBranch ++ "..." ++ releaseBranch in
  modify (with_cherry (fun _ => mkCherryPick "block" list compareUrl)).

Definition checkCherryPickedCommits (owner repo version releaseBranchName : string)
  : Async Page unit :=
  try_catch
    (pg <- get ;;
     let fromVersionInput := trim (from_prerelease_version pg) in
     match fromVersionInput with
     | EmptyString => hideCherryPickInfo
     | String _ _ =>
         let baseBranch := fromVersionInput in
         comparison <- compareCommits owner repo baseBranch releaseBranchName ;;
         match comparison with
         | Some (JComparison (Some (commit :: more))) =>
             showCherryPickInfo owner repo baseBranch releaseBranchName (commit :: more)
         | _ => showCherryPickInfo owner repo baseBranch releaseBranchName []
         end
     end)
    (fun _ => hideCherryPickInfo).

Definition checkGitHubReleaseExists (owner repo version : string) : Async Page unit :=
  let targetReleaseTag := version ++ "-vscode" in
  try_catch
    (pg <- get ;;
     match releases pg with
     | None => throw "TypeError"
     | Some all =>
         match find (fun release => String.eqb (tag_name release) targetReleaseTag) all with
         | Some _ =>
             let releaseUrl :=
               "https://github.com/" ++ owner ++ "/" ++ repo ++ "/releases/tag/"
               ++ targetReleaseTag in
             updateStatus GithubReleasePublished true
               (anchor releaseUrl "release-link" ("Release " ++ targetReleaseTag ++ " published"))
         | None =>
             updateStatus GithubReleasePublished false
               ("GitHub release " ++ targetReleaseTag ++ " not found")
         end
     end)
    (fun _ => updateStatus GithubReleasePublished false "Error checking GitHub release status").

(** [actualVersion === expectedVersion] and [`v${actualVersion}`], for a
    version field that is a string or is not there. *)
Definition same_version (actualVersion : option string) (expectedVersion : string) : bool :=
  match actualVersion with
  | Some actual => String.eqb actual expectedVersion
  | None => false
  end.

Definition shown (actualVersion : option string) : string :=
  match actualVersion with
  | Some actual => actual
  | None => "undefined"
  end.

Definition checkReleaseSteps (version : string) : Async Page unit :=
  pg <- get ;;
  match currentRepo pg with
  | None => ret tt
  | Some (owner, repo) =>
      let releaseBranchName := version ++ "-vscode-release" in
      (* Reset all checks *)
      modify (with_checks (fun c =>
        mkChecks (mkCheckItem "check-item" (innerHTML (release_branch_exists_check c)))
                 (mkCheckItem "check-item" (innerHTML (package_version_check c)))
                 (mkCheckItem "check-item" (innerHTML (github_release_published_check c))))) ;;
      try_catch
        (branchExists <- checkBranchExists owner repo releaseBranchName ;;
         let branchUrl :=
           "https://github.com/" ++ owner ++ "/" ++ repo ++ "/tree/" ++ releaseBranchName in
         if branchExists : bool then
           (* Step 1: Branch exists check *)
           updateStatus ReleaseBranchExists true
             (anchor branchUrl "branch-link" ("Branch " ++ releaseBranchName ++ " found")) ;;
           (* Step 2: Package.json version check (only if branch exists) *)
           try_catch
             (branchPackageJson <- getPackageJson owner repo (Some releaseBranchName) ;;
              let expectedVersion := strip_v version in
              let actualVersion := GitHubAPI.version branchPackageJson in
              let packageJsonPath :=
                if String.eqb owner "continuedev" && String.eqb repo "continue"
                then "extensions/vscode/package.json" else "package.json" in
              let packageJsonUrl :=
                "https://github.com/" ++ owner ++ "/" ++ repo ++ "/blob/"
                ++ releaseBranchName ++ "/" ++ packageJsonPath
                ++ match _versionLineNumber branchPackageJson with
                   | Some (Datatypes.S n) => "#L" ++ decimal (N.of_nat (Datatypes.S n))
                   | _ => ""
                   end in
              if same_version actualVersion expectedVersion then
                updateStatus PackageVersion true
                  (anchor packageJsonUrl "branch-link"
                          ("package.json version == v" ++ expectedVersion))
              else
                updateStatus PackageVersion false
                  (anchor packageJsonUrl "branch-link"
                          ("package.json version != v" ++ expectedVersion)
                   ++ " (currently v" ++ shown actualVersion ++ ")"))
             (fun _ => updateStatus PackageVersion false "Error checking package.json version") ;;
           (* Check for cherry-picked commits if branch exists *)
           checkCherryPickedCommits owner repo version releaseBranchName
         else
           updateStatus ReleaseBranchExists false
             "Release branch missing, run command to create branch" ;;
           updateStatus PackageVersion false "Release branch not created" ;;
           hideCherryPickInfo)
        (fun _ =>
           updateStatus ReleaseBranchExists false "Error checking release branch" ;;
           updateStatus PackageVersion false "Release branch not created" ;;
           hideCherryPickInfo) ;;
      (* Step 6: Check if GitHub release exists with target version tag *)
      checkGitHubReleaseExists owner repo version
  end.

(** The call of [checkReleaseSteps] is not awaited; nothing follows it in
    [validateVersion], so the two run as one sequence here. *)
Definition validateVersion : Async Page unit :=
  pg <- get ;;
  let versionInput := trim (target_release_version pg) in
  if negb (String.eqb versionInput "") && VersionUtils.isValidSemver versionInput then
    (* Generate release process steps *)
    generateReleaseSteps versionInput ;;
    showSection "release-process" ;;
    (* Start checking steps *)
    checkReleaseSteps versionInput
  else
    (* Don't hide the section if invalid - just don't update it *)
    ret tt.

(** The listener of [initEventListeners] on the target-version input: the
    user has typed [value], and [validateVersion] runs. *)
Definition input_target_version (value : string) : Async Page unit :=
  modify (with_target_release_version value) ;;
  validateVersion.

(** What the checklist shows: the three checks and, when the panel of
    cherry-picked commits is displayed, its list and link. *)
Definition checklist (pg : Page) : Checks * option (list string * string) :=
  (checks pg,
   if String.eqb (display (cherry pg)) "none" then None
   else Some (items (cherry pg), compare_href (cherry pg))).

(** A check shows as passed when its element has the class [success]. *)
Definition passed (c : CheckItem) : bool := String.eqb (className c) "check-item success".

(** The fetches [request] returns from, and those it throws on: a rejected
    promise, a response that is not [ok], a body that is not JSON. *)
Definition succeeds (r : FetchResult) : bool :=
  match r with
  | Responded true _ _ (Some _) => true
  | _ => false
  end.

Definition fails (r : FetchResult) : bool := negb (succeeds r).

(** A response whose body is a package.json with the given version. *)
Definition manifest (content : string) (version : string) : FetchResult :=
  Responded true 200 "OK" (Some (JFile (Some content) (Some (mkPackageJson (Some version))))).

(** What a call reads and never writes. *)
Definition inputs (pg : Page) : option (string * string) * option (list Release) * string :=
  (currentRepo pg, releases pg, from_prerelease_version pg).

(** The check that [checkReleaseSteps] writes for the package.json when the
    branch is found, read off a run on a page that holds the repository and
    nothing else: it depends on the repository, the target version and the
    answer [p] to the request for the file, not on the page. *)
Definition bare_page (owner repo : string) : Page :=
  mkPage (Some (owner, repo)) None "" "" []
         (mkSteps "" "" "" "" "")
         (mkChecks (mkCheckItem "" "") (mkCheckItem "" "") (mkCheckItem "" ""))
         (mkCherryPick "" [] "").

Definition package_item (owner repo version : string) (b p : FetchResult) : CheckItem :=
  package_version_check (checks (state_of
    (feed [b; p] (checkReleaseSteps version (bare_page owner repo))))).

(** What [checkReleaseSteps] does when the answer on the branch arrives: the
    code after its first [await], which runs on the page as it is by then. *)
Definition after_branch (version owner repo : string)
  : FetchResult -> Page -> Outcome Page unit :=
  match checkReleaseSteps version (bare_page owner repo) with
  | Suspended _ _ resume => resume
  | _ => fun _ s => Done s tt
  end.

(** The classes of the three checks reset, as at the start of a cycle. *)
Definition reset_checks (pg : Page) : Page :=
  with_checks (fun c =>
    mkChecks (mkCheckItem "check-item" (innerHTML (release_branch_exists_check c)))
             (mkCheckItem "check-item" (innerHTML (package_version_check c)))
             (mkCheckItem "check-item" (innerHTML (github_release_published_check c)))) pg.

End ReleaseApp.

(** A page and two answers, for the examples. *)
Module Sample.
Import GitHub ReleaseApp.

(** Repository [o/r] with releases [v1.3.0-vscode] (pre-release) and
    [v1.2.3-vscode]; target version [v1.2.4]; the given from-version. *)
Definition page (fromVersion : string) : Page :=
  mkPage (Some ("o", "r"))
         (Some [mkRelease "v1.3.0-vscode" true; mkRelease "v1.2.3-vscode" false])
         "v1.2.4" fromVersion []
         (mkSteps "" "" "" "" "")
         (mkChecks (mkCheckItem "check-item" "") (mkCheckItem "check-item" "")
                   (mkCheckItem "check-item" ""))
         (mkCherryPick "none" [] "").

Definition found : FetchResult := Responded true 200 "OK" (Some JOther).
Definition not_found : FetchResult := Responded false 404 "Not Found" (Some JOther).

(** Two edits of the target version, the second made while the first
    evaluation awaits its answer; the second evaluation is answered (branch
    found, package.json at 1.2.5), and then the first (branch not found). *)
Definition overlap : list (Async.Event Page) :=
  [Async.Start (input_target_version "v1.2.4");
   Async.Start (input_target_version "v1.2.5");
   Async.Deliver 1 found;
   Async.Deliver 1 (manifest "" "1.2.5");
   Async.Deliver 0 not_found].

Definition idle : Async.Loop Page := Async.mkLoop (page "") [].

(** The page after version [v1.2.4] is evaluated alone (branch not found),
    and after version [v1.2.5] is then evaluated (branch found, package.json
    at 1.2.5). *)
Definition after_first : Page :=
  Eval vm_compute in
    Async.state_of (Async.feed [not_found] (checkReleaseSteps "v1.2.4" (page ""))).

Definition after_second : Page :=
  Eval vm_compute in
    Async.state_of (Async.feed [found; manifest "" "1.2.5"]
                      (checkReleaseSteps "v1.2.5" after_first)).

(** Version [v1.2.5] evaluated to its end (branch found, package.json at
    1.2.5) while version [v1.2.4] awaits the answer on its branch, and the
    page once that answer has arrived (branch not found). *)
Definition newer : Page :=
  Eval vm_compute in
    Async.state_of (Async.feed [found; manifest "" "1.2.5"]
                      (checkReleaseSteps "v1.2.5" (reset_checks (page "")))).

Definition stale : Page :=
  Eval vm_compute in
    Async.state_of (Async.feed [] (after_branch "v1.2.4" "o" "r" not_found newer)).

End Sample.
(* ===================================================================== *)
(** * Facts about strings, [split] and decimal numerals *)
(* ===================================================================== *)

(** Closed statements, conjunct by conjunct, by evaluation. *)
Ltac evaluate :=
  repeat match goal with |- _ /\ _ => split end;
  vm_compute;
  repeat match goal with |- _ /\ _ => split end;
  reflexivity.

Module StringFacts.
Import JS.

Lemma app_nil_r (s : string) : s ++ "" = s.
Proof. induction s as [| c s IH]; simpl; [reflexivity | now rewrite IH]. Qed.

Lemma app_assoc (a b c : string) : (a ++ b) ++ c = a ++ (b ++ c).
Proof. induction a as [| x a IH]; simpl; [reflexivity | now rewrite IH]. Qed.

(** Right-nested appends, with the literal characters pushed inside. *)
Ltac norm_app := repeat first [rewrite !app_assoc | progress cbn [append]].

Lemma app_eq_nil (a b : string) : a ++ b = "" -> a = "" /\ b = "".
Proof. destruct a; simpl; [auto | discriminate]. Qed.

Lemma all_chars_app p (a b : string) :
  all_chars p (a ++ b) = all_chars p a && all_chars p b.
Proof.
  induction a as [| x a IH]; simpl; [reflexivity |].
  now rewrite IH, andb_assoc.
Qed.

(** A character that [p] rejects does not occur in a string whose characters
    all satisfy [p]. *)
Definition absent (sep : ascii) (s : string) : bool :=
  all_chars (fun c => negb (Ascii.eqb c sep)) s.

Lemma all_chars_absent p sep s :
  p sep = false -> all_chars p s = true -> absent sep s = true.
Proof.
  intros Hsep. unfold absent.
  induction s as [| c s IH]; simpl; [reflexivity |].
  intros H. apply andb_prop in H as [Hc Hs].
  rewrite (IH Hs), andb_true_r.
  destruct (Ascii.eqb_spec c sep) as [-> |]; [congruence | reflexivity].
Qed.

Lemma absent_app sep a b : absent sep (a ++ b) = absent sep a && absent sep b.
Proof. apply all_chars_app. Qed.

Lemma split_not_nil sep s : split sep s <> [].
Proof.
  destruct s as [| c s]; simpl; [discriminate |].
  destruct (Ascii.eqb c sep); [discriminate |].
  destruct (split sep s); discriminate.
Qed.

(** Up to the first separator, [split] copies. *)
Lemma split_app sep d r :
  absent sep d = true ->
  split sep (d ++ r) = (d ++ first (split sep r)) :: tl (split sep r).
Proof.
  unfold absent.
  induction d as [| c d IH]; simpl; intros H.
  - destruct (split sep r) eqn:E; [now apply split_not_nil in E | reflexivity].
  - apply andb_prop in H as [Hc Hd].
    destruct (Ascii.eqb c sep); [discriminate |].
    now rewrite (IH Hd).
Qed.

Lemma split_whole sep d : absent sep d = true -> split sep d = [d].
Proof.
  intros H. rewrite <- (app_nil_r d) at 1.
  rewrite (split_app _ _ _ H). simpl. now rewrite app_nil_r.
Qed.

Lemma split_at sep d r :
  absent sep d = true -> split sep (d ++ String sep r) = d :: split sep r.
Proof.
  intros H. rewrite (split_app _ _ _ H). simpl.
  rewrite Ascii.eqb_refl. simpl. now rewrite app_nil_r.
Qed.

(** ** Decimal numerals *)

Lemma is_digit_bounds c : is_digit c = true -> 0 <= digit_val c <= 9.
Proof.
  unfold is_digit, digit_val. intros H.
  apply andb_prop in H as [H1 H2]. apply Z.leb_le in H1, H2. lia.
Qed.

Lemma digit_char_val d : 0 <= d <= 9 ->
  is_digit (digit_char d) = true /\ digit_val (digit_char d) = d.
Proof.
  intros H.
  assert (E : code (digit_char d) = 48 + d).
  { unfold code, digit_char. rewrite nat_ascii_embedding; lia. }
  unfold is_digit, digit_val. rewrite E.
  split; [apply andb_true_intro; split; apply Z.leb_le; lia | lia].
Qed.

Lemma digits_value_app acc a b :
  digits_value acc (a ++ b) = digits_value (digits_value acc a) b.
Proof. revert acc. induction a as [| c a IH]; simpl; intros; [reflexivity | apply IH]. Qed.

Lemma digits_value_nonneg s : forall acc,
  all_digits s = true -> 0 <= acc -> 0 <= digits_value acc s.
Proof.
  unfold all_digits.
  induction s as [| c s IH]; cbn [digits_value all_chars];
    intros acc H Hacc; [assumption |].
  apply andb_prop in H as [Hc Hs]. apply IH; [assumption |].
  pose proof (is_digit_bounds c Hc). lia.
Qed.

(** Printing continues the numeral of [n / 10] with the last digit. *)
Lemma decimal_acc_spec fuel : forall n acc,
  (n < 10 * 2 ^ N.of_nat fuel)%N ->
  exists d, decimal_acc fuel n acc = d ++ acc
    /\ SemVer.digits d = true
    /\ digits_value 0 d = Z.of_N n.
Proof.
  induction fuel as [| fuel IH]; intros n acc Hn;
    pose proof (N.div_mod n 10 ltac:(discriminate)) as Hdm;
    assert (Hm : (n mod 10 < 10)%N) by (apply N.mod_lt; discriminate);
    remember (n mod 10)%N as k eqn:Ek;
    remember (n / 10)%N as q eqn:Eq;
    assert (Hlast : 0 <= Z.of_N k <= 9) by lia;
    destruct (digit_char_val _ Hlast) as [Hd Hv];
    cbn [decimal_acc]; rewrite <- ?Ek, <- ?Eq.
  - exists (String (digit_char (Z.of_N k)) "").
    unfold SemVer.digits, all_digits.
    cbn [append SemVer.nonempty all_chars digits_value andb].
    rewrite Hd, Hv. repeat split. cbn [N.of_nat N.pow] in Hn. lia.
  - destruct (N.eqb_spec q 0) as [E | E].
    + exists (String (digit_char (Z.of_N k)) "").
      unfold SemVer.digits, all_digits.
      cbn [append SemVer.nonempty all_chars digits_value andb].
      rewrite Hd, Hv. repeat split. lia.
    + assert (Hq : (q < 10 * 2 ^ N.of_nat fuel)%N).
      { rewrite Nat2N.inj_succ, N.pow_succ_r' in Hn. lia. }
      destruct (IH q (String (digit_char (Z.of_N k)) acc) Hq)
        as (d & E1 & E2 & E3).
      exists (d ++ String (digit_char (Z.of_N k)) "").
      rewrite E1, app_assoc. split; [reflexivity |].
      unfold SemVer.digits, all_digits in *.
      apply andb_prop in E2 as [Hne Hall].
      rewrite all_chars_app, Hall.
      rewrite digits_value_app, E3.
      cbn [all_chars digits_value andb]. rewrite Hd, Hv.
      split; [| lia].
      destruct d; [discriminate | reflexivity].
Qed.

Lemma decimal_spec n :
  SemVer.digits (decimal n) = true /\ digits_value 0 (decimal n) = Z.of_N n.
Proof.
  unfold decimal.
  destruct (decimal_acc_spec (N.to_nat (N.size n)) n "") as (d & E & H1 & H2).
  - rewrite N2Nat.id. pose proof (N.size_gt n). lia.
  - now rewrite E, app_nil_r.
Qed.

Lemma decimal_digits n : SemVer.digits (decimal n) = true.
Proof. apply decimal_spec. Qed.

Lemma decimal_value n : digits_value 0 (decimal n) = Z.of_N n.
Proof. apply decimal_spec. Qed.

(** ** Numbers *)

(** Up to 2^53 an integer is a double. *)
Lemma to_double_exact z : Z.abs z <= two53 -> to_double z = Num z.
Proof.
  intros H. unfold to_double.
  destruct (Z.leb_spec (Z.abs z) two53); [reflexivity | lia].
Qed.

Lemma to_double_safe z : 0 <= z <= MAX_SAFE_INTEGER -> to_double z = Num z.
Proof. intros H. apply to_double_exact. unfold two53, MAX_SAFE_INTEGER in *. lia. Qed.

(** A run of digits holds no exponent mark. *)
Lemma cut_exponent_digits s : all_digits s = true -> cut_exponent s = (s, None).
Proof.
  unfold all_digits.
  induction s as [| c s IH]; cbn [cut_exponent all_chars]; [reflexivity |].
  intros H. apply andb_prop in H as [Hc Hs]. rewrite (IH Hs).
  destruct (Ascii.eqb_spec c "e") as [-> |]; [discriminate |].
  destruct (Ascii.eqb_spec c "E") as [-> |]; [discriminate | reflexivity].
Qed.

(** [Number] of a run of digits is the double nearest to its value. *)
Lemma Number_all_digits s :
  all_digits s = true -> Number s = to_double (digits_value 0 s).
Proof.
  intros H. unfold Number. rewrite (cut_exponent_digits s H), H.
  destruct (String.eqb_spec s "Infinity") as [-> |]; [discriminate | reflexivity].
Qed.

Lemma Number_digits s :
  SemVer.digits s = true -> Number s = to_double (digits_value 0 s).
Proof.
  unfold SemVer.digits. intros H.
  apply andb_prop in H as [_ H]. now apply Number_all_digits.
Qed.

(** Digits followed by [+] and more are not a number. *)
Lemma cut_exponent_app d r :
  all_digits d = true ->
  cut_exponent (d ++ r) = (d ++ fst (cut_exponent r), snd (cut_exponent r)).
Proof.
  unfold all_digits.
  induction d as [| c d IH]; cbn [cut_exponent all_chars append].
  - intros _. now destruct (cut_exponent r).
  - intros H. apply andb_prop in H as [Hc Hd]. rewrite (IH Hd).
    destruct (Ascii.eqb_spec c "e") as [-> |]; [discriminate |].
    destruct (Ascii.eqb_spec c "E") as [-> |]; [discriminate | reflexivity].
Qed.

Lemma Number_marked d r :
  SemVer.digits d = true -> Number (d ++ String "+" r) = NaN.
Proof.
  intros H. apply andb_prop in H as [Hne H].
  assert (Hall : forall x, all_digits (d ++ String "+" x) = false).
  { intros x. unfold all_digits. rewrite all_chars_app. cbn [all_chars].
    replace (is_digit "+") with false by reflexivity.
    now rewrite andb_false_r. }
  unfold Number. rewrite (cut_exponent_app d _ H).
  cbn [cut_exponent Ascii.eqb Bool.eqb orb].
  destruct (cut_exponent r) as [mantissa exponent]. cbn [fst snd].
  assert (Hsome : some_digits (d ++ String "+" mantissa) = false).
  { destruct d; [discriminate Hne |]. cbn [append some_digits].
    change (String a (d ++ String "+" mantissa))
      with (String a d ++ String "+" mantissa). apply Hall. }
  rewrite Hall, Hsome.
  destruct (String.eqb_spec (d ++ String "+" r) "Infinity") as [E |].
  - exfalso. destruct d as [| c d]; [discriminate Hne |].
    cbn [append] in E. injection E as -> _.
    unfold all_digits in H. cbn [all_chars] in H. discriminate H.
  - now destruct exponent.
Qed.

(** [Number] reads back what printing wrote. *)
Lemma Number_decimal n : Number (decimal n) = to_double (Z.of_N n).
Proof. now rewrite (Number_digits _ (decimal_digits n)), decimal_value. Qed.

(** Up to 2^53 a number is printed with all its digits. *)
Lemma number_to_string_nonneg z :
  0 <= z <= two53 -> number_to_string (Num z) = decimal (Z.to_N z).
Proof.
  intros H. unfold number_to_string, magnitude_to_string.
  destruct (Z.ltb_spec z 0); [lia |].
  destruct (Z.leb_spec z two53); [reflexivity | lia].
Qed.

End StringFacts.

(* ===================================================================== *)
(** * The derivative matcher decides the language *)
(* ===================================================================== *)

Module RegexFacts.
Import JS Regex StringFacts.

Create HintDb regex.
#[local] Hint Constructors lang : regex.

Lemma nullable_lang r : nullable r = true <-> lang r "".
Proof.
  split.
  - induction r; simpl; intros H; try discriminate; auto with regex.
    + apply andb_prop in H as [H1 H2].
      change "" with ("" ++ ""). auto with regex.
    + apply orb_prop in H as [H | H]; auto with regex.
  - intros H. remember "" as s eqn:Es.
    induction H; simpl; subst; try reflexivity; try discriminate.
    + apply app_eq_nil in Es as [-> ->]. now rewrite IHlang1, IHlang2.
    + now rewrite IHlang.
    + rewrite IHlang by reflexivity. apply orb_true_r.
Qed.

Lemma der_sound c r : forall s, lang (der c r) s -> lang r (String c s).
Proof.
  induction r; simpl; intros s H.
  - inversion H.
  - inversion H.
  - destruct (b c) eqn:E; inversion H; subst. now constructor.
  - destruct (nullable r1) eqn:E.
    + inversion H; subst.
      * match goal with H : lang (Cat _ _) _ |- _ => inversion H; subst end.
        change (String c (s1 ++ s2)) with (String c s1 ++ s2). auto with regex.
      * change (String c s) with ("" ++ String c s).
        constructor; [now apply nullable_lang | auto].
    + inversion H; subst.
      change (String c (s1 ++ s2)) with (String c s1 ++ s2). auto with regex.
  - inversion H; subst; auto with regex.
  - inversion H; subst.
    change (String c (s1 ++ s2)) with (String c s1 ++ s2). auto with regex.
Qed.

Lemma der_complete c r w : lang r w -> forall t, w = String c t -> lang (der c r) t.
Proof.
  induction 1 as [| p x Hp | r1 r2 s1 s2 H1 IH1 H2 IH2 | r1 r2 s H IH | r1 r2 s H IH
                  | r | r s1 s2 H1 IH1 H2 IH2]; intros t E; simpl.
  - discriminate.
  - injection E as -> <-. rewrite Hp. constructor.
  - destruct s1 as [| y s1]; simpl in E.
    + subst s2. apply nullable_lang in H1. rewrite H1.
      apply lang_alt_r. auto.
    + injection E as -> <-.
      assert (lang (Cat (der c r1) r2) (s1 ++ s2)) by auto with regex.
      destruct (nullable r1); auto with regex.
  - apply lang_alt_l. auto.
  - apply lang_alt_r. auto.
  - discriminate.
  - destruct s1 as [| y s1]; simpl in E.
    + subst s2. simpl in IH2. auto.
    + injection E as -> <-. auto with regex.
Qed.

Lemma der_lang c r s : lang (der c r) s <-> lang r (String c s).
Proof.
  split; [apply der_sound |].
  intros H. now apply (der_complete c r _ H).
Qed.

Theorem test_lang r s : test r s = true <-> lang r s.
Proof.
  revert r. induction s as [| c s IH]; intros r; simpl.
  - apply nullable_lang.
  - rewrite IH. apply der_lang.
Qed.

(** ** The pieces of [semverRegex] *)

Lemma lang_star_class p s : lang (Star (Class p)) s <-> all_chars p s = true.
Proof.
  split.
  - intros H. remember (Star (Class p)) as r eqn:Er.
    induction H; try discriminate; [reflexivity |].
    injection Er as ->. inversion H; subst. simpl.
    match goal with H : p _ = true |- _ => rewrite H end. now apply IHlang2.
  - induction s as [| c s IH]; simpl; intros H; [constructor |].
    apply andb_prop in H as [Hc Hs].
    change (String c s) with (String c "" ++ s).
    constructor; [now constructor | auto].
Qed.

Lemma lang_plus_class p s :
  lang (plus (Class p)) s <-> SemVer.nonempty s && all_chars p s = true.
Proof.
  unfold plus. split.
  - intros H. inversion H; subst.
    match goal with H : lang (Class _) _ |- _ => inversion H; subst end.
    simpl. match goal with H : p _ = true |- _ => rewrite H end.
    now apply lang_star_class.
  - destruct s as [| c s]; simpl; [discriminate |]. intros H.
    apply andb_prop in H as [Hc Hs].
    change (String c s) with (String c "" ++ s).
    constructor; [now constructor | now apply lang_star_class].
Qed.

Lemma lang_lit c s : lang (lit c) s <-> s = String c "".
Proof.
  unfold lit. split.
  - intros H. inversion H; subst.
    match goal with H : Ascii.eqb _ _ = true |- _ => apply Ascii.eqb_eq in H end.
    now subst.
  - intros ->. constructor. apply Ascii.eqb_refl.
Qed.

Lemma lang_tagged mark s :
  lang (opt (Cat (lit mark) (plus ident))) s <->
  exists o, SemVer.optional SemVer.identifier o = true
            /\ s = SemVer.tagged (String mark "") o.
Proof.
  unfold opt. split.
  - intros H. inversion H; subst.
    + match goal with H : lang (Cat _ _) _ |- _ => inversion H; subst end.
      match goal with H : lang (lit _) _ |- _ => apply lang_lit in H; subst end.
      match goal with H : lang (plus _) _ |- _ => apply lang_plus_class in H end.
      exists (Some s2). now split.
    + match goal with H : lang Eps _ |- _ => inversion H; subst end.
      exists None. now split.
  - intros [[w |] [Hw ->]]; simpl.
    + apply lang_alt_l. change (String mark w) with (String mark "" ++ w).
      constructor; [now apply lang_lit | now apply lang_plus_class].
    + apply lang_alt_r. constructor.
Qed.

(** The language of the regular expression is the grammar. *)
Lemma lang_semverRegex s :
  lang semverRegex s <-> SemVer.numeric_triple_grammar s.
Proof.
  unfold semverRegex, SemVer.numeric_triple_grammar. split.
  - intros H.
    repeat match goal with
    | H : lang (Cat _ _) _ |- _ => inversion H; clear H; subst
    end.
    repeat match goal with
    | H : lang (lit _) _ |- _ => apply lang_lit in H; subst
    | H : lang (plus digit) _ |- _ => apply lang_plus_class in H
    | H : lang (opt _) _ |- _ => apply lang_tagged in H; destruct H as (? & ? & ->)
    end.
    match goal with
    | HM : _ && all_chars is_digit ?M = true,
      Hm : _ && all_chars is_digit ?m = true,
      Hp : _ && all_chars is_digit ?p = true,
      Hpre : SemVer.optional _ ?pre = true,
      Hb : SemVer.optional _ ?b = true
      |- context [?M ++ "." ++ ?m ++ "." ++ ?p ++ SemVer.tagged "-" ?pre ++ SemVer.tagged "+" ?b] =>
        exists (SemVer.mkVersion false M m p pre b);
        unfold SemVer.well_formed, SemVer.digits, all_digits; simpl;
        rewrite HM, Hm, Hp, Hpre, Hb
    end.
    repeat split.
    unfold SemVer.render, SemVer.core, SemVer.suffix. simpl.
    now norm_app.
  - intros (v & Hwf & Hlead & ->).
    unfold SemVer.well_formed in Hwf.
    repeat match goal with
    | H : _ && _ = true |- _ => apply andb_prop in H as [? ?]
    end.
    unfold SemVer.render, SemVer.core, SemVer.suffix. rewrite Hlead. simpl.
    norm_app.
    constructor; [now apply lang_plus_class |].
    apply (lang_cat _ _ "."); [now apply lang_lit |].
    constructor; [now apply lang_plus_class |].
    apply (lang_cat _ _ "."); [now apply lang_lit |].
    constructor; [now apply lang_plus_class |].
    constructor; apply lang_tagged; eauto.
Qed.

End RegexFacts.

(* ===================================================================== *)
(** * How [VersionUtils] reads an accepted version *)
(* ===================================================================== *)

Module VersionFacts.
Import JS SemVer VersionUtils StringFacts.

Lemma well_formed_inv v :
  well_formed v = true ->
  digits (major v) = true /\ digits (minor v) = true /\ digits (patch v) = true
  /\ optional identifier (prerelease v) = true
  /\ optional identifier (build v) = true.
Proof.
  unfold well_formed. intros H.
  repeat match goal with
  | H : _ && _ = true |- _ => apply andb_prop in H as [? ?]
  end.
  auto.
Qed.

Lemma digits_inv s : digits s = true ->
  exists c rest, s = String c rest /\ is_digit c = true /\ all_digits s = true.
Proof.
  unfold digits, all_digits. destruct s as [| c rest]; simpl; [discriminate |].
  intros H. apply andb_prop in H as [Hc Hr].
  exists c, rest. now rewrite Hc, Hr.
Qed.

Lemma digits_absent sep s :
  is_digit sep = false -> digits s = true -> absent sep s = true.
Proof.
  intros Hsep H. apply andb_prop in H as [_ H].
  now apply (all_chars_absent is_digit).
Qed.

(** One leading [v] goes, and nothing else: the major number does not start
    with [v]. *)
Lemma strip_v_render v :
  well_formed v = true -> strip_v (render v) = core v ++ suffix v.
Proof.
  intros H. apply well_formed_inv in H as (HM & _).
  apply digits_inv in HM as (c & rest & E & Hc & _).
  unfold render, core. rewrite E.
  destruct (lead_v v); simpl; [reflexivity |].
  destruct c as [[] [] [] [] [] [] [] []]; try reflexivity; discriminate.
Qed.

Lemma core_no_dash v : well_formed v = true -> absent "-" (core v) = true.
Proof.
  intros H. apply well_formed_inv in H as (HM & Hm & Hp & _).
  unfold core. rewrite !absent_app.
  rewrite (digits_absent "-" (major v)), (digits_absent "-" (minor v)),
    (digits_absent "-" (patch v)) by (reflexivity || assumption).
  reflexivity.
Qed.

Lemma split_core v :
  well_formed v = true -> split "." (core v) = [major v; minor v; patch v].
Proof.
  intros H. apply well_formed_inv in H as (HM & Hm & Hp & _).
  unfold core. cbn [append].
  rewrite split_at by now apply digits_absent.
  rewrite split_at by now apply digits_absent.
  rewrite split_whole by now apply digits_absent.
  reflexivity.
Qed.

(** Unless build metadata follows the triple directly, the first [-] of an
    accepted version is the one that starts the pre-release. *)
Lemma first_split_suffix v :
  bare_build v = false -> first (split "-" (suffix v)) = "".
Proof.
  unfold bare_build, suffix.
  destruct (prerelease v), (build v); simpl; (discriminate || reflexivity).
Qed.

Lemma first_split_marked sep mark rest :
  Ascii.eqb mark sep = false ->
  exists piece, first (split sep (String mark rest)) = String mark piece.
Proof.
  intros H. cbn [split]. rewrite H.
  destruct (split sep rest) as [| piece pieces]; cbn; eauto.
Qed.

(** How the three methods read an accepted version: each number as the
    nearest double. *)
Lemma parts_render v :
  well_formed v = true -> bare_build v = false ->
  parts (render v) =
    [to_double (digits_value 0 (major v)); to_double (digits_value 0 (minor v));
     to_double (digits_value 0 (patch v))].
Proof.
  intros Hwf Hb. unfold parts.
  rewrite (strip_v_render _ Hwf).
  rewrite (split_app _ _ _ (core_no_dash _ Hwf)).
  cbn [first hd]. rewrite (first_split_suffix _ Hb), app_nil_r.
  rewrite (split_core _ Hwf).
  apply well_formed_inv in Hwf as (HM & Hm & Hp & _).
  cbn [map]. now rewrite !Number_digits.
Qed.

(** With build metadata directly after the triple, the major and the minor
    are read as they are and the patch as [NaN]. *)
Lemma parts_render_bare v :
  well_formed v = true -> bare_build v = true ->
  exists rest,
    parts (render v)
    = to_double (digits_value 0 (major v))
      :: to_double (digits_value 0 (minor v)) :: NaN :: rest.
Proof.
  intros Hwf Hb. unfold parts.
  rewrite (strip_v_render _ Hwf).
  rewrite (split_app _ _ _ (core_no_dash _ Hwf)). cbn [first hd].
  assert (Hsuffix : exists b, suffix v = String "+" b).
  { unfold bare_build in Hb. unfold suffix.
    destruct (prerelease v), (build v); try discriminate Hb. cbn. eauto. }
  destruct Hsuffix as (b & ->).
  destruct (first_split_marked "-" "+" b eq_refl) as (b0 & ->).
  pose proof (well_formed_inv v Hwf) as (HM & Hm & Hp & _).
  unfold core. norm_app.
  rewrite split_at by now apply digits_absent.
  rewrite split_at by now apply digits_absent.
  rewrite split_app by now apply digits_absent.
  destruct (first_split_marked "." "+" b0 eq_refl) as (b1 & ->).
  cbn [map]. rewrite !Number_digits by assumption.
  rewrite (Number_marked _ b1 Hp). eauto.
Qed.

Lemma parts_render_any v :
  well_formed v = true ->
  exists third rest,
    parts (render v)
    = to_double (digits_value 0 (major v))
      :: to_double (digits_value 0 (minor v)) :: third :: rest
    /\ (bare_build v = false ->
        third = to_double (digits_value 0 (patch v)) /\ rest = [])
    /\ (bare_build v = true -> third = NaN).
Proof.
  intros Hwf. destruct (bare_build v) eqn:Hb.
  - destruct (parts_render_bare v Hwf Hb) as (rest & ->).
    do 2 eexists. split; [reflexivity |]. split; [discriminate | reflexivity].
  - rewrite (parts_render v Hwf Hb).
    do 2 eexists. split; [reflexivity |]. split; [now split | discriminate].
Qed.

(** The validator accepts exactly the rendered well-formed versions. *)
Lemma isValidSemver_grammar s :
  isValidSemver s = true <-> numeric_triple_grammar (strip_v s).
Proof.
  unfold isValidSemver.
  rewrite RegexFacts.test_lang. apply RegexFacts.lang_semverRegex.
Qed.

Lemma isValidSemver_render v : well_formed v = true -> isValidSemver (render v) = true.
Proof.
  intros H. apply isValidSemver_grammar.
  rewrite (strip_v_render _ H).
  exists (mkVersion false (major v) (minor v) (patch v) (prerelease v) (build v)).
  repeat split. exact H.
Qed.

Lemma isValidSemver_inv s :
  isValidSemver s = true -> exists v, well_formed v = true /\ s = render v.
Proof.
  intros H. apply isValidSemver_grammar in H as (v & Hwf & Hlead & E).
  destruct v as [l M m p pre b]. simpl in Hlead. subst l.
  destruct s as [| c rest].
  - exists (mkVersion false M m p pre b). split; [exact Hwf | exact E].
  - destruct (Ascii.eqb_spec c "v") as [-> | Hc].
    + exists (mkVersion true M m p pre b). split; [exact Hwf |].
      simpl in E. rewrite E. reflexivity.
    + exists (mkVersion false M m p pre b). split; [exact Hwf |].
      rewrite <- E. simpl.
      destruct c as [[] [] [] [] [] [] [] []]; try reflexivity.
      now elim Hc.
Qed.

Lemma of_numbers_well_formed l M m p pre b :
  optional identifier pre = true -> optional identifier b = true ->
  well_formed (of_numbers l M m p pre b) = true.
Proof.
  intros Hpre Hb. unfold well_formed, of_numbers. simpl.
  now rewrite !decimal_digits, Hpre, Hb.
Qed.

Lemma triple_nonneg v : well_formed v = true ->
  0 <= digits_value 0 (major v) /\ 0 <= digits_value 0 (minor v)
  /\ 0 <= digits_value 0 (patch v).
Proof.
  intros H. apply well_formed_inv in H as (HM & Hm & Hp & _).
  apply andb_prop in HM as [_ HM], Hm as [_ Hm], Hp as [_ Hp].
  repeat split; apply digits_value_nonneg; (assumption || lia).
Qed.

(** The numbers of an exact and of a safe version. *)
Lemma exact_inv v : well_formed v = true -> exact v = true ->
  0 <= digits_value 0 (major v) <= two53
  /\ 0 <= digits_value 0 (minor v) <= two53
  /\ 0 <= digits_value 0 (patch v) <= two53.
Proof.
  intros Hwf H. destruct (triple_nonneg v Hwf) as (HM & Hm & Hp).
  unfold exact, triple in H.
  apply andb_prop in H as [H H3]. apply andb_prop in H as [H1 H2].
  apply Z.leb_le in H1, H2, H3. lia.
Qed.

Lemma safe_inv v : well_formed v = true -> safe v = true ->
  0 <= digits_value 0 (major v) <= MAX_SAFE_INTEGER
  /\ 0 <= digits_value 0 (minor v) <= MAX_SAFE_INTEGER
  /\ 0 <= digits_value 0 (patch v) <= MAX_SAFE_INTEGER.
Proof.
  intros Hwf H. destruct (triple_nonneg v Hwf) as (HM & Hm & Hp).
  unfold safe, triple in H.
  apply andb_prop in H as [H H3]. apply andb_prop in H as [H1 H2].
  apply Z.leb_le in H1, H2, H3. lia.
Qed.

Lemma safe_exact v : safe v = true -> exact v = true.
Proof.
  unfold safe, exact. destruct (triple v) as [[M m] p]. intros H.
  apply andb_prop in H as [H H3]. apply andb_prop in H as [H1 H2].
  apply Z.leb_le in H1, H2, H3.
  assert (H53 : two53 = MAX_SAFE_INTEGER + 1) by reflexivity.
  repeat (apply andb_true_intro; split); apply Z.leb_le; lia.
Qed.

(** An exact version is read exactly. *)
Lemma parts_exact v :
  well_formed v = true -> exact v = true ->
  exists third rest,
    parts (render v)
    = Num (digits_value 0 (major v)) :: Num (digits_value 0 (minor v))
      :: third :: rest
    /\ (bare_build v = false ->
        third = Num (digits_value 0 (patch v)) /\ rest = [])
    /\ (bare_build v = true -> third = NaN).
Proof.
  intros Hwf Hs. destruct (exact_inv v Hwf Hs) as (HM & Hm & Hp).
  destruct (parts_render_any v Hwf) as (third & rest & E & Hplain & Hbare).
  exists third, rest. rewrite E, !to_double_exact by lia.
  split; [reflexivity |]. split; [| exact Hbare].
  intros Hb. destruct (Hplain Hb) as [-> ->].
  now rewrite to_double_exact by lia.
Qed.

Lemma parts_safe v :
  well_formed v = true -> safe v = true ->
  exists third rest,
    parts (render v)
    = Num (digits_value 0 (major v)) :: Num (digits_value 0 (minor v))
      :: third :: rest
    /\ (bare_build v = false ->
        third = Num (digits_value 0 (patch v)) /\ rest = [])
    /\ (bare_build v = true -> third = NaN).
Proof. intros Hwf Hs. now apply parts_exact, safe_exact. Qed.

Lemma parts_render_exact v :
  well_formed v = true -> exact v = true -> bare_build v = false ->
  parts (render v) =
    [Num (digits_value 0 (major v)); Num (digits_value 0 (minor v));
     Num (digits_value 0 (patch v))].
Proof.
  intros Hwf Hs Hb.
  destruct (parts_exact v Hwf Hs) as (third & rest & E & Hplain & _).
  destruct (Hplain Hb) as [-> ->]. exact E.
Qed.

Lemma parts_render_safe v :
  well_formed v = true -> safe v = true -> bare_build v = false ->
  parts (render v) =
    [Num (digits_value 0 (major v)); Num (digits_value 0 (minor v));
     Num (digits_value 0 (patch v))].
Proof. intros Hwf Hs. now apply parts_render_exact, safe_exact. Qed.

Lemma parts_plain M m p :
  0 <= M <= two53 -> 0 <= m <= two53 -> 0 <= p <= two53 ->
  parts (plain M m p) = [Num M; Num m; Num p].
Proof.
  intros HM Hm Hp. unfold plain.
  rewrite parts_render; [| now apply of_numbers_well_formed | reflexivity].
  simpl. rewrite !decimal_value, !Z2N.id by lia.
  now rewrite !to_double_exact by lia.
Qed.

(** The loop of [compareSemver] on two arrays of three numbers. *)
Lemma compare_loop_lex a1 a2 a3 b1 b2 b3 :
  compare_loop [Num a1; Num a2; Num a3] [Num b1; Num b2; Num b3] [0; 1; 2]%nat
  = lex_compare (a1, a2, a3) (b1, b2, b3).
Proof.
  unfold lex_compare. cbn [compare_loop index nth_error gt lt less to_number].
  destruct (Z.compare_spec a1 b1);
  destruct (Z.compare_spec a2 b2);
  destruct (Z.compare_spec a3 b3);
  repeat match goal with
  | |- context [?x <? ?y] => destruct (Z.ltb_spec x y); try lia
  end; reflexivity.
Qed.

End VersionFacts.
(* ===================================================================== *)
(** * Doubles: rounding, successors, printing and reading back *)
(* ===================================================================== *)

Module NumberFacts.
Import JS StringFacts SemVer.

(** ** Rounding *)

Lemma nearest_even_spec a e :
  0 <= a -> 1 <= e ->
  let q := a / 2 ^ e in
  let rest := a mod 2 ^ e in
  nearest_even a e
  = (if (2 ^ (e - 1) <? rest) || ((2 ^ (e - 1) =? rest) && Z.odd q)
     then q + 1 else q) * 2 ^ e.
Proof.
  intros Ha He q rest. unfold nearest_even.
  rewrite Z.shiftr_div_pow2, !Z.shiftl_mul_pow2 by lia.
  fold q. rewrite Z.mul_1_l.
  replace (a - q * 2 ^ e) with rest; [reflexivity |].
  subst q rest. rewrite Z.mod_eq by lia. lia.
Qed.

(** A multiple of 2^e is rounded to itself. *)
Lemma nearest_even_multiple q e :
  0 <= q -> 1 <= e -> nearest_even (q * 2 ^ e) e = q * 2 ^ e.
Proof.
  intros Hq He.
  assert (Hpow : 0 < 2 ^ e) by (apply Z.pow_pos_nonneg; lia).
  assert (Hhalf : 0 < 2 ^ (e - 1)) by (apply Z.pow_pos_nonneg; lia).
  rewrite nearest_even_spec by nia. cbv zeta.
  rewrite Z.mod_mul, Z.div_mul by lia.
  destruct (Z.ltb_spec (2 ^ (e - 1)) 0); [lia |].
  destruct (Z.eqb_spec (2 ^ (e - 1)) 0); [lia |]. reflexivity.
Qed.

Lemma two53_pow : two53 = 2 ^ 53.
Proof. reflexivity. Qed.

(** Fifty-three bits followed by zeros make a double. *)
Lemma to_double_multiple q e :
  2 ^ 52 <= q < 2 ^ 53 -> 1 <= e -> q * 2 ^ e < 2 ^ 1024 ->
  to_double (q * 2 ^ e) = Num (q * 2 ^ e).
Proof.
  intros Hq He Hmax.
  assert (Hpow : 2 <= 2 ^ e).
  { change 2 with (2 ^ 1) at 1. apply Z.pow_le_mono_r; lia. }
  unfold to_double. rewrite Z.abs_eq by nia.
  destruct (Z.leb_spec (q * 2 ^ e) two53); [reflexivity |].
  assert (Hlog : Z.log2 (q * 2 ^ e) = 52 + e).
  { apply Z.log2_unique; [lia |].
    rewrite Z.pow_succ_r, !Z.pow_add_r by lia. nia. }
  rewrite Hlog. replace (52 + e - 52) with e by lia.
  rewrite nearest_even_multiple by lia.
  rewrite Z.shiftl_mul_pow2, Z.mul_1_l by lia.
  destruct (Z.leb_spec (2 ^ 1024) (q * 2 ^ e)); [lia |].
  destruct (Z.ltb_spec (q * 2 ^ e) 0); [nia | reflexivity].
Qed.

(** What rounding gives beyond 2^53: the 53 leading bits, or the next such. *)
Lemma to_double_large a :
  two53 < a ->
  let e := Z.log2 a - 52 in
  let q := a / 2 ^ e in
  1 <= e /\ 2 ^ 52 <= q < 2 ^ 53 /\ q * 2 ^ e <= a < (q + 1) * 2 ^ e
  /\ exists q', (q' = q \/ q' = q + 1)
       /\ (a mod 2 ^ e = 0 -> q' = q)
       /\ (a mod 2 ^ e = 1 -> 2 <= e -> q' = q)
       /\ to_double a = if 2 ^ 1024 <=? q' * 2 ^ e then Inf false
                        else Num (q' * 2 ^ e).
Proof.
  intros Ha e q. rewrite two53_pow in Ha.
  assert (H0 : 0 < a) by lia.
  pose proof (Z.log2_spec a H0) as Hlog.
  assert (Hl : 53 <= Z.log2 a).
  { apply Z.log2_le_pow2; lia. }
  assert (He : 1 <= e) by (subst e; lia).
  assert (Hpow : 0 < 2 ^ e) by (apply Z.pow_pos_nonneg; lia).
  assert (E1 : 2 ^ Z.log2 a = 2 ^ 52 * 2 ^ e).
  { rewrite <- Z.pow_add_r by lia. f_equal. subst e. lia. }
  assert (E2 : 2 ^ Z.succ (Z.log2 a) = 2 ^ 53 * 2 ^ e).
  { rewrite <- Z.pow_add_r by lia. f_equal. subst e. lia. }
  rewrite E1, E2 in Hlog.
  pose proof (Z.div_mod a (2 ^ e) ltac:(lia)) as Hdm.
  pose proof (Z.mod_pos_bound a (2 ^ e) Hpow) as Hmod.
  fold q in Hdm.
  assert (Hq : 2 ^ 52 <= q < 2 ^ 53) by nia.
  split; [exact He |]. split; [exact Hq |]. split; [nia |].
  assert (Hhalf : 0 < 2 ^ (e - 1)) by (apply Z.pow_pos_nonneg; lia).
  exists (if (2 ^ (e - 1) <? a mod 2 ^ e)
             || ((2 ^ (e - 1) =? a mod 2 ^ e) && Z.odd q)
          then q + 1 else q).
  split; [destruct (_ || _); auto |].
  split.
  { intros ->. destruct (Z.ltb_spec (2 ^ (e - 1)) 0); [lia |].
    destruct (Z.eqb_spec (2 ^ (e - 1)) 0); [lia | reflexivity]. }
  split.
  { intros -> He2.
    assert (2 <= 2 ^ (e - 1)).
    { change 2 with (2 ^ 1) at 1. apply Z.pow_le_mono_r; lia. }
    destruct (Z.ltb_spec (2 ^ (e - 1)) 1); [lia |].
    destruct (Z.eqb_spec (2 ^ (e - 1)) 1); [lia | reflexivity]. }
  unfold to_double. rewrite Z.abs_eq by lia. rewrite two53_pow.
  destruct (Z.leb_spec a (2 ^ 53)); [lia |].
  fold e. rewrite nearest_even_spec by lia. cbv zeta. fold q.
  rewrite Z.shiftl_mul_pow2, Z.mul_1_l by lia.
  destruct (Z.ltb_spec a 0); [lia | reflexivity].
Qed.

Lemma to_double_infinity z negative :
  0 <= z -> to_double z = Inf negative -> negative = false.
Proof.
  intros Hz. unfold to_double.
  destruct (Z.abs z <=? two53); [discriminate |].
  destruct (Z.shiftl 1 1024 <=? _); [| discriminate].
  intros E. injection E as <-. now apply Z.ltb_ge.
Qed.

(** Rounding gives a double: rounding again changes nothing. *)
Lemma to_double_idempotent z r :
  0 <= z -> to_double z = Num r -> 0 <= r /\ (1 <= z -> 1 <= r) /\ to_double r = Num r.
Proof.
  intros Hz E.
  destruct (Z.leb_spec z two53) as [Hsmall | Hlarge].
  - rewrite to_double_exact in E by lia. injection E as <-.
    split; [lia |]. split; [lia |]. apply to_double_exact. lia.
  - destruct (to_double_large z Hlarge) as (He & Hq & _ & q' & Hq' & _ & _ & E').
    rewrite E' in E.
    destruct (Z.leb_spec (2 ^ 1024) (q' * 2 ^ (Z.log2 z - 52))); [discriminate |].
    injection E as <-.
    assert (Hpow : 0 < 2 ^ (Z.log2 z - 52)) by (apply Z.pow_pos_nonneg; lia).
    split; [nia |]. split; [nia |].
    destruct (Z.eq_dec q' (2 ^ 53)) as [-> | Hne].
    + replace (2 ^ 53 * 2 ^ (Z.log2 z - 52))
        with (2 ^ 52 * 2 ^ (Z.log2 z - 52 + 1)).
      * apply to_double_multiple; [lia | lia |].
        rewrite Z.pow_add_r by lia. lia.
      * rewrite Z.pow_add_r by lia. lia.
    + apply to_double_multiple; lia.
Qed.

(** A double above 2^53 ends in zero bits. *)
Lemma double_multiple a :
  two53 < a -> to_double a = Num a ->
  a mod 2 ^ (Z.log2 a - 52) = 0 /\ a < 2 ^ 1024.
Proof.
  intros Ha E.
  destruct (to_double_large a Ha) as (He & Hq & Hbounds & q' & Hq' & _ & _ & E').
  rewrite E' in E.
  destruct (Z.leb_spec (2 ^ 1024) (q' * 2 ^ (Z.log2 a - 52))); [discriminate |].
  injection E as E.
  assert (Hpow : 0 < 2 ^ (Z.log2 a - 52)) by (apply Z.pow_pos_nonneg; lia).
  split; [| lia].
  set (e := Z.log2 a - 52) in *.
  rewrite <- E. apply Z.mod_mul. lia.
Qed.

(** The successor of a double: itself plus one up to 2^53; beyond, the
    double again, or the next one when the doubles are the even numbers. *)
Lemma add_one_double a :
  0 <= a -> to_double a = Num a ->
  exists a', add (VNum (Num a)) (VNum (Num 1)) = Num a'
    /\ to_double a' = Num a' /\ 1 <= a'
    /\ ((a' = a + 1 /\ a < two53) \/ a' = a \/ (a' = a + 2 /\ a < 2 ^ 54)).
Proof.
  intros Ha E. cbn [add to_number].
  destruct (Z.leb_spec (a + 1) two53) as [Hsmall | Hlarge].
  { exists (a + 1). rewrite !to_double_exact by lia.
    repeat split; [lia | left; split; [reflexivity | lia]]. }
  destruct (Z.eq_dec a two53) as [-> | Hne].
  { exists two53. repeat split; [unfold two53; lia | right; now left]. }
  assert (Hbig : two53 < a) by lia.
  destruct (double_multiple a Hbig E) as (Hmod & Hmax).
  destruct (to_double_large a Hbig) as (He & Hq & Hbounds & _).
  set (e := Z.log2 a - 52) in *. set (q := a / 2 ^ e) in *.
  assert (Hpow : 2 <= 2 ^ e).
  { change 2 with (2 ^ 1) at 1. apply Z.pow_le_mono_r; lia. }
  assert (Ea : a = q * 2 ^ e).
  { pose proof (Z.div_mod a (2 ^ e) ltac:(lia)). fold q in H. lia. }
  assert (Hlog : Z.log2 (a + 1) = Z.log2 a).
  { apply Z.log2_unique; [apply Z.log2_nonneg |].
    pose proof (Z.log2_spec a ltac:(lia)) as Hl.
    split; [lia |].
    assert (E2 : 2 ^ Z.succ (Z.log2 a) = 2 ^ 53 * 2 ^ e).
    { rewrite <- Z.pow_add_r by lia. f_equal. subst e. lia. }
    rewrite E2. nia. }
  destruct (to_double_large (a + 1) ltac:(lia))
    as (_ & _ & _ & q' & Hq' & _ & Hone & E').
  rewrite Hlog in *. fold e in Hone, E', Hq'.
  assert (Hdiv : (a + 1) / 2 ^ e = q).
  { symmetry. apply Z.div_unique with (r := 1); lia. }
  assert (Hrem : (a + 1) mod 2 ^ e = 1).
  { symmetry. apply Z.mod_unique with (q := q); lia. }
  rewrite Hdiv in *.
  destruct (Z.eq_dec e 1) as [He1 | He1].
  - (* the doubles are the even numbers: below 2^54 *)
    assert (Ha54 : a < 2 ^ 54).
    { rewrite Ea, He1. change (2 ^ 1) with 2. lia. }
    destruct Hq' as [-> | ->].
    + rewrite <- Ea in E'.
      destruct (Z.leb_spec (2 ^ 1024) a); [lia |].
      exists a. rewrite E'. repeat split; [assumption | lia | right; now left].
    + assert (Enext : (q + 1) * 2 ^ e = a + 2).
      { rewrite He1 in *. change (2 ^ 1) with 2 in *. lia. }
      rewrite Enext in E'.
      destruct (Z.leb_spec (2 ^ 1024) (a + 2)); [lia |].
      destruct (to_double_idempotent (a + 1) (a + 2) ltac:(lia) E')
        as (_ & _ & Hidem).
      exists (a + 2). rewrite E'.
      repeat split; [exact Hidem | lia | right; right; split; [reflexivity | exact Ha54]].
  - rewrite (Hone Hrem ltac:(lia)) in E'. rewrite <- Ea in E'.
    destruct (Z.leb_spec (2 ^ 1024) a); [lia |].
    exists a. rewrite E'. repeat split; [assumption | lia | right; now left].
Qed.

(** ** Printing and reading back *)

Lemma zeros_digits j : all_digits (zeros j) = true.
Proof. induction j as [| j IH]; [reflexivity | exact IH]. Qed.

Lemma digits_value_zeros j : forall acc,
  digits_value acc (zeros j) = acc * 10 ^ Z.of_nat j.
Proof.
  induction j as [| j IH]; intros acc; cbn [zeros digits_value].
  - rewrite Z.pow_0_r. lia.
  - rewrite IH, Nat2Z.inj_succ, Z.pow_succ_r by lia.
    change (digit_val "0") with 0. lia.
Qed.

(** A number below 10^j is printed with at most j digits. *)
Lemma decimal_acc_length fuel : forall n acc j,
  (n < 10 ^ N.of_nat (S j))%N ->
  (String.length (decimal_acc fuel n acc) <= String.length acc + S j)%nat.
Proof.
  induction fuel as [| fuel IH]; intros n acc j Hn; cbn [decimal_acc].
  - cbn [String.length]. lia.
  - destruct (N.eqb_spec (n / 10) 0) as [E | E]; [cbn [String.length]; lia |].
    destruct j as [| j].
    + exfalso. apply E. apply N.div_small. exact Hn.
    + eapply Nat.le_trans; [apply (IH (n / 10)%N _ j) |].
      * rewrite Nat2N.inj_succ, N.pow_succ_r' in Hn.
        apply N.Div0.div_lt_upper_bound. exact Hn.
      * cbn [String.length]. lia.
Qed.

Lemma decimal_length n j :
  (n < 10 ^ N.of_nat (S j))%N -> (String.length (decimal n) <= S j)%nat.
Proof. intros H. apply (decimal_acc_length _ n "" j H). Qed.

Lemma decimal_nonempty n : (1 <= String.length (decimal n))%nat.
Proof.
  pose proof (decimal_digits n) as H. unfold SemVer.digits in H.
  destruct (decimal n); [discriminate | cbn; lia].
Qed.

Lemma reads_as_spec m c : reads_as m c = true <-> to_double c = Num m.
Proof.
  unfold reads_as. destruct (to_double c) as [| r |]; split; try discriminate.
  - intros H. apply Z.eqb_eq in H. now subst.
  - intros H. injection H as ->. apply Z.eqb_refl.
Qed.

Lemma candidate_reads m n k s :
  0 <= m -> k <= n -> candidate m n k = Some s ->
  0 <= s /\ reads_as m (s * 10 ^ (n - k)) = true.
Proof.
  intros Hm Hk. unfold candidate.
  assert (Hscale : 0 < 10 ^ (n - k)) by (apply Z.pow_pos_nonneg; lia).
  assert (Hlo : 0 <= m / 10 ^ (n - k)) by (apply Z.div_pos; lia).
  destruct (reads_as m (m / 10 ^ (n - k) * 10 ^ (n - k))) eqn:Rlo;
  destruct (reads_as m ((m / 10 ^ (n - k) + 1) * 10 ^ (n - k))) eqn:Rhi;
    intros E; try discriminate E; injection E as <-.
  - repeat match goal with
    | |- context [if ?b then _ else _] => destruct b
    end; (split; [lia | assumption]).
  - split; [lia | assumption].
  - split; [lia | assumption].
Qed.

Lemma shortest_reads m n fuel : forall k,
  0 <= m -> 1 <= n -> 1 <= k -> reads_as m m = true ->
  let '(s, k') := shortest fuel m n k in
  0 <= s /\ 1 <= k' <= n /\ reads_as m (s * 10 ^ (n - k')) = true.
Proof.
  induction fuel as [| fuel IH]; intros k Hm Hn Hk Hself; cbn [shortest].
  - rewrite Z.sub_diag, Z.pow_0_r, Z.mul_1_r. repeat split; (lia || assumption).
  - destruct (Z.leb_spec n k).
    + rewrite Z.sub_diag, Z.pow_0_r, Z.mul_1_r. repeat split; (lia || assumption).
    + destruct (candidate m n k) as [s |] eqn:E.
      * destruct (candidate_reads m n k s Hm ltac:(lia) E). repeat split; (lia || assumption).
      * apply IH; (lia || assumption).
Qed.

Lemma ten21_double : to_double (10 ^ 21) = Num (10 ^ 21).
Proof. vm_compute. reflexivity. Qed.

(** Below 10^21 a double is printed as a run of digits that reads back as
    the same double. *)
Lemma magnitude_read_back x :
  0 <= x < 10 ^ 21 -> to_double x = Num x ->
  SemVer.digits (magnitude_to_string x) = true
  /\ to_double (digits_value 0 (magnitude_to_string x)) = Num x.
Proof.
  intros Hx E. unfold magnitude_to_string.
  destruct (Z.leb_spec x two53) as [Hsmall | Hlarge].
  { rewrite decimal_digits, decimal_value, Z2N.id by lia. now split. }
  set (n := Z.of_nat (String.length (decimal (Z.to_N x)))).
  assert (Hn : 1 <= n <= 21).
  { subst n. pose proof (decimal_nonempty (Z.to_N x)).
    pose proof (decimal_length (Z.to_N x) 20) as Hlen.
    assert ((Z.to_N x < 10 ^ N.of_nat 21)%N).
    { change (10 ^ N.of_nat 21)%N with (Z.to_N (10 ^ 21)). lia. }
    specialize (Hlen ltac:(assumption)). lia. }
  pose proof (shortest_reads x n 17 1 ltac:(lia) ltac:(lia) ltac:(lia)
                (proj2 (reads_as_spec x x) E)) as Hshort.
  destruct (shortest 17 x n 1) as [s k].
  destruct Hshort as (Hs & Hk & Hread).
  assert (Hfinal : forall s' k' n',
            0 <= s' -> 1 <= k' <= n' -> n' <= 21 ->
            reads_as x (s' * 10 ^ (n' - k')) = true ->
            SemVer.digits (decimal (Z.to_N s') ++ zeros (Z.to_nat (n' - k'))) = true
            /\ to_double (digits_value 0
                 (decimal (Z.to_N s') ++ zeros (Z.to_nat (n' - k')))) = Num x).
  { intros s' k' n' Hs' Hk' Hn' Hr. split.
    - pose proof (decimal_digits (Z.to_N s')) as Hd.
      unfold SemVer.digits, all_digits in *.
      apply andb_prop in Hd as [Hne Hall].
      rewrite all_chars_app, Hall. fold (all_digits (zeros (Z.to_nat (n' - k')))).
      rewrite zeros_digits.
      destruct (decimal (Z.to_N s')); [discriminate | reflexivity].
    - rewrite digits_value_app, decimal_value, digits_value_zeros.
      rewrite !Z2N.id, Z2Nat.id by lia.
      now apply reads_as_spec. }
  destruct (Z.eqb_spec s (10 ^ k)) as [-> | Hne].
  - assert (Hten : reads_as x (10 ^ n) = true).
    { rewrite <- Z.pow_add_r in Hread by lia.
      now replace (k + (n - k)) with n in Hread by lia. }
    assert (Hn20 : n <= 20).
    { destruct (Z.eq_dec n 21) as [E21 | ]; [| lia].
      rewrite E21 in Hten. apply reads_as_spec in Hten.
      rewrite ten21_double in Hten. injection Hten as <-. lia. }
    destruct (Z.leb_spec (n + 1) 21); [| lia].
    apply Hfinal; try lia.
    replace (n + 1 - 1) with n by lia. now rewrite Z.mul_1_l.
  - destruct (Z.leb_spec n 21); [| lia].
    now apply Hfinal.
Qed.

(** The same for [number_to_string] and [Number]. *)
Lemma number_read_back x :
  0 <= x < 10 ^ 21 -> to_double x = Num x ->
  SemVer.digits (number_to_string (Num x)) = true
  /\ Number (number_to_string (Num x)) = Num x
  /\ to_double (digits_value 0 (number_to_string (Num x))) = Num x.
Proof.
  intros Hx E.
  destruct (magnitude_read_back x Hx E) as [Hd Hv].
  unfold number_to_string. destruct (Z.ltb_spec x 0); [lia |].
  split; [exact Hd |]. split; [| exact Hv].
  now rewrite Number_digits.
Qed.

(** ** The numbers of a version, and their successors *)

Lemma to_double_natural z : 0 <= z -> natural (to_double z).
Proof.
  intros Hz. destruct (to_double z) as [| a | negative] eqn:E; cbn [natural].
  - revert E. unfold to_double.
    destruct (Z.abs z <=? two53); [discriminate |].
    destruct (Z.shiftl 1 1024 <=? _); discriminate.
  - destruct (to_double_idempotent z a Hz E) as (? & _ & ?). now split.
  - exact (to_double_infinity z negative Hz E).
Qed.

Lemma strict_eq_natural x : natural x -> strict_eq (VNum x) (VNum x) = true.
Proof.
  destruct x as [| a | negative]; cbn [natural strict_eq]; [contradiction | |].
  - intros _. apply Z.eqb_refl.
  - intros ->. reflexivity.
Qed.

(** Below 10^21 a double is printed in full. *)
Lemma whole_below x :
  0 <= x < 10 ^ 21 -> to_double x = Num x -> whole (Num x) = true.
Proof.
  intros Hx E.
  destruct (number_read_back x Hx E) as (Hd & _).
  apply andb_prop in Hd as [_ Hd].
  now apply (all_chars_absent is_digit "." _ eq_refl).
Qed.

(** Adding one keeps such a number, never gives zero, and never brings in a
    fraction. *)
Lemma add_one_natural x :
  natural x ->
  natural (add (VNum x) (VNum (Num 1)))
  /\ strict_eq (VNum (Num 0)) (VNum (add (VNum x) (VNum (Num 1)))) = false
  /\ (whole x = true -> whole (add (VNum x) (VNum (Num 1))) = true).
Proof.
  destruct x as [| a | negative]; cbn [natural]; [contradiction | |].
  - intros [Ha Ra].
    destruct (add_one_double a Ha Ra) as (a' & -> & Ra' & Pa & Hcases).
    cbn [natural strict_eq]. split; [split; [lia | exact Ra'] |].
    split; [apply Z.eqb_neq; lia |].
    intros Hw.
    destruct Hcases as [[-> Hlt] | [-> | [-> Hlt]]]; [| exact Hw |];
      apply whole_below; try assumption;
      unfold two53 in *; change (2 ^ 54) with 18014398509481984 in *;
      change (10 ^ 21) with 1000000000000000000000; lia.
  - intros ->. cbn. repeat split; auto.
Qed.

Lemma decimal_all_digits n : all_digits (decimal n) = true.
Proof. pose proof (decimal_digits n) as H. now apply andb_prop in H as [_ H]. Qed.

Lemma some_digits_decimal n : some_digits (decimal n) = true.
Proof.
  pose proof (decimal_digits n) as H. apply andb_prop in H as [Hne H].
  destruct (decimal n); [discriminate Hne | exact H].
Qed.

Lemma digits_no_dash s : all_digits s = true -> absent "-" s = true.
Proof. now apply (all_chars_absent is_digit "-" s eq_refl). Qed.

(** What is printed for a double that is a natural number reads back as the
    same double, unless it is printed with a fraction; there is no [-] in
    it. *)
Lemma magnitude_printed a :
  0 <= a -> to_double a = Num a ->
  absent "." (magnitude_to_string a) = true ->
  absent "-" (magnitude_to_string a) = true
  /\ Number (magnitude_to_string a) = Num a.
Proof.
  intros Ha E. unfold magnitude_to_string.
  destruct (Z.leb_spec a two53) as [Hsmall | Hlarge].
  { intros _. split; [apply digits_no_dash, decimal_all_digits |].
    now rewrite Number_decimal, Z2N.id by lia. }
  set (n := Z.of_nat (String.length (decimal (Z.to_N a)))).
  assert (Hn : 1 <= n).
  { subst n. pose proof (decimal_nonempty (Z.to_N a)). lia. }
  pose proof (shortest_reads a n 17 1 ltac:(lia) ltac:(lia) ltac:(lia)
                (proj2 (reads_as_spec a a) E)) as Hshort.
  destruct (shortest 17 a n 1) as [s k].
  destruct Hshort as (Hs & Hk & Hread).
  assert (Hform : forall s' k' n',
            0 <= s' -> 1 <= k' <= n' ->
            reads_as a (s' * 10 ^ (n' - k')) = true ->
            let text :=
              if n' <=? 21 then decimal (Z.to_N s') ++ zeros (Z.to_nat (n' - k'))
              else if k' =? 1
                   then decimal (Z.to_N s') ++ "e+" ++ decimal (Z.to_N (n' - 1))
                   else match decimal (Z.to_N s') with
                        | String d more =>
                            String d ("." ++ more ++ "e+" ++ decimal (Z.to_N (n' - 1)))
                        | EmptyString => EmptyString
                        end in
            absent "." text = true ->
            absent "-" text = true /\ Number text = Num a).
  { intros s' k' n' Hs' Hk' Hr text. subst text.
    apply reads_as_spec in Hr.
    destruct (Z.leb_spec n' 21).
    - intros _.
      assert (Hall : all_digits (decimal (Z.to_N s') ++ zeros (Z.to_nat (n' - k'))) = true).
      { unfold all_digits. rewrite all_chars_app.
        fold (all_digits (decimal (Z.to_N s'))).
        fold (all_digits (zeros (Z.to_nat (n' - k')))).
        now rewrite decimal_all_digits, zeros_digits. }
      split; [now apply digits_no_dash |].
      rewrite (Number_all_digits _ Hall).
      rewrite digits_value_app, decimal_value, digits_value_zeros.
      now rewrite !Z2N.id, Z2Nat.id by lia.
    - destruct (Z.eqb_spec k' 1) as [-> | Hk1].
      + intros _. split.
        * rewrite !absent_app.
          rewrite (digits_no_dash _ (decimal_all_digits _)).
          rewrite (digits_no_dash _ (decimal_all_digits _)). reflexivity.
        * unfold Number.
          rewrite (cut_exponent_app _ _ (decimal_all_digits (Z.to_N s'))).
          cbn [append cut_exponent Ascii.eqb Bool.eqb orb fst snd strip_plus].
          rewrite app_nil_r, !some_digits_decimal. cbn [andb].
          rewrite !decimal_value, !Z2N.id by lia.
          match goal with
          | |- context [String.eqb ?text "Infinity"] =>
              destruct (String.eqb_spec text "Infinity") as [Einf | _]; [| exact Hr]
          end.
          exfalso. pose proof (decimal_digits (Z.to_N s')) as Hd.
          apply andb_prop in Hd as [Hne Hd].
          destruct (decimal (Z.to_N s')) as [| c rest]; [discriminate Hne |].
          cbn [append] in Einf. injection Einf as -> _.
          unfold all_digits in Hd. cbn [all_chars] in Hd. discriminate Hd.
      + pose proof (decimal_nonempty (Z.to_N s')) as Hne.
        destruct (decimal (Z.to_N s')) as [| d more]; [cbn in Hne; lia |].
        unfold absent. cbn [all_chars append Ascii.eqb Bool.eqb negb].
        rewrite andb_false_r. discriminate. }
  destruct (Z.eqb_spec s (10 ^ k)) as [-> | Hne].
  - apply Hform; try lia.
    rewrite <- Z.pow_add_r in Hread by lia.
    replace (n + 1 - 1) with n by lia. rewrite Z.mul_1_l.
    now replace (k + (n - k)) with n in Hread by lia.
  - now apply Hform.
Qed.

Lemma printed_natural x :
  natural x -> whole x = true ->
  absent "-" (number_to_string x) = true /\ Number (number_to_string x) = x.
Proof.
  destruct x as [| a | negative]; cbn [natural]; [contradiction | |].
  - intros [Ha Ra]. unfold whole, number_to_string.
    destruct (Z.ltb_spec a 0); [lia |]. now apply magnitude_printed.
  - intros -> _. split; reflexivity.
Qed.

(** ** Agreement with IEEE-754 binary64 *)

Lemma digits2_log2 p : Zpos (digits2_pos p) = Z.log2 (Zpos p) + 1.
Proof.
  assert (H : forall q, digits2_pos q = Pos.size q).
  { induction q as [q IH | q IH |]; cbn; now rewrite ?IH. }
  destruct p as [p | p |]; cbn [digits2_pos Z.log2];
    rewrite ?H, ?Pos2Z.inj_succ; lia.
Qed.

Lemma iter_xO p k : Zpos (Pos.iter xO p k) = Zpos p * 2 ^ Zpos k.
Proof.
  induction k as [| k IH] using Pos.peano_ind.
  - cbn [Pos.iter]. lia.
  - rewrite Pos.iter_succ, Pos2Z.inj_succ, Z.pow_succ_r by lia.
    rewrite Pos2Z.inj_xO, IH. lia.
Qed.

Lemma iter_pos_nat {A} (f : A -> A) n : forall x,
  iter_pos f n x = Nat.iter (Pos.to_nat n) f x.
Proof.
  induction n as [n IH | n IH |]; intros x; cbn [iter_pos].
  - rewrite !IH, Pos2Nat.inj_xI, <- Nat.iter_add, <- Nat.iter_succ_r.
    f_equal. lia.
  - rewrite !IH, Pos2Nat.inj_xO, <- Nat.iter_add. f_equal. lia.
  - reflexivity.
Qed.

Lemma shr_1_spec m r s :
  0 <= m ->
  shr_1 (Build_shr_record m r s) = Build_shr_record (m / 2) (Z.odd m) (r || s).
Proof.
  intros Hm. destruct m as [| [p | p |] | p]; try lia; cbn [shr_1 Z.odd].
  - reflexivity.
  - f_equal. rewrite Pos2Z.inj_xI.
    apply Z.div_unique with (r := 1); lia.
  - f_equal. rewrite Pos2Z.inj_xO.
    apply Z.div_unique with (r := 0); lia.
  - reflexivity.
Qed.

(** Shifting right [k + 1] times keeps the quotient by 2^(k+1), the last
    bit shifted out, and whether a lower bit was set. *)
Lemma shr_iter m k :
  0 <= m ->
  Nat.iter (S k) shr_1 (Build_shr_record m false false)
  = Build_shr_record (m / 2 ^ (Z.of_nat k + 1))
                     (Z.odd (m / 2 ^ Z.of_nat k))
                     (negb (m mod 2 ^ Z.of_nat k =? 0)).
Proof.
  intros Hm. induction k as [| k IH].
  - cbn [Nat.iter]. rewrite shr_1_spec by assumption.
    cbn [Z.of_nat]. rewrite Z.pow_0_r, Z.mod_1_r, Z.div_1_r. reflexivity.
  - rewrite Nat.iter_succ, IH.
    assert (Hpow : 0 < 2 ^ Z.of_nat k) by (apply Z.pow_pos_nonneg; lia).
    rewrite shr_1_spec by (apply Z.div_pos; [lia | apply Z.pow_pos_nonneg; lia]).
    rewrite Nat2Z.inj_succ.
    replace (Z.succ (Z.of_nat k)) with (Z.of_nat k + 1) by lia.
    f_equal.
    + rewrite Z.div_div by lia.
      f_equal. rewrite (Z.pow_add_r 2 (Z.of_nat k + 1) 1) by lia. lia.
    + rewrite (Z.pow_add_r 2 (Z.of_nat k) 1), Z.pow_1_r by lia.
      rewrite Z.rem_mul_r by lia.
      pose proof (Z.mod_pos_bound m (2 ^ Z.of_nat k) Hpow) as Hlow.
      rewrite Zmod_odd.
      destruct (Z.odd (m / 2 ^ Z.of_nat k));
        destruct (Z.eqb_spec (m mod 2 ^ Z.of_nat k) 0) as [E | E]; cbn [negb orb];
        symmetry; try (apply Bool.negb_true_iff; apply Z.eqb_neq; lia);
        apply Bool.negb_false_iff; apply Z.eqb_eq; lia.
Qed.


Lemma fexp_digits x : - 1021 <= x -> fexp 53 1024 x = x - 53.
Proof. intros H. unfold fexp, emin. lia. Qed.

Lemma digits_bounds p :
  2 ^ (Zpos (digits2_pos p) - 1) <= Zpos p < 2 ^ Zpos (digits2_pos p).
Proof.
  rewrite digits2_log2.
  pose proof (Z.log2_spec (Zpos p) ltac:(lia)) as H.
  replace (Z.log2 (Z.pos p) + 1 - 1) with (Z.log2 (Z.pos p)) by lia.
  exact H.
Qed.

(** Nothing is shifted out of a mantissa of 53 bits. *)
Lemma shr_fexp_none m e :
  Zpos (digits2_pos m) = 53 -> - 1074 <= e ->
  shr_fexp 53 1024 (Zpos m) e loc_Exact
  = (Build_shr_record (Zpos m) false false, e).
Proof.
  intros Hd He. unfold shr_fexp. cbn [Zdigits2 shr_record_of_loc].
  rewrite Hd, fexp_digits by lia.
  replace (53 + e - 53 - e) with 0 by lia. reflexivity.
Qed.

(** A longer mantissa loses its last bits. *)
Lemma shr_fexp_shift m e k :
  Zpos (digits2_pos m) = 53 + Z.of_nat (S k) -> 0 <= e ->
  shr_fexp 53 1024 (Zpos m) e loc_Exact
  = (Nat.iter (S k) shr_1 (Build_shr_record (Zpos m) false false),
     e + Z.of_nat (S k)).
Proof.
  intros Hd He. unfold shr_fexp. cbn [Zdigits2 shr_record_of_loc].
  rewrite Hd, fexp_digits by lia.
  replace (53 + Z.of_nat (S k) + e - 53 - e) with (Z.of_nat (S k)) by lia.
  unfold shr. destruct (Z.of_nat (S k)) as [| n | n] eqn:En; try lia.
  rewrite iter_pos_nat. f_equal. f_equal. lia.
Qed.

Lemma binary_round_small negative p :
  Zpos p < 2 ^ 53 ->
  of_binary64 (binary_round 53 1024 negative p 0)
  = Num (if negative then Zneg p else Zpos p).
Proof.
  intros Hp. pose proof (digits_bounds p) as Hd.
  assert (Hdigits : 1 <= Zpos (digits2_pos p) <= 53).
  { split; [lia |].
    destruct (Z.le_gt_cases (Zpos (digits2_pos p)) 53) as [| Hgt]; [assumption |].
    assert (2 ^ 53 <= 2 ^ (Zpos (digits2_pos p) - 1))
      by (apply Z.pow_le_mono_r; lia).
    lia. }
  unfold binary_round. rewrite Z.add_0_r, fexp_digits by lia.
  unfold shl_align.
  destruct (Zpos (digits2_pos p) - 53 - 0) as [| k | k] eqn:Ek; try lia.
  - (* exactly 53 bits *)
    unfold binary_round_aux.
    rewrite shr_fexp_none by lia.
    cbn [shr_m loc_of_shr_record round_nearest_even].
    rewrite shr_fexp_none by lia. cbn [shr_m].
    destruct (Z.leb_spec 0 (1024 - 53)); [| lia].
    cbn [of_binary64]. destruct (Z.leb_spec 0 0); [| lia].
    rewrite Z.pow_0_r, Z.mul_1_r. now destruct negative.
  - (* fewer: the mantissa is shifted to 53 bits *)
    assert (Hmz : Zpos (Pos.iter xO p k) = Zpos p * 2 ^ Zpos k) by apply iter_xO.
    assert (Hpow : 0 < 2 ^ Zpos k) by (apply Z.pow_pos_nonneg; lia).
    assert (Hdz : Zpos (digits2_pos (Pos.iter xO p k)) = 53).
    { rewrite digits2_log2, Hmz, Z.log2_mul_pow2 by lia.
      rewrite digits2_log2 in Ek. lia. }
    unfold binary_round_aux.
    rewrite shr_fexp_none by lia.
    cbn [shr_m loc_of_shr_record round_nearest_even].
    rewrite shr_fexp_none by lia. cbn [shr_m].
    destruct (Z.leb_spec (Zpos (digits2_pos p) - 53) (1024 - 53)); [| lia].
    cbn [of_binary64].
    destruct (Z.leb_spec 0 (Zpos (digits2_pos p) - 53)); [lia |].
    rewrite Hmz.
    replace (- (Zpos (digits2_pos p) - 53)) with (Zpos k) by lia.
    rewrite Z.div_mul by lia. now destruct negative.
Qed.


(** The rounding of the specification, on the bits shifted out. *)
Lemma round_nearest_even_bits p k :
  let q := Zpos p / 2 ^ (Z.of_nat k + 1) in
  let rest := Zpos p mod 2 ^ (Z.of_nat k + 1) in
  round_nearest_even q
    (loc_of_shr_record
       (Build_shr_record q (Z.odd (Zpos p / 2 ^ Z.of_nat k))
                         (negb (Zpos p mod 2 ^ Z.of_nat k =? 0))))
  = if (2 ^ (Z.of_nat k + 1 - 1) <? rest)
       || ((2 ^ (Z.of_nat k + 1 - 1) =? rest) && Z.odd q)
    then q + 1 else q.
Proof.
  intros q rest. subst rest.
  replace (Z.of_nat k + 1 - 1) with (Z.of_nat k) by lia.
  assert (Hpow : 0 < 2 ^ Z.of_nat k) by (apply Z.pow_pos_nonneg; lia).
  rewrite (Z.pow_add_r 2 (Z.of_nat k) 1), Z.pow_1_r by lia.
  rewrite Z.rem_mul_r by lia.
  pose proof (Z.mod_pos_bound (Zpos p) (2 ^ Z.of_nat k) Hpow) as Hlow.
  rewrite Zmod_odd.
  destruct (Z.odd (Zpos p / 2 ^ Z.of_nat k));
    destruct (Z.eqb_spec (Zpos p mod 2 ^ Z.of_nat k) 0) as [E | E];
    cbn [negb loc_of_shr_record round_nearest_even];
    rewrite <- ?Z.negb_odd;
    repeat match goal with
    | |- context [?a <? ?b] => destruct (Z.ltb_spec a b); try lia
    | |- context [?a =? ?b] => destruct (Z.eqb_spec a b); try lia
    end; cbn [orb andb]; try reflexivity;
    destruct (Z.odd q); reflexivity.
Qed.

Lemma binary_round_large negative p :
  2 ^ 53 <= Zpos p ->
  of_binary64 (binary_round 53 1024 negative p 0)
  = let r := nearest_even (Zpos p) (Z.log2 (Zpos p) - 52) in
    if 2 ^ 1024 <=? r then Inf negative
    else Num (if negative then - r else r).
Proof.
  intros Hp. pose proof (digits_bounds p) as Hd.
  pose proof (digits2_log2 p) as Hlog.
  assert (Hdigits : 54 <= Zpos (digits2_pos p)).
  { destruct (Z.le_gt_cases 54 (Zpos (digits2_pos p))) as [| Hlt]; [assumption |].
    assert (2 ^ Zpos (digits2_pos p) <= 2 ^ 53) by (apply Z.pow_le_mono_r; lia).
    lia. }
  set (k := Z.to_nat (Zpos (digits2_pos p) - 54)).
  assert (Hk : Zpos (digits2_pos p) = 53 + Z.of_nat (S k)) by lia.
  assert (He : Z.log2 (Zpos p) - 52 = Z.of_nat k + 1) by lia.
  rewrite He. cbv zeta.
  rewrite nearest_even_spec by lia. cbv zeta.
  rewrite <- round_nearest_even_bits.
  unfold binary_round. rewrite Z.add_0_r, fexp_digits by lia.
  unfold shl_align.
  destruct (Zpos (digits2_pos p) - 53 - 0) as [| sh | sh] eqn:Esh; try lia.
  unfold binary_round_aux.
  rewrite (shr_fexp_shift p 0 k Hk) by lia.
  rewrite shr_iter by lia. cbn [shr_m].
  set (q := Zpos p / 2 ^ (Z.of_nat k + 1)).
  set (q' := round_nearest_even q _).
  assert (Hpow : 0 < 2 ^ (Z.of_nat k + 1)) by (apply Z.pow_pos_nonneg; lia).
  assert (Hq : 2 ^ 52 <= q < 2 ^ 53).
  { subst q. rewrite Hk in Hd.
    replace (53 + Z.of_nat (S k) - 1) with (52 + (Z.of_nat k + 1)) in Hd by lia.
    replace (53 + Z.of_nat (S k)) with (53 + (Z.of_nat k + 1)) in Hd by lia.
    rewrite (Z.pow_add_r 2 52), (Z.pow_add_r 2 53) in Hd by lia.
    change (2 ^ 52) with 4503599627370496 in *.
    change (2 ^ 53) with 9007199254740992 in *.
    split.
    - apply Z.div_le_lower_bound; lia.
    - apply Z.div_lt_upper_bound; lia. }
  assert (Hq' : q' = q \/ q' = q + 1).
  { subst q'. unfold round_nearest_even.
    destruct (loc_of_shr_record _) as [| []]; auto.
    destruct (Z.even q); auto. }
  replace (0 + Z.of_nat (S k)) with (Z.of_nat k + 1) by lia.
  destruct (Z.eq_dec q' (2 ^ 53)) as [Etop | Hne].
  - (* the mantissa has 54 bits: one more shift *)
    assert (Hsecond : shr_fexp 53 1024 q' (Z.of_nat k + 1) loc_Exact
                      = (Build_shr_record 4503599627370496 false false,
                         Z.of_nat k + 1 + 1)).
    { rewrite Etop. change (2 ^ 53) with 9007199254740992.
      unfold shr_fexp. change (Zdigits2 9007199254740992) with 54.
      rewrite fexp_digits by lia.
      replace (54 + (Z.of_nat k + 1) - 53 - (Z.of_nat k + 1)) with 1 by lia.
      reflexivity. }
    rewrite Hsecond, Etop. cbn [shr_m].
    assert (E : 4503599627370496 * 2 ^ (Z.of_nat k + 1 + 1)
                = 2 ^ 53 * 2 ^ (Z.of_nat k + 1)).
    { rewrite (Z.pow_add_r 2 (Z.of_nat k + 1) 1) by lia.
      change (2 ^ 53) with 9007199254740992. lia. }
    destruct (Z.leb_spec (Z.of_nat k + 1 + 1) (1024 - 53)) as [Hfit | Hover].
    + cbn [of_binary64].
      destruct (Z.leb_spec 0 (Z.of_nat k + 1 + 1)); [| lia].
      rewrite E.
      assert (2 ^ 53 * 2 ^ (Z.of_nat k + 1) < 2 ^ 1024).
      { rewrite <- Z.pow_add_r by lia. apply Z.pow_lt_mono_r; lia. }
      destruct (Z.leb_spec (2 ^ 1024) (2 ^ 53 * 2 ^ (Z.of_nat k + 1))); [lia |].
      reflexivity.
    + cbn [of_binary64].
      assert (2 ^ 1024 <= 2 ^ 53 * 2 ^ (Z.of_nat k + 1)).
      { rewrite <- Z.pow_add_r by lia. apply Z.pow_le_mono_r; lia. }
      destruct (Z.leb_spec (2 ^ 1024) (2 ^ 53 * 2 ^ (Z.of_nat k + 1))); [| lia].
      reflexivity.
  - assert (Hq53 : 2 ^ 52 <= q' < 2 ^ 53) by lia.
    destruct q' as [| m | m] eqn:Em; try lia.
    assert (Hdm : Zpos (digits2_pos m) = 53).
    { rewrite digits2_log2.
      assert (Z.log2 (Zpos m) = 52) by (apply Z.log2_unique; [lia | exact Hq53]).
      lia. }
    rewrite shr_fexp_none by lia. cbn [shr_m].
    destruct (Z.leb_spec (Z.of_nat k + 1) (1024 - 53)) as [Hfit | Hover].
    + cbn [of_binary64].
      destruct (Z.leb_spec 0 (Z.of_nat k + 1)); [| lia].
      assert (Zpos m * 2 ^ (Z.of_nat k + 1) < 2 ^ 1024).
      { assert (2 ^ 53 * 2 ^ (Z.of_nat k + 1) <= 2 ^ 1024).
        { rewrite <- Z.pow_add_r by lia. apply Z.pow_le_mono_r; lia. }
        nia. }
      destruct (Z.leb_spec (2 ^ 1024) (Zpos m * 2 ^ (Z.of_nat k + 1))); [lia |].
      reflexivity.
    + cbn [of_binary64].
      assert (2 ^ 1024 <= Zpos m * 2 ^ (Z.of_nat k + 1)).
      { assert (2 ^ 1024 <= 2 ^ 52 * 2 ^ (Z.of_nat k + 1)).
        { rewrite <- Z.pow_add_r by lia. apply Z.pow_le_mono_r; lia. }
        nia. }
      destruct (Z.leb_spec (2 ^ 1024) (Zpos m * 2 ^ (Z.of_nat k + 1))); [| lia].
      reflexivity.
Qed.

(** [to_double] is the rounding of IEEE-754 binary64, round to nearest, ties
    to even, as the Standard Library specifies it ([SpecFloat], with 53 bits
    of precision and infinities at exponent 1024), on every integer. *)
Theorem to_double_binary64 (z : Z) :
  to_double z = of_binary64 (binary_normalize 53 1024 z 0 false).
Proof.
  assert (Hcase : forall (negative : bool) (p : positive),
            to_double (if negative then Zneg p else Zpos p)
            = of_binary64 (binary_round 53 1024 negative p 0)).
  { intros negative p.
    assert (Habs : Z.abs (if negative then Zneg p else Zpos p) = Zpos p)
      by now destruct negative.
    assert (Hsign : ((if negative then Zneg p else Zpos p) <? 0) = negative)
      by now destruct negative.
    destruct (Z.lt_ge_cases (Zpos p) (2 ^ 53)) as [Hsmall | Hlarge].
    - rewrite binary_round_small by assumption.
      apply to_double_exact. rewrite Habs, two53_pow. lia.
    - rewrite binary_round_large by lia. cbv zeta.
      unfold to_double. rewrite Habs, Hsign, two53_pow.
      rewrite Z.shiftl_mul_pow2, Z.mul_1_l by lia.
      destruct (Z.leb_spec (Zpos p) (2 ^ 53)) as [Hle | Hgt]; [| reflexivity].
      assert (E : Zpos p = 9007199254740992)
        by (change (2 ^ 53) with 9007199254740992 in *; lia).
      injection E as ->. now destruct negative. }
  destruct z as [| p | p]; [reflexivity | apply (Hcase false) | apply (Hcase true)].
Qed.

(** Values the engine gives: 2^53 + 1 and 2^53 + 3 are half way between two
    doubles and go to the even one; the largest double is followed by
    infinity; 2^60 has sixteen significant digits; 10^23 is not a double
    and the nearest one is printed [1e+23]. *)
Example to_double_examples :
  to_double 9007199254740993 = Num 9007199254740992
  /\ to_double 9007199254740995 = Num 9007199254740996
  /\ to_double (- 9007199254740993) = Num (- 9007199254740992)
  /\ to_double (2 ^ 1024 - 2 ^ 970 - 1) = Num (2 ^ 1024 - 2 ^ 971)
  /\ to_double (2 ^ 1024 - 2 ^ 970) = Inf false
  /\ add (VNum (Num 9007199254740992)) (VNum (Num 1)) = Num 9007199254740992
  /\ add (VNum (Num 9007199254740994)) (VNum (Num 1)) = Num 9007199254740996.
Proof. evaluate. Qed.

Example number_to_string_examples :
  number_to_string (Num 9007199254740992) = "9007199254740992"
  /\ number_to_string (Num 9007199254740996) = "9007199254740996"
  /\ number_to_string (Num (2 ^ 60)) = "1152921504606847000"
  /\ number_to_string (Num (2 ^ 64)) = "18446744073709552000"
  /\ number_to_string (Num (10 ^ 21 - 131072)) = "999999999999999900000"
  /\ number_to_string (Num (10 ^ 21)) = "1e+21"
  /\ number_to_string (Num (15 * 10 ^ 20)) = "1.5e+21"
  /\ number_to_string (Number "100000000000000000000000") = "1e+23"
  /\ number_to_string (Number "123456789012345678901234567890")
     = "1.2345678901234568e+29"
  /\ number_to_string (Num (2 ^ 1024 - 2 ^ 971)) = "1.7976931348623157e+308"
  /\ number_to_string (Num (- 5)) = "-5"
  /\ number_to_string (Inf false) = "Infinity"
  /\ number_to_string NaN = "NaN".
Proof. evaluate. Qed.

Example Number_examples :
  Number "" = Num 0
  /\ Number "007" = Num 7
  /\ Number "9007199254740993" = Num 9007199254740992
  /\ Number "3+b" = NaN
  /\ Number "1e+21" = Num (10 ^ 21)
  /\ Number "5e21" = Num (5 * 10 ^ 21)
  /\ Number "e5" = NaN
  /\ Number "NaN" = NaN
  /\ Number "Infinity" = Inf false
  /\ Number "1e400" = Inf false.
Proof. evaluate. Qed.

End NumberFacts.

(* ===================================================================== *)
(** * The version algebra *)
(* ===================================================================== *)

(** The strings [isValidSemver] accepts are the texts [render v] of the
    well-formed versions [v] ([isValidSemver_render], [isValidSemver_inv]);
    the theorems below are stated over these. *)
Module VersionClaims.
Import JS SemVer VersionUtils StringFacts VersionFacts.

(** The values listed with the testable properties of the specification. *)
Example compare_examples :
  compareSemver "1.2.3-beta" "1.2.3" = 0
  /\ compareSemver "2.0.0-beta" "2.0.0" = 0
  /\ compareSemver "v1.10.0" "v1.9.7" = 1
  /\ compareSemver "1.2.3" "v1.3.0-rc.1" = -1.
Proof. evaluate. Qed.

Example isNextVersion_examples :
  isNextVersion "v1.2.3" "v1.2.4" = Some "patch"
  /\ isNextVersion "v1.2.3" "v1.3.0" = Some "minor"
  /\ isNextVersion "v1.2.3" "v2.0.0" = Some "major"
  /\ isNextVersion "v1.2.3" "v1.2.3" = None
  /\ isNextVersion "v1.2.3" "v1.4.0" = None.
Proof. evaluate. Qed.

Example getNextVersion_examples :
  getNextVersion "v1.4.9" "minor" = "v1.5.0"
  /\ getNextVersion "v1.4.9" "major" = "v2.0.0"
  /\ getNextVersion "v1.4.9-beta.2" "patch" = "v1.4.10".
Proof. evaluate. Qed.

(** The loop, when the majors or the minors differ: the third numbers are
    not looked at. *)
Lemma compare_loop_decided a1 a2 a3 b1 b2 b3 ta tb ra rb :
  (a1, a2) <> (b1, b2) ->
  compare_loop (Num a1 :: Num a2 :: ta :: ra) (Num b1 :: Num b2 :: tb :: rb)
               [0; 1; 2]%nat
  = lex_compare (a1, a2, a3) (b1, b2, b3).
Proof.
  intros Hne. unfold lex_compare.
  cbn [compare_loop index nth_error gt lt less to_number].
  destruct (Z.compare_spec a1 b1);
  destruct (Z.compare_spec a2 b2);
  repeat match goal with
  | |- context [?x <? ?y] => destruct (Z.ltb_spec x y); try lia
  end; try reflexivity.
  subst. now elim Hne.
Qed.

(** C1, as amended.  For two versions the validator accepts whose numbers
    are at most 2^53, [compareSemver] returns the lexicographic comparison
    (-1, 0 or 1) of their (major, minor, patch) triples, whatever their
    suffixes, as soon as the two differ in the major or the minor, or
    neither has build metadata directly after its triple. *)
Theorem compareSemver_lexicographic (a b : Version) :
  well_formed a = true -> well_formed b = true ->
  exact a = true -> exact b = true ->
  (bare_build a = false /\ bare_build b = false)
  \/ fst (triple a) <> fst (triple b) ->
  isValidSemver (render a) = true /\ isValidSemver (render b) = true
  /\ compareSemver (render a) (render b) = lex_compare (triple a) (triple b).
Proof.
  intros Ha Hb Sa Sb Hcase.
  split; [now apply isValidSemver_render |].
  split; [now apply isValidSemver_render |].
  change (compare_loop (parts (render a)) (parts (render b)) [0; 1; 2]%nat
          = lex_compare (triple a) (triple b)).
  destruct Hcase as [[Na Nb] | Hne].
  - rewrite (parts_render_exact a Ha Sa Na), (parts_render_exact b Hb Sb Nb).
    apply compare_loop_lex.
  - destruct (parts_exact a Ha Sa) as (ta & ra & -> & _).
    destruct (parts_exact b Hb Sb) as (tb & rb & -> & _).
    now apply compare_loop_decided.
Qed.

(** ["1.2.3-beta"] compares equal to ["1.2.3"], and ["1.3.0+b"] is greater
    than ["1.2.9007199254740992"]. *)
Lemma compareSemver_lexicographic_witness :
  (well_formed (mkVersion false "1" "2" "3" (Some "beta") None) = true
   /\ well_formed (mkVersion false "1" "2" "3" None None) = true
   /\ well_formed (mkVersion false "1" "3" "0" None (Some "b")) = true
   /\ well_formed (mkVersion false "1" "2" "9007199254740992" None None) = true
   /\ exact (mkVersion false "1" "2" "9007199254740992" None None) = true)
  /\ (isValidSemver "1.2.3-beta" = true /\ isValidSemver "1.2.3" = true
      /\ compareSemver "1.2.3-beta" "1.2.3" = 0)
  /\ compareSemver "1.3.0+b" "1.2.9007199254740992" = 1.
Proof.
  split; [repeat split |].
  split.
  - exact (compareSemver_lexicographic
             (mkVersion false "1" "2" "3" (Some "beta") None)
             (mkVersion false "1" "2" "3" None None)
             eq_refl eq_refl eq_refl eq_refl (or_introl (conj eq_refl eq_refl))).
  - refine (proj2 (proj2 (compareSemver_lexicographic
             (mkVersion false "1" "3" "0" None (Some "b"))
             (mkVersion false "1" "2" "9007199254740992" None None)
             eq_refl eq_refl eq_refl eq_refl (or_intror _)))).
    vm_compute. discriminate.
Defined.

(** C1 as stated fails, twice.  ["1.2.3+b"] and ["1.2.4"] are both accepted,
    their triples (1,2,3) and (1,2,4) differ in the patch, and
    [compareSemver] returns 0: the patch of the first is read as [NaN].
    ["1.2.9007199254740993"] and ["1.2.9007199254740992"] are both accepted,
    the first triple is the greater, and [compareSemver] returns 0: both
    patch numbers are read as the double 2^53. *)
Lemma compareSemver_counterexample :
  (isValidSemver "1.2.3+b" = true /\ isValidSemver "1.2.4" = true
   /\ render (mkVersion false "1" "2" "3" None (Some "b")) = "1.2.3+b"
   /\ render (mkVersion false "1" "2" "4" None None) = "1.2.4"
   /\ lex_compare (triple (mkVersion false "1" "2" "3" None (Some "b")))
                  (triple (mkVersion false "1" "2" "4" None None)) = -1
   /\ compareSemver "1.2.3+b" "1.2.4" = 0
   /\ parts "1.2.3+b" = [Num 1; Num 2; NaN])
  /\ (isValidSemver "1.2.9007199254740993" = true
      /\ isValidSemver "1.2.9007199254740992" = true
      /\ render (mkVersion false "1" "2" "9007199254740993" None None)
         = "1.2.9007199254740993"
      /\ render (mkVersion false "1" "2" "9007199254740992" None None)
         = "1.2.9007199254740992"
      /\ lex_compare
           (triple (mkVersion false "1" "2" "9007199254740993" None None))
           (triple (mkVersion false "1" "2" "9007199254740992" None None)) = 1
      /\ compareSemver "1.2.9007199254740993" "1.2.9007199254740992" = 0
      /\ parts "1.2.9007199254740993" = [Num 1; Num 2; Num 9007199254740992]).
Proof. evaluate. Qed.

(** Adding one to a safe integer is exact. *)
Lemma add_one_safe x :
  0 <= x <= MAX_SAFE_INTEGER -> add (VNum (Num x)) one = Num (x + 1).
Proof.
  intros H. cbn [add to_number one]. apply to_double_exact.
  unfold two53, MAX_SAFE_INTEGER in *. lia.
Qed.

(** C2, as amended.  For two accepted versions, the numbers of the current
    one safe integers (at most 2^53 - 1) and those of the candidate at most
    2^53, what [isNextVersion] returns is right: ["patch"], ["minor"] or
    ["major"] only under the rule of that name, and [false] whenever no rule
    applies.  When the candidate has no build metadata directly after its
    triple, the minor rule and the major rule are recognised whenever they
    apply, and so is the patch rule when the current version has none
    either; [false] is then returned exactly when no rule applies. *)
Theorem isNextVersion_classifies (cur cand : Version) :
  well_formed cur = true -> well_formed cand = true ->
  safe cur = true -> exact cand = true ->
  let r := isNextVersion (render cur) (render cand) in
  let patch_rule := patch_bump (triple cur) (triple cand) in
  let minor_rule := minor_bump (triple cur) (triple cand) in
  let major_rule := major_bump (triple cur) (triple cand) in
  ((r = Some "patch" -> patch_rule) /\ (r = Some "minor" -> minor_rule)
   /\ (r = Some "major" -> major_rule)
   /\ (~ patch_rule /\ ~ minor_rule /\ ~ major_rule -> r = None)
   /\ In r [Some "patch"; Some "minor"; Some "major"; None])
  /\ (bare_build cand = false ->
      (minor_rule -> r = Some "minor") /\ (major_rule -> r = Some "major")
      /\ (bare_build cur = false ->
          (patch_rule -> r = Some "patch")
          /\ (r = None -> ~ patch_rule /\ ~ minor_rule /\ ~ major_rule))).
Proof.
  intros Hc Hn Sc Sn r patch_rule minor_rule major_rule.
  subst r patch_rule minor_rule major_rule.
  change (isNextVersion (render cur) (render cand))
    with (let currentParts := parts (render cur) in
          let nextParts := parts (render cand) in
          if strict_eq (index nextParts 2) (VNum (add (index currentParts 2) one))
             && strict_eq (index nextParts 1) (index currentParts 1)
             && strict_eq (index nextParts 0) (index currentParts 0)
          then Some "patch"
          else if strict_eq (index nextParts 1) (VNum (add (index currentParts 1) one))
             && strict_eq (index nextParts 2) (VNum (Num 0))
             && strict_eq (index nextParts 0) (index currentParts 0)
          then Some "minor"
          else if strict_eq (index nextParts 0) (VNum (add (index currentParts 0) one))
             && strict_eq (index nextParts 1) (VNum (Num 0))
             && strict_eq (index nextParts 2) (VNum (Num 0))
          then Some "major"
          else None).
  destruct (safe_inv cur Hc Sc) as (HM & Hm & Hp).
  destruct (exact_inv cand Hn Sn) as (HM' & Hm' & Hp').
  destruct (parts_safe cur Hc Sc) as (tc & rc & -> & Hplain & Hbare).
  destruct (parts_exact cand Hn Sn) as (tn & rn & -> & Hplain' & Hbare').
  unfold triple, patch_bump, minor_bump, major_bump.
  cbv zeta. cbn [index nth_error].
  rewrite !add_one_safe by assumption.
  (* the two tests on the third numbers *)
  set (third_next := strict_eq (VNum tn) (VNum (add (VNum tc) one))).
  set (third_zero := strict_eq (VNum tn) (VNum (Num 0))).
  assert (Hnext : third_next = true ->
                  digits_value 0 (patch cand) = digits_value 0 (patch cur) + 1).
  { subst third_next. destruct (bare_build cur).
    - rewrite (Hbare eq_refl). cbn. now destruct tn.
    - destruct (Hplain eq_refl) as [-> _]. rewrite add_one_safe by assumption.
      destruct (bare_build cand).
      + rewrite (Hbare' eq_refl). discriminate.
      + destruct (Hplain' eq_refl) as [-> _]. cbn [strict_eq]. apply Z.eqb_eq. }
  assert (Hzero : third_zero = true -> digits_value 0 (patch cand) = 0).
  { subst third_zero. destruct (bare_build cand).
    - rewrite (Hbare' eq_refl). discriminate.
    - destruct (Hplain' eq_refl) as [-> _]. cbn [strict_eq]. apply Z.eqb_eq. }
  assert (Hzero' : bare_build cand = false ->
                   digits_value 0 (patch cand) = 0 -> third_zero = true).
  { intros Hb E. subst third_zero. destruct (Hplain' Hb) as [-> _].
    cbn [strict_eq]. now apply Z.eqb_eq. }
  assert (Hnext' : bare_build cand = false -> bare_build cur = false ->
                   digits_value 0 (patch cand) = digits_value 0 (patch cur) + 1 ->
                   third_next = true).
  { intros Hb Hb0 E. subst third_next.
    destruct (Hplain' Hb) as [-> _]. destruct (Hplain Hb0) as [-> _].
    rewrite add_one_safe by assumption. cbn [strict_eq]. now apply Z.eqb_eq. }
  clearbody third_next third_zero. clear Hplain Hplain' Hbare Hbare'.
  cbn [strict_eq].
  revert HM Hm Hp HM' Hm' Hp' Hnext Hzero Hzero' Hnext'.
  generalize (digits_value 0 (major cur)) (digits_value 0 (minor cur))
             (digits_value 0 (patch cur)) (digits_value 0 (major cand))
             (digits_value 0 (minor cand)) (digits_value 0 (patch cand))
             (bare_build cur) (bare_build cand).
  intros M m p M' m' p' bc bn HM Hm Hp HM' Hm' Hp' Hnext Hzero Hzero' Hnext'.
  destruct (Z.eqb_spec m' m), (Z.eqb_spec M' M), (Z.eqb_spec m' (m + 1)),
           (Z.eqb_spec M' (M + 1)), (Z.eqb_spec m' 0);
    try lia;
    destruct third_next, third_zero; cbn [andb];
    try (specialize (Hnext eq_refl)); try (specialize (Hzero eq_refl));
    try lia;
    (split; [| intros ->; specialize (Hzero' eq_refl)]);
    repeat match goal with |- _ /\ _ => split end;
    intros; try reflexivity; try discriminate; try lia; try (simpl; tauto);
    try (destruct bc; try discriminate; specialize (Hnext' eq_refl eq_refl));
    repeat match goal with |- _ /\ _ => split end;
    intros; try reflexivity; try discriminate; try lia;
    try (assert (false = true) by (first [apply Hzero' | apply Hnext']; lia);
         discriminate).
Qed.

(** ["v1.2.3"] to ["v1.2.4"] is a patch step, and ["v1.2.3+b"] to ["v1.3.0"]
    a minor step; the theorem at these. *)
Lemma isNextVersion_classifies_witness :
  (well_formed (mkVersion true "1" "2" "3" None None) = true
   /\ well_formed (mkVersion true "1" "2" "4" None None) = true
   /\ well_formed (mkVersion true "1" "2" "3" None (Some "b")) = true
   /\ well_formed (mkVersion true "1" "3" "0" None None) = true)
  /\ isNextVersion "v1.2.3" "v1.2.4" = Some "patch"
  /\ isNextVersion "v1.2.3+b" "v1.3.0" = Some "minor".
Proof.
  split; [repeat split |].
  split.
  - apply (proj2 (isNextVersion_classifies
             (mkVersion true "1" "2" "3" None None)
             (mkVersion true "1" "2" "4" None None)
             eq_refl eq_refl eq_refl eq_refl)); [reflexivity | reflexivity |].
    repeat split.
  - apply (proj2 (isNextVersion_classifies
             (mkVersion true "1" "2" "3" None (Some "b"))
             (mkVersion true "1" "3" "0" None None)
             eq_refl eq_refl eq_refl eq_refl)); [reflexivity |].
    repeat split.
Defined.

(** C2 as stated fails, twice.  ["1.2.3+b"] and ["1.2.4"] are accepted and
    satisfy the patch rule, and [isNextVersion] returns [false].
    ["1.2.9007199254740992"] is accepted, no rule holds between it and
    itself, and [isNextVersion] returns ["patch"]: 2^53 + 1 is the double
    2^53.  And from ["1.2.9007199254740991"] the step to
    ["1.2.9007199254740993"] skips a value and is classified ["patch"]. *)
Lemma isNextVersion_counterexample :
  (isValidSemver "1.2.3+b" = true /\ isValidSemver "1.2.4" = true
   /\ render (mkVersion false "1" "2" "3" None (Some "b")) = "1.2.3+b"
   /\ render (mkVersion false "1" "2" "4" None None) = "1.2.4"
   /\ patch_bump (triple (mkVersion false "1" "2" "3" None (Some "b")))
                 (triple (mkVersion false "1" "2" "4" None None))
   /\ isNextVersion "1.2.3+b" "1.2.4" = None)
  /\ (isValidSemver "1.2.9007199254740992" = true
      /\ render (mkVersion false "1" "2" "9007199254740992" None None)
         = "1.2.9007199254740992"
      /\ triple (mkVersion false "1" "2" "9007199254740992" None None)
         = (1, 2, 9007199254740992)
      /\ isNextVersion "1.2.9007199254740992" "1.2.9007199254740992" = Some "patch")
  /\ (isValidSemver "1.2.9007199254740991" = true
      /\ isValidSemver "1.2.9007199254740993" = true
      /\ triple (mkVersion false "1" "2" "9007199254740991" None None)
         = (1, 2, 9007199254740991)
      /\ triple (mkVersion false "1" "2" "9007199254740993" None None)
         = (1, 2, 9007199254740993)
      /\ isNextVersion "1.2.9007199254740991" "1.2.9007199254740993" = Some "patch").
Proof. evaluate. Qed.

Lemma decimal_zero : decimal 0 = "0".
Proof. reflexivity. Qed.

Lemma plain_text M m p :
  plain M m p = "v" ++ decimal (Z.to_N M) ++ "." ++ decimal (Z.to_N m) ++ "."
                    ++ decimal (Z.to_N p).
Proof.
  unfold plain, render, core, suffix, of_numbers. simpl.
  norm_app. now rewrite app_nil_r.
Qed.

(** What [getNextVersion] returns, given what [parts] read: the number it
    increments is at most 2^53 - 1, and those it prints as they are at most
    2^53. *)
Lemma getNextVersion_of_parts s M m third rest :
  parts s = to_double M :: to_double m :: third :: rest ->
  0 <= M -> 0 <= m ->
  (M <= MAX_SAFE_INTEGER -> getNextVersion s "major" = plain (M + 1) 0 0)
  /\ (M <= two53 -> m <= MAX_SAFE_INTEGER ->
      getNextVersion s "minor" = plain M (m + 1) 0)
  /\ (forall p, third = to_double p -> 0 <= p <= MAX_SAFE_INTEGER ->
      M <= two53 -> m <= two53 ->
      getNextVersion s "patch" = plain M m (p + 1)).
Proof.
  intros E HM Hm.
  assert (H53 : two53 = MAX_SAFE_INTEGER + 1) by reflexivity.
  unfold getNextVersion. fold (parts s). rewrite E.
  cbn [String.eqb Ascii.eqb Bool.eqb index nth_error to_string].
  rewrite !plain_text. cbn [Z.to_N]. rewrite decimal_zero.
  split; [| split].
  - intros BM. rewrite to_double_safe, add_one_safe by lia.
    rewrite number_to_string_nonneg by lia. reflexivity.
  - intros BM Bm. rewrite to_double_exact, to_double_safe, add_one_safe by lia.
    rewrite !number_to_string_nonneg by lia. reflexivity.
  - intros p -> Hp BM Bm.
    rewrite !to_double_exact, add_one_safe by lia.
    rewrite !number_to_string_nonneg, plain_text by lia. reflexivity.
Qed.

(** C3, as amended.  For an accepted version with numbers (M, m, p),
    [getNextVersion] returns the text [v(M+1).0.0] for ["major"] when M is a
    safe integer (at most 2^53 - 1); [vM.(m+1).0] for ["minor"] when m is a
    safe integer and M at most 2^53; and, unless build metadata follows the
    triple directly, [vM.m.(p+1)] for ["patch"] when p is a safe integer and
    M and m are at most 2^53.  The suffix of the version is dropped in all
    three. *)
Theorem getNextVersion_increments (v : Version) :
  well_formed v = true ->
  let '(M, m, p) := triple v in
  (M <= MAX_SAFE_INTEGER -> getNextVersion (render v) "major" = plain (M + 1) 0 0)
  /\ (M <= two53 -> m <= MAX_SAFE_INTEGER ->
      getNextVersion (render v) "minor" = plain M (m + 1) 0)
  /\ (M <= two53 -> m <= two53 -> p <= MAX_SAFE_INTEGER ->
      bare_build v = false ->
      getNextVersion (render v) "patch" = plain M m (p + 1)).
Proof.
  intros Hwf. unfold triple.
  destruct (triple_nonneg v Hwf) as (HM & Hm & Hp).
  destruct (parts_render_any v Hwf) as (third & rest & E & Hplain & _).
  destruct (getNextVersion_of_parts _ _ _ _ _ E HM Hm) as (Emajor & Eminor & Epatch).
  split; [exact Emajor |]. split; [exact Eminor |].
  intros BM Bm Bp Hb. apply Epatch; try assumption; [now apply Hplain | lia].
Qed.

(** [next("v1.4.9", "minor") == "v1.5.0"]. *)
Lemma getNextVersion_increments_witness :
  well_formed (mkVersion true "1" "4" "9" None None) = true
  /\ getNextVersion "v1.4.9" "minor" = "v1.5.0".
Proof.
  split; [reflexivity |].
  apply (proj1 (proj2 (getNextVersion_increments
           (mkVersion true "1" "4" "9" None None) eq_refl)));
    vm_compute; discriminate.
Defined.

(** C3 as stated fails, twice.  ["1.2.3+b"] is accepted, and its next patch
    version is the text ["v1.2.NaN"], not ["v1.2.4"].
    ["1.2.9007199254740992"] is accepted, and its next patch version is
    ["v1.2.9007199254740992"]: the patch is not incremented.  Nor is the
    major of ["9007199254740992.0.0"]; and the next patch version of
    ["9007199254740993.2.3"] has another major, 9007199254740992. *)
Lemma getNextVersion_counterexample :
  (isValidSemver "1.2.3+b" = true
   /\ render (mkVersion false "1" "2" "3" None (Some "b")) = "1.2.3+b"
   /\ triple (mkVersion false "1" "2" "3" None (Some "b")) = (1, 2, 3)
   /\ getNextVersion "1.2.3+b" "patch" = "v1.2.NaN"
   /\ plain 1 2 (3 + 1) = "v1.2.4")
  /\ (isValidSemver "1.2.9007199254740992" = true
      /\ render (mkVersion false "1" "2" "9007199254740992" None None)
         = "1.2.9007199254740992"
      /\ triple (mkVersion false "1" "2" "9007199254740992" None None)
         = (1, 2, 9007199254740992)
      /\ getNextVersion "1.2.9007199254740992" "patch" = "v1.2.9007199254740992"
      /\ plain 1 2 (9007199254740992 + 1) = "v1.2.9007199254740993")
  /\ (isValidSemver "9007199254740992.0.0" = true
      /\ getNextVersion "9007199254740992.0.0" "major" = "v9007199254740992.0.0"
      /\ isValidSemver "9007199254740993.2.3" = true
      /\ getNextVersion "9007199254740993.2.3" "patch" = "v9007199254740992.2.4").
Proof. evaluate. Qed.

(** C4, as amended.  For natural numbers M, m, p the validator accepts
    ["M.m.p"] and ["vM.m.p"], also followed by a pre-release suffix, by build
    metadata, or by both.  Reading such a string with [parts] gives the
    double nearest to M, the double nearest to m and, unless build metadata
    follows the triple directly, the double nearest to p: the numbers
    themselves when they are at most 2^53.  And a string is accepted only
    if, one leading [v] stripped, it belongs to the numeric-triple
    grammar. *)
Theorem isValidSemver_round_trip
    (lead : bool) (M m p : N) (pre bld : option string) (s : string) :
  optional identifier pre = true -> optional identifier bld = true ->
  let v := of_numbers lead M m p pre bld in
  isValidSemver (render v) = true
  /\ (exists third rest,
        parts (render v)
        = to_double (Z.of_N M) :: to_double (Z.of_N m) :: third :: rest
        /\ (bare_build v = false -> third = to_double (Z.of_N p) /\ rest = []))
  /\ (Z.of_N M <= two53 -> Z.of_N m <= two53 -> Z.of_N p <= two53 ->
      bare_build v = false ->
      parts (render v) = [Num (Z.of_N M); Num (Z.of_N m); Num (Z.of_N p)])
  /\ (isValidSemver s = true <-> numeric_triple_grammar (strip_v s)).
Proof.
  intros Hpre Hbld v.
  assert (Hwf : well_formed v = true) by now apply of_numbers_well_formed.
  split; [now apply isValidSemver_render |].
  split; [| split; [| apply isValidSemver_grammar]].
  - destruct (parts_render_any v Hwf) as (third & rest & E & Hplain & _).
    exists third, rest. rewrite E. cbn [v of_numbers major minor patch].
    rewrite !decimal_value. split; [reflexivity |].
    intros Hb. destruct (Hplain Hb) as [-> ->].
    cbn [v of_numbers patch]. now rewrite decimal_value.
  - intros HM Hm Hp Hb. rewrite (parts_render v Hwf Hb).
    cbn [v of_numbers major minor patch]. rewrite !decimal_value.
    now rewrite !to_double_exact by lia.
Qed.

(** ["v1.2.3-rc.1+b"] is accepted and read as (1, 2, 3); ["1.2"] is not
    accepted. *)
Lemma isValidSemver_round_trip_witness :
  (optional identifier (Some "rc.1") = true /\ optional identifier (Some "b") = true)
  /\ isValidSemver "v1.2.3-rc.1+b" = true
  /\ parts "v1.2.3-rc.1+b" = [Num 1; Num 2; Num 3]
  /\ ~ numeric_triple_grammar (strip_v "1.2").
Proof.
  pose proof (isValidSemver_round_trip true 1 2 3 (Some "rc.1") (Some "b") "1.2"
                eq_refl eq_refl) as (Hv & _ & Hp & Hg).
  split; [split; reflexivity |].
  split; [exact Hv |].
  split; [apply Hp; (reflexivity || (unfold two53; lia)) |].
  intros G. apply Hg in G. discriminate G.
Defined.

(** C4 as stated fails, twice.  ["1.2.3+b"] is "1.2.3" followed by build
    metadata, the validator accepts it, and [parts] reads its patch as
    [NaN].  ["1.2.9007199254740993"] is accepted, and [parts] reads its
    patch as 9007199254740992. *)
Lemma parts_counterexample :
  (render (of_numbers false 1 2 3 None (Some "b")) = "1.2.3+b"
   /\ isValidSemver "1.2.3+b" = true
   /\ parts "1.2.3+b" = [Num 1; Num 2; NaN]
   /\ parts "1.2.3+b" <> [Num 1; Num 2; Num 3])
  /\ (render (of_numbers false 1 2 9007199254740993 None None)
      = "1.2.9007199254740993"
      /\ isValidSemver "1.2.9007199254740993" = true
      /\ parts "1.2.9007199254740993" = [Num 1; Num 2; Num 9007199254740992]
      /\ parts "1.2.9007199254740993" <> [Num 1; Num 2; Num 9007199254740993]).
Proof.
  repeat match goal with |- _ /\ _ => split end;
    try (vm_compute; reflexivity);
    vm_compute; discriminate.
Qed.

(** The text [getNextVersion] prints from three numbers, none with a
    fraction, is read back as these numbers. *)
Lemma parts_printed x y z :
  natural x -> whole x = true -> natural y -> whole y = true ->
  natural z -> whole z = true ->
  parts ("v" ++ number_to_string x ++ "." ++ number_to_string y
             ++ "." ++ number_to_string z)
  = [x; y; z].
Proof.
  intros Nx Wx Ny Wy Nz Wz.
  destruct (NumberFacts.printed_natural x Nx Wx) as (Dx & Rx).
  destruct (NumberFacts.printed_natural y Ny Wy) as (Dy & Ry).
  destruct (NumberFacts.printed_natural z Nz Wz) as (Dz & Rz).
  assert (Hcons : forall sep c s,
            absent sep (String c s) = negb (Ascii.eqb c sep) && absent sep s)
    by reflexivity.
  unfold parts. cbn [append strip_v].
  assert (Hdash : absent "-" (number_to_string x
                     ++ String "." (number_to_string y
                     ++ String "." (number_to_string z))) = true).
  { rewrite absent_app, Hcons, absent_app, Hcons, Dx, Dy, Dz. reflexivity. }
  rewrite (split_whole _ _ Hdash). cbn [first hd].
  rewrite (split_at "." _ _ Wx), (split_at "." _ _ Wy), (split_whole "." _ Wz).
  cbn [map]. now rewrite Rx, Ry, Rz.
Qed.

(** C10, as amended.  For an accepted version [v] without build metadata,
    none of whose numbers is printed with a fraction (as no number below
    10^21 is), and a bump kind [k] among ["patch"], ["minor"], ["major"],
    [isNextVersion] classifies the step from [v] to [getNextVersion(v, k)]
    as [k]. *)
Theorem isNextVersion_getNextVersion (v : Version) (k : string) :
  well_formed v = true -> build v = None ->
  In k ["patch"; "minor"; "major"] ->
  (printed_in_full v = true -> printed_whole v = true)
  /\ (printed_whole v = true ->
      isNextVersion (render v) (getNextVersion (render v) k) = Some k).
Proof.
  intros Hwf Hb Hk.
  assert (Nb : bare_build v = false).
  { unfold bare_build. rewrite Hb. now destruct (prerelease v). }
  destruct (triple_nonneg v Hwf) as (HM & Hm & Hp).
  pose proof (parts_render v Hwf Nb) as Eparts.
  pose proof (NumberFacts.to_double_natural _ HM) as NA.
  pose proof (NumberFacts.to_double_natural _ Hm) as NB.
  pose proof (NumberFacts.to_double_natural _ Hp) as NC.
  unfold printed_in_full, printed_whole, triple.
  revert Eparts NA NB NC.
  generalize (to_double (digits_value 0 (major v)))
             (to_double (digits_value 0 (minor v)))
             (to_double (digits_value 0 (patch v))).
  intros A B C Eparts NA NB NC.
  split.
  { (* below 10^21 nothing is printed with a fraction *)
    assert (Hbelow : forall x, natural x -> less x (Num (10 ^ 21)) = true ->
                               whole x = true).
    { intros [| a | negative]; cbn [natural less]; try contradiction.
      - intros [Ha Ra] Hlt. apply Z.ltb_lt in Hlt.
        now apply NumberFacts.whole_below.
      - intros -> H. discriminate H. }
    intros H. apply andb_prop in H as [H H3]. apply andb_prop in H as [H1 H2].
    now rewrite !Hbelow. }
  intros Hwhole.
  apply andb_prop in Hwhole as [Hwhole WC]. apply andb_prop in Hwhole as [WA WB].
  destruct (NumberFacts.add_one_natural A NA) as (NA' & ZA & WA').
  destruct (NumberFacts.add_one_natural B NB) as (NB' & ZB & WB').
  destruct (NumberFacts.add_one_natural C NC) as (NC' & ZC & WC').
  specialize (WA' WA). specialize (WB' WB). specialize (WC' WC).
  fold one in NA', NB', NC', ZA, ZB, ZC, WA', WB', WC'.
  set (A' := add (VNum A) one) in *.
  set (B' := add (VNum B) one) in *.
  set (C' := add (VNum C) one) in *.
  assert (N0 : natural (Num 0)) by (split; [lia | reflexivity]).
  assert (W0 : whole (Num 0) = true) by reflexivity.
  assert (Hnext :
    getNextVersion (render v) "patch"
    = "v" ++ number_to_string A ++ "." ++ number_to_string B
          ++ "." ++ number_to_string C'
    /\ getNextVersion (render v) "minor"
       = "v" ++ number_to_string A ++ "." ++ number_to_string B'
             ++ "." ++ number_to_string (Num 0)
    /\ getNextVersion (render v) "major"
       = "v" ++ number_to_string A' ++ "." ++ number_to_string (Num 0)
             ++ "." ++ number_to_string (Num 0)).
  { unfold getNextVersion. fold (parts (render v)). rewrite Eparts.
    cbn [String.eqb Ascii.eqb Bool.eqb index nth_error to_string].
    repeat split. }
  destruct Hnext as (Epatch & Eminor & Emajor).
  assert (Hstep : forall x y z, parts (getNextVersion (render v) k) = [x; y; z] ->
    isNextVersion (render v) (getNextVersion (render v) k)
    = if strict_eq (VNum z) (VNum C')
         && strict_eq (VNum y) (VNum B)
         && strict_eq (VNum x) (VNum A)
      then Some "patch"
      else if strict_eq (VNum y) (VNum B')
         && strict_eq (VNum z) (VNum (Num 0))
         && strict_eq (VNum x) (VNum A)
      then Some "minor"
      else if strict_eq (VNum x) (VNum A')
         && strict_eq (VNum y) (VNum (Num 0))
         && strict_eq (VNum z) (VNum (Num 0))
      then Some "major"
      else None).
  { intros x y z E. unfold isNextVersion. cbv zeta.
    fold (parts (render v)). fold (parts (getNextVersion (render v) k)).
    rewrite Eparts, E. reflexivity. }
  simpl in Hk. destruct Hk as [<- | [<- | [<- | []]]].
  - rewrite (Hstep A B C').
    + now rewrite !NumberFacts.strict_eq_natural.
    + rewrite Epatch. now apply parts_printed.
  - rewrite (Hstep A B' (Num 0)).
    + now rewrite ZC, !NumberFacts.strict_eq_natural.
    + rewrite Eminor. now apply parts_printed.
  - rewrite (Hstep A' (Num 0) (Num 0)).
    + now rewrite ZC, ZB, !NumberFacts.strict_eq_natural.
    + rewrite Emajor. now apply parts_printed.
Qed.

(** From ["v1.4.9-beta"], the minor step to ["v1.5.0"] is classified
    ["minor"]; from ["1.2.9007199254740992"], whose next patch version is
    printed ["v1.2.9007199254740992"], the patch step is classified
    ["patch"]; and so is the patch step from
    ["1.2.1000000000000000000000"] to ["v1.2.1e+21"]. *)
Lemma isNextVersion_getNextVersion_witness :
  (well_formed (mkVersion true "1" "4" "9" (Some "beta") None) = true
   /\ printed_in_full (mkVersion true "1" "4" "9" (Some "beta") None) = true
   /\ well_formed (mkVersion false "1" "2" "9007199254740992" None None) = true
   /\ printed_in_full (mkVersion false "1" "2" "9007199254740992" None None) = true
   /\ well_formed (mkVersion false "1" "2" "1000000000000000000000" None None) = true
   /\ printed_whole (mkVersion false "1" "2" "1000000000000000000000" None None) = true)
  /\ isNextVersion "v1.4.9-beta" (getNextVersion "v1.4.9-beta" "minor") = Some "minor"
  /\ isNextVersion "1.2.9007199254740992"
       (getNextVersion "1.2.9007199254740992" "patch") = Some "patch"
  /\ getNextVersion "1.2.1000000000000000000000" "patch" = "v1.2.1e+21"
  /\ isNextVersion "1.2.1000000000000000000000"
       (getNextVersion "1.2.1000000000000000000000" "patch") = Some "patch".
Proof.
  split; [repeat split |].
  split; [| split; [| split; [vm_compute; reflexivity |]]].
  - pose proof (isNextVersion_getNextVersion
                  (mkVersion true "1" "4" "9" (Some "beta") None) "minor"
                  eq_refl eq_refl (or_intror (or_introl eq_refl))) as [Hfull Hround].
    exact (Hround (Hfull eq_refl)).
  - pose proof (isNextVersion_getNextVersion
                  (mkVersion false "1" "2" "9007199254740992" None None) "patch"
                  eq_refl eq_refl (or_introl eq_refl)) as [Hfull Hround].
    exact (Hround (Hfull eq_refl)).
  - assert (Hw : printed_whole
                   (mkVersion false "1" "2" "1000000000000000000000" None None) = true)
      by (vm_compute; reflexivity).
    exact (proj2 (isNextVersion_getNextVersion
                    (mkVersion false "1" "2" "1000000000000000000000" None None)
                    "patch" eq_refl eq_refl (or_introl eq_refl)) Hw).
Defined.

(** C10 as stated fails: ["1.2.1500000000000000000000"] is accepted and has
    no build metadata; its next patch version is printed
    ["v1.2.1.5e+21"], which is read as (1, 2, 1), and [isNextVersion]
    returns [false]. *)
Lemma isNextVersion_getNextVersion_counterexample :
  well_formed (mkVersion false "1" "2" "1500000000000000000000" None None) = true
  /\ build (mkVersion false "1" "2" "1500000000000000000000" None None) = None
  /\ render (mkVersion false "1" "2" "1500000000000000000000" None None)
     = "1.2.1500000000000000000000"
  /\ isValidSemver "1.2.1500000000000000000000" = true
  /\ getNextVersion "1.2.1500000000000000000000" "patch" = "v1.2.1.5e+21"
  /\ firstn 3 (parts "v1.2.1.5e+21") = [Num 1; Num 2; Num 1]
  /\ isNextVersion "1.2.1500000000000000000000"
       (getNextVersion "1.2.1500000000000000000000" "patch") = None
  /\ printed_whole (mkVersion false "1" "2" "1500000000000000000000" None None)
     = false.
Proof. evaluate. Qed.

End VersionClaims.

(* ===================================================================== *)
(** * The release steps and the checklist *)
(* ===================================================================== *)

Module AppFacts.
Import JS SemVer StringFacts VersionFacts.

Lemma digit_not_space c : is_digit c = true -> is_space c = false.
Proof.
  unfold is_digit, is_space. intros H.
  apply andb_prop in H as [H1 H2]. apply Z.leb_le in H1, H2.
  repeat match goal with
  | |- context [?a <=? ?b] => destruct (Z.leb_spec a b); try lia
  | |- context [?a =? ?b] => destruct (Z.eqb_spec a b); try lia
  end; reflexivity.
Qed.

Lemma digit_in_10 c : is_digit c = true -> digit_in 10 c = Some (digit_val c).
Proof.
  intros H. unfold digit_in. rewrite H.
  pose proof (is_digit_bounds c H) as B. unfold digit_val in *.
  destruct (Z.ltb_spec (code c - 48) 10); [reflexivity | lia].
Qed.

Lemma leading_digits_all s : forall acc,
  all_digits s = true ->
  leading_digits 10 (Some acc) s = Some (digits_value acc s).
Proof.
  unfold all_digits.
  induction s as [| c s IH]; cbn [leading_digits digits_value all_chars];
    intros acc H; [reflexivity |].
  apply andb_prop in H as [Hc Hs].
  rewrite (digit_in_10 c Hc). now apply IH.
Qed.

(** [parseInt] of a run of digits is the double nearest to its value. *)
Lemma parseInt_digits s :
  digits s = true -> parseInt s = to_double (digits_value 0 s).
Proof.
  intros H. apply digits_inv in H as (c & rest & -> & Hc & Hall).
  unfold parseInt. cbn [trim_start]. rewrite (digit_not_space c Hc).
  unfold all_digits in Hall. cbn [all_chars] in Hall.
  apply andb_prop in Hall as [_ Hrest].
  assert (E : leading_digits 10 None (String c rest)
              = Some (digits_value 0 (String c rest))).
  { cbn [leading_digits digits_value]. rewrite (digit_in_10 c Hc).
    now apply leading_digits_all. }
  destruct c as [[] [] [] [] [] [] [] []]; try discriminate Hc;
    try (rewrite E; reflexivity).
  destruct rest as [| d rest']; [rewrite E; reflexivity |].
  cbn [all_chars] in Hrest. apply andb_prop in Hrest as [Hd _].
  destruct d as [[] [] [] [] [] [] [] []]; try discriminate Hd;
    rewrite E; reflexivity.
Qed.

(** The first two pieces of an accepted version, cut at the dots, are its
    major and minor numbers. *)
Lemma split_dots_render v :
  well_formed v = true ->
  exists rest, split "." (strip_v (render v)) = major v :: minor v :: rest.
Proof.
  intros Hwf. rewrite (strip_v_render _ Hwf).
  apply well_formed_inv in Hwf as (HM & Hm & _).
  unfold core. norm_app.
  rewrite split_at by now apply digits_absent.
  rewrite split_at by now apply digits_absent.
  eauto.
Qed.

End AppFacts.

Module AppClaims.
Import JS GitHub Async GitHubAPI ReleaseApp SemVer StringFacts VersionFacts AppFacts.

(** Runs the code of the page as far as the data known allows: the monad,
    the methods and the record fields are unfolded, strings are not. *)
Ltac run_page :=
  cbv beta iota zeta delta
    [checkReleaseSteps checkCherryPickedCommits checkGitHubReleaseExists
     updateStatus hideCherryPickInfo showCherryPickInfo showSection
     getPackageJson checkBranchExists compareCommits request
     bind ret Monad_Async bind_async pure and_then or_else try_catch
     throw get modify fetch feed requests state_of
     with_checks with_cherry with_steps with_hidden on_check
     checks cherry steps hidden currentRepo releases
     target_release_version from_prerelease_version
     release_branch_exists_check package_version_check
     github_release_published_check display items compare_href
     className innerHTML inputs manifest succeeds fails negb
     GitHubAPI.version _versionLineNumber GitHub.version].

(** C8.  When the trimmed value of the target-version input is empty or is
    not accepted by the validator, [validateVersion] returns at once: the
    page (release steps, checklist and all) is as it was, and nothing is
    fetched.  So an edit of the input to such a value changes the value of
    the input and nothing else. *)
Theorem validateVersion_invalid_keeps_page
    (pg : Page) (value : string) (answers : list FetchResult) :
  trim value = "" \/ VersionUtils.isValidSemver (trim value) = false ->
  (target_release_version pg = value ->
     validateVersion pg = Done pg tt
     /\ requests answers (validateVersion pg) = [])
  /\ input_target_version value pg = Done (with_target_release_version value pg) tt
  /\ requests answers (input_target_version value pg) = [].
Proof.
  intros H.
  assert (E : forall pg', target_release_version pg' = value ->
                          validateVersion pg' = Done pg' tt).
  { intros pg' <-. unfold validateVersion. cbn.
    destruct H as [-> | ->]; [reflexivity |].
    now rewrite andb_false_r. }
  assert (E' : input_target_version value pg
               = Done (with_target_release_version value pg) tt).
  { unfold input_target_version.
    change (validateVersion (with_target_release_version value pg)
            = Done (with_target_release_version value pg) tt).
    now apply E. }
  split; [intros Hv; rewrite (E pg Hv); now split |].
  rewrite E'. now split.
Qed.

(** The target version edited to ["1.2"], on the sample page. *)
Lemma validateVersion_invalid_keeps_page_witness :
  VersionUtils.isValidSemver (trim "1.2") = false
  /\ input_target_version "1.2" (Sample.page "")
     = Done (with_target_release_version "1.2" (Sample.page "")) tt.
Proof.
  split; [reflexivity |].
  exact (proj1 (proj2 (validateVersion_invalid_keeps_page
                         (Sample.page "") "1.2" [] (or_intror eq_refl)))).
Defined.

(** The fallback of [baseBranch] on an accepted version. *)
Lemma baseBranch_fallback v :
  well_formed v = true -> digits_value 0 (minor v) <= MAX_SAFE_INTEGER ->
  baseBranch (render v) ""
  = "v" ++ major v ++ "." ++ decimal (Z.to_N (digits_value 0 (minor v) + 1)) ++ ".x-vscode".
Proof.
  intros Hwf Hsafe. unfold baseBranch.
  destruct (split_dots_render v Hwf) as (rest & ->).
  cbn [first hd nth_error].
  pose proof (well_formed_inv v Hwf) as (_ & Hm & _).
  rewrite (parseInt_digits _ Hm).
  destruct (triple_nonneg v Hwf) as (_ & Hnn & _).
  assert (H53 : two53 = MAX_SAFE_INTEGER + 1) by reflexivity.
  rewrite to_double_safe by lia.
  cbn [add to_number]. rewrite to_double_exact by lia.
  now rewrite number_to_string_nonneg by lia.
Qed.

(** C7, as amended.  For an accepted target version, the release branch is
    the version followed by [-vscode] and [-release]: it is the branch the
    create-branch command names and the branch the branch-exists check
    probes.  The base branch of the command is the (trimmed) from-version
    input when that is not empty, and otherwise
    [v{major}.{minor+1}.x-vscode] from the target, the minor number being a
    safe integer (at most 2^53 - 1). *)
Theorem release_branch_and_base_branch (pg : Page) (owner repo : string) (v : Version) :
  well_formed v = true -> currentRepo pg = Some (owner, repo) ->
  (trim (from_prerelease_version pg) = "" ->
   digits_value 0 (minor v) <= MAX_SAFE_INTEGER) ->
  let version := render v in
  let fromVersion := trim (from_prerelease_version pg) in
  let releaseBranch := version ++ "-vscode" ++ "-release" in
  let base :=
    match fromVersion with
    | EmptyString =>
        "v" ++ major v ++ "." ++ decimal (Z.to_N (digits_value 0 (minor v) + 1))
            ++ ".x-" ++ "vscode"
    | String _ _ => fromVersion
    end in
  create_release_branch_command (steps (state_of (generateReleaseSteps version pg)))
    = "git checkout -b " ++ releaseBranch ++ " " ++ base
  /\ requests [] (checkReleaseSteps version pg)
     = [baseURL ++ "/repos/" ++ owner ++ "/" ++ repo ++ "/branches/" ++ releaseBranch].
Proof.
  intros Hwf Hrepo Hsafe version fromVersion releaseBranch base.
  split.
  - assert (Hbase : baseBranch version fromVersion = base).
    { subst base. fold fromVersion in Hsafe.
      destruct fromVersion eqn:E; [| reflexivity].
      subst version. now rewrite baseBranch_fallback by auto. }
    unfold generateReleaseSteps. cbn. rewrite Hrepo. cbn.
    fold fromVersion. rewrite Hbase. subst releaseBranch.
    destruct (releases pg); cbn; now norm_app.
  - unfold checkReleaseSteps. cbn. rewrite Hrepo. cbn.
    subst releaseBranch. now norm_app.
Qed.

(** Target ["v1.2.4"]: the branch is ["v1.2.4-vscode-release"]; with an empty
    from-version input the base branch is ["v1.3.x-vscode"]. *)
Lemma release_branch_and_base_branch_witness :
  (well_formed (mkVersion true "1" "2" "4" None None) = true
   /\ digits_value 0 "2" <= MAX_SAFE_INTEGER)
  /\ create_release_branch_command
       (steps (state_of (generateReleaseSteps "v1.2.4"
          (Sample.page ""))))
     = "git checkout -b v1.2.4-vscode-release v1.3.x-vscode"
  /\ requests [] (checkReleaseSteps "v1.2.4"
          (Sample.page ""))
     = ["https://api.github.com/repos/o/r/branches/v1.2.4-vscode-release"].
Proof.
  assert (Hsafe : digits_value 0 "2" <= MAX_SAFE_INTEGER)
    by (vm_compute; discriminate).
  split; [split; [reflexivity | exact Hsafe] |].
  exact (release_branch_and_base_branch
           (Sample.page "")
           "o" "r" (mkVersion true "1" "2" "4" None None) eq_refl eq_refl
           (fun _ => Hsafe)).
Defined.

(** C7 as stated fails: ["v1.9007199254740992.0"] is accepted, its minor
    number plus one is 9007199254740993, and with an empty from-version the
    base branch of the command is ["v1.9007199254740992.x-vscode"]:
    2^53 + 1 is the double 2^53. *)
Lemma base_branch_rounding_counterexample :
  well_formed (mkVersion true "1" "9007199254740992" "0" None None) = true
  /\ render (mkVersion true "1" "9007199254740992" "0" None None)
     = "v1.9007199254740992.0"
  /\ VersionUtils.isValidSemver "v1.9007199254740992.0" = true
  /\ trim (from_prerelease_version (Sample.page "")) = ""
  /\ digits_value 0 "9007199254740992" + 1 = 9007199254740993
  /\ decimal (Z.to_N 9007199254740993) = "9007199254740993"
  /\ create_release_branch_command
       (steps (state_of (generateReleaseSteps "v1.9007199254740992.0"
          (Sample.page ""))))
     = "git checkout -b v1.9007199254740992.0-vscode-release v1.9007199254740992.x-vscode".
Proof. evaluate. Qed.

(** The same, stopping at the calls of [checkCherryPickedCommits] and
    [checkGitHubReleaseExists]. *)
Ltac run_head :=
  cbv beta iota zeta delta
    [checkReleaseSteps updateStatus hideCherryPickInfo
     getPackageJson checkBranchExists request
     bind ret Monad_Async bind_async pure and_then or_else try_catch
     throw get modify fetch feed requests skipn
     with_checks on_check
     checks cherry steps hidden currentRepo releases
     target_release_version from_prerelease_version
     release_branch_exists_check package_version_check
     github_release_published_check
     className innerHTML negb
     GitHubAPI.version _versionLineNumber GitHub.version].

(** The same as [run_page], through [package_item] and [trim] as well. *)
Ltac run_bare :=
  cbv beta iota zeta delta
    [checkReleaseSteps checkCherryPickedCommits checkGitHubReleaseExists
     updateStatus hideCherryPickInfo showCherryPickInfo showSection
     getPackageJson checkBranchExists compareCommits request
     bind ret Monad_Async bind_async pure and_then or_else try_catch
     throw get modify fetch feed requests state_of skipn
     with_checks with_cherry with_steps with_hidden on_check
     checks cherry steps hidden currentRepo releases
     target_release_version from_prerelease_version
     release_branch_exists_check package_version_check
     github_release_published_check display items compare_href
     className innerHTML negb
     GitHubAPI.version _versionLineNumber GitHub.version
     package_item bare_page trim trim_start trim_end].

(** Case analysis on everything the code branches on. *)
Ltac branch :=
  match goal with
  | |- context [match ?x with _ => _ end] =>
      lazymatch x with
      | context [match _ with _ => _ end] => fail
      | _ => destruct x eqn:?
      end
  end.

Ltac run_cases := run_page; repeat (branch; try congruence; run_page).

(** A page taken apart, so that its fields compute. *)
Ltac open_page pg :=
  destruct pg as [?repo ?all ?target ?from ?hid
                  [?cmd ?tv ?push ?link ?instr]
                  [[?c1 ?h1] [?c2 ?h2] [?c3 ?h3]]
                  [?disp ?its ?href]].

Lemma succeeds_inv b :
  succeeds b = true -> exists status statusText document,
    b = Responded true status statusText (Some document).
Proof.
  destruct b as [| [] status statusText [document |]]; try discriminate.
  eauto.
Qed.

(** C5, as amended.  When the release branch exists and its package.json is
    fetched with a version string, the package-version check passes exactly
    when that string, as it is, equals the target version with one leading
    [v] stripped. *)
Theorem package_version_check_passes
    (pg : Page) (owner repo version content manifestVersion : string) (b : FetchResult) :
  currentRepo pg = Some (owner, repo) -> succeeds b = true ->
  passed (package_version_check (checks (state_of
    (feed [b; manifest content manifestVersion] (checkReleaseSteps version pg))))) = true
  <-> manifestVersion = strip_v version.
Proof.
  intros Hrepo Hb. apply succeeds_inv in Hb as (status & statusText & document & ->).
  destruct pg as [cr rel tv fv hid st ch cp]. cbn in Hrepo. subst cr.
  run_page. unfold same_version.
  destruct (String.eqb_spec manifestVersion (strip_v version)) as [E | E];
    destruct (trim fv); run_page;
    destruct rel as [all |]; run_page;
    try destruct (find _ all); run_page;
    split; intros H; try reflexivity; try assumption; try discriminate H;
    contradiction.
Qed.

(** ["1.2.4"] in the package.json of the branch matches the target
    ["v1.2.4"]. *)
Lemma package_version_check_passes_witness :
  passed (package_version_check (checks (state_of
    (feed [Sample.found; manifest "" "1.2.4"]
       (checkReleaseSteps "v1.2.4"
          (Sample.page "")))))) = true.
Proof.
  apply (package_version_check_passes
           (Sample.page "")
           "o" "r" "v1.2.4" "" "1.2.4" Sample.found
           eq_refl eq_refl).
  reflexivity.
Defined.

(** C5 as stated fails: the manifest version ["v1.2.4"] and the target
    ["v1.2.4"] are equal once a leading [v] is stripped from both, and the
    check does not pass. *)
Lemma package_version_check_counterexample :
  strip_v "v1.2.4" = strip_v "v1.2.4"
  /\ passed (package_version_check (checks (state_of
       (feed [Sample.found; manifest "" "v1.2.4"]
          (checkReleaseSteps "v1.2.4"
             (Sample.page "")))))) = false.
Proof. evaluate. Qed.

Lemma fails_inv c : fails c = true ->
  (exists reason, c = Rejected reason)
  \/ (exists status statusText json, c = Responded false status statusText json)
  \/ (exists status statusText, c = Responded true status statusText None).
Proof.
  destruct c as [reason | [] status statusText [document |]];
    try discriminate; eauto 6.
Qed.

(** [compareCommits] turns a failed request into [null]. *)
Lemma compareCommits_null (owner repo base head : string) (c : FetchResult) (s : Page) :
  fails c = true -> feed [c] (compareCommits owner repo base head s) = Done s None.
Proof.
  intros Hc.
  apply fails_inv in Hc as [(? & ->) | [(? & ? & ? & ->) | (? & ? & ->)]];
    reflexivity.
Qed.

(** Where [checkReleaseSteps] stands once the branch is found and the
    request for the package.json is answered: the first two checks are
    written, and the cherry-picked commits and the published release are
    still to be looked at. *)
Lemma checkReleaseSteps_after_package
    (pg : Page) (owner repo version : string) (b p : FetchResult)
    (rest : list FetchResult) :
  currentRepo pg = Some (owner, repo) -> succeeds b = true ->
  let releaseBranchName := version ++ "-vscode-release" in
  let found :=
    with_checks (fun c =>
      mkChecks
        (mkCheckItem "check-item success"
           (anchor ("https://github.com/" ++ owner ++ "/" ++ repo ++ "/tree/"
                      ++ releaseBranchName)
                   "branch-link" ("Branch " ++ releaseBranchName ++ " found")))
        (package_item owner repo version b p)
        (mkCheckItem "check-item" (innerHTML (github_release_published_check c)))) pg in
  let remaining :=
    and_then
      (or_else
         (checkCherryPickedCommits owner repo version releaseBranchName found)
         (fun _ =>
            updateStatus ReleaseBranchExists false "Error checking release branch" ;;
            updateStatus PackageVersion false "Release branch not created" ;;
            hideCherryPickInfo))
      (fun _ => checkGitHubReleaseExists owner repo version) in
  feed (b :: p :: rest) (checkReleaseSteps version pg) = feed rest remaining
  /\ skipn 2 (requests (b :: p :: rest) (checkReleaseSteps version pg))
     = requests rest remaining.
Proof.
  intros Hrepo Hb.
  apply succeeds_inv in Hb as (status & statusText & document & ->).
  open_page pg. cbn [currentRepo] in Hrepo. subst.
  run_bare; repeat (branch; run_bare); split; reflexivity.
Qed.

(** C6.  When the release branch exists, a from-version is given, and the
    request for the comparison fails: [compareCommits] returns [null] and
    does not throw; the evaluation runs to its end; the branch-exists check
    shows as passed; the panel of cherry-picked commits is displayed with the
    single entry "None"; the request that failed is the third, for the
    comparison of the from-version with the release branch; and the three
    checks are what they would be after any other answer to it. *)
Theorem compare_failure_is_isolated
    (pg : Page) (owner repo version : string) (b p c : FetchResult) :
  currentRepo pg = Some (owner, repo) ->
  trim (from_prerelease_version pg) <> "" ->
  succeeds b = true -> fails c = true ->
  (forall base head (s : Page),
      feed [c] (compareCommits owner repo base head s) = Done s None)
  /\ (exists pg', feed [b; p; c] (checkReleaseSteps version pg) = Done pg' tt
        /\ passed (release_branch_exists_check (checks pg')) = true
        /\ display (cherry pg') = "block"
        /\ items (cherry pg') = ["None"])
  /\ skipn 2 (requests [b; p; c] (checkReleaseSteps version pg))
     = [baseURL ++ "/repos/" ++ owner ++ "/" ++ repo ++ "/compare/"
          ++ trim (from_prerelease_version pg) ++ "..."
          ++ version ++ "-vscode-release"]
  /\ (forall c',
      checks (state_of (feed [b; p; c'] (checkReleaseSteps version pg)))
      = checks (state_of (feed [b; p; c] (checkReleaseSteps version pg)))).
Proof.
  intros Hrepo Hfrom Hb Hc.
  split; [intros; now apply compareCommits_null |].
  pose proof (fun rest =>
    checkReleaseSteps_after_package pg owner repo version b p rest Hrepo Hb) as Hstep.
  cbv zeta in Hstep.
  assert (Hrun : forall c', fails c' = true ->
    (exists pg', feed [b; p; c'] (checkReleaseSteps version pg) = Done pg' tt
        /\ passed (release_branch_exists_check (checks pg')) = true
        /\ display (cherry pg') = "block"
        /\ items (cherry pg') = ["None"])).
  { intros c' Hc'. rewrite (proj1 (Hstep [c'])).
    open_page pg. cbn [currentRepo from_prerelease_version] in Hrepo, Hfrom.
    apply fails_inv in Hc' as [(? & ->) | [(? & ? & ? & ->) | (? & ? & ->)]];
      run_cases; eexists; (split; [reflexivity |]); repeat split. }
  split; [now apply Hrun |].
  split.
  - rewrite (proj2 (Hstep [c])).
    open_page pg. cbn [currentRepo from_prerelease_version] in Hrepo, Hfrom |- *.
    run_cases; reflexivity.
  - intros c'. rewrite (proj1 (Hstep [c'])), (proj1 (Hstep [c])).
    open_page pg. cbn [currentRepo from_prerelease_version] in Hrepo, Hfrom.
    apply fails_inv in Hc as [(? & ->) | [(? & ? & ? & ->) | (? & ? & ->)]];
      run_cases; reflexivity.
Qed.

(** The theorem at the sample page, with from-version ["v1.3.0-vscode"],
    the package.json at the target version, and a comparison that is not
    found. *)
Lemma compare_failure_is_isolated_witness :
  (trim (from_prerelease_version (Sample.page "v1.3.0-vscode")) <> ""
   /\ succeeds Sample.found = true /\ fails Sample.not_found = true)
  /\ feed [Sample.not_found]
       (compareCommits "o" "r" "v1.3.0-vscode" "v1.2.4-vscode-release"
          (Sample.page "v1.3.0-vscode"))
     = Done (Sample.page "v1.3.0-vscode") None
  /\ items (cherry (state_of
       (feed [Sample.found; manifest "" "1.2.4"; Sample.not_found]
          (checkReleaseSteps "v1.2.4" (Sample.page "v1.3.0-vscode"))))) = ["None"].
Proof.
  assert (Hfrom : trim (from_prerelease_version (Sample.page "v1.3.0-vscode")) <> "")
    by discriminate.
  pose proof (compare_failure_is_isolated (Sample.page "v1.3.0-vscode")
                "o" "r" "v1.2.4" Sample.found (manifest "" "1.2.4") Sample.not_found
                eq_refl Hfrom eq_refl eq_refl) as (Hnull & (pg' & Hrun & _ & _ & Hitems) & _).
  split; [repeat split; assumption |].
  split; [apply Hnull |].
  rewrite Hrun. exact Hitems.
Defined.

(** ** One cycle after another *)

(** A cycle writes neither the fields of the application nor the inputs. *)
Lemma checkReleaseSteps_keeps_inputs (version : string) (pg : Page)
    (answers : list FetchResult) :
  inputs (state_of (feed answers (checkReleaseSteps version pg))) = inputs pg.
Proof.
  destruct (currentRepo pg) as [[owner repo] |] eqn:Hrepo.
  - destruct answers as [| b answers].
    { open_page pg. cbn [currentRepo] in Hrepo. subst. reflexivity. }
    destruct (succeeds b) eqn:Hb.
    + destruct answers as [| p rest].
      { apply succeeds_inv in Hb as (? & ? & ? & ->).
        open_page pg. cbn [currentRepo] in Hrepo. subst. run_cases; reflexivity. }
      rewrite (proj1 (checkReleaseSteps_after_package
                        pg owner repo version b p rest Hrepo Hb)).
      open_page pg. cbn [currentRepo] in Hrepo. subst. run_cases; reflexivity.
    + assert (Hf : fails b = true) by (unfold fails; now rewrite Hb).
      open_page pg. cbn [currentRepo] in Hrepo. subst.
      apply fails_inv in Hf as [(? & ->) | [(? & ? & ? & ->) | (? & ? & ->)]];
        run_cases; reflexivity.
  - open_page pg. cbn [currentRepo] in Hrepo. subst. reflexivity.
Qed.

(** On two pages with the same fields and inputs, a cycle that ends on one
    ends on the other, with the same checklist. *)
Lemma checkReleaseSteps_checklist (version owner repo : string) (pgA pgB : Page)
    (answers : list FetchResult) (endA : Page) :
  currentRepo pgA = Some (owner, repo) -> inputs pgA = inputs pgB ->
  feed answers (checkReleaseSteps version pgA) = Done endA tt ->
  exists endB, feed answers (checkReleaseSteps version pgB) = Done endB tt
               /\ checklist endA = checklist endB.
Proof.
  intros HrepoA Hin.
  assert (HrepoB : currentRepo pgB = Some (owner, repo)).
  { unfold inputs in Hin. injection Hin as <- _ _. exact HrepoA. }
  destruct answers as [| b answers].
  { open_page pgA. cbn [currentRepo] in HrepoA. subst. discriminate. }
  destruct (succeeds b) eqn:Hb.
  - destruct answers as [| p rest].
    { apply succeeds_inv in Hb as (? & ? & ? & ->).
      open_page pgA. cbn [currentRepo] in HrepoA. subst. run_cases; discriminate. }
    rewrite (proj1 (checkReleaseSteps_after_package
                      pgA owner repo version b p rest HrepoA Hb)).
    rewrite (proj1 (checkReleaseSteps_after_package
                      pgB owner repo version b p rest HrepoB Hb)).
    generalize (package_item owner repo version b p). intros item.
    open_page pgA. open_page pgB. unfold inputs in Hin.
    cbn [currentRepo releases from_prerelease_version] in HrepoA, HrepoB, Hin.
    injection Hin as <- <- <-. clear HrepoB. subst.
    run_cases; intros H; try discriminate H;
      injection H as <-; eexists; split; reflexivity.
  - assert (Hf : fails b = true) by (unfold fails; now rewrite Hb).
    open_page pgA. open_page pgB. unfold inputs in Hin.
    cbn [currentRepo releases from_prerelease_version] in HrepoA, HrepoB, Hin.
    injection Hin as <- <- <-. clear HrepoB. subst.
    apply fails_inv in Hf as [(? & ->) | [(? & ? & ? & ->) | (? & ? & ->)]];
      run_cases; intros H; try discriminate H;
      injection H as <-; eexists; split; reflexivity.
Qed.

(** ** Two cycles at once *)

Lemma checkReleaseSteps_suspended (pg : Page) (version owner repo : string) :
  currentRepo pg = Some (owner, repo) ->
  checkReleaseSteps version pg
  = Suspended (reset_checks pg)
      (baseURL ++ "/repos/" ++ owner ++ "/" ++ repo ++ "/branches/"
         ++ version ++ "-vscode-release")
      (after_branch version owner repo).
Proof.
  intros Hrepo. open_page pg. cbn [currentRepo] in Hrepo. subst.
  unfold after_branch, reset_checks.
  run_bare. reflexivity.
Qed.

(** Where the resumed call stands once the branch is found and the request
    for the package.json is answered. *)
Lemma after_branch_package
    (pg : Page) (owner repo version : string) (b p : FetchResult)
    (rest : list FetchResult) :
  succeeds b = true ->
  let releaseBranchName := version ++ "-vscode-release" in
  let found :=
    with_checks (fun c =>
      mkChecks
        (mkCheckItem "check-item success"
           (anchor ("https://github.com/" ++ owner ++ "/" ++ repo ++ "/tree/"
                      ++ releaseBranchName)
                   "branch-link" ("Branch " ++ releaseBranchName ++ " found")))
        (package_item owner repo version b p)
        (github_release_published_check c)) pg in
  let remaining :=
    and_then
      (or_else
         (checkCherryPickedCommits owner repo version releaseBranchName found)
         (fun _ =>
            updateStatus ReleaseBranchExists false "Error checking release branch" ;;
            updateStatus PackageVersion false "Release branch not created" ;;
            hideCherryPickInfo))
      (fun _ => checkGitHubReleaseExists owner repo version) in
  feed (p :: rest) (after_branch version owner repo b pg) = feed rest remaining.
Proof.
  intros Hb.
  apply succeeds_inv in Hb as (status & statusText & document & ->).
  open_page pg. unfold after_branch.
  run_bare; repeat (branch; run_bare); reflexivity.
Qed.

(** Resumed on two pages with the same inputs, the call ends on both or on
    neither, and with the same checklist: what the checklist showed before
    plays no part. *)
Lemma after_branch_checklist (version owner repo : string) (pgA pgB : Page)
    (first : FetchResult) (rest : list FetchResult) (endA : Page) :
  inputs pgA = inputs pgB ->
  feed rest (after_branch version owner repo first pgA) = Done endA tt ->
  exists endB, feed rest (after_branch version owner repo first pgB) = Done endB tt
               /\ checklist endA = checklist endB.
Proof.
  intros Hin.
  destruct (succeeds first) eqn:Hb.
  - destruct rest as [| p rest].
    { apply succeeds_inv in Hb as (? & ? & ? & ->).
      open_page pgA. unfold after_branch. run_bare; discriminate. }
    rewrite (after_branch_package pgA owner repo version first p rest Hb).
    rewrite (after_branch_package pgB owner repo version first p rest Hb).
    generalize (package_item owner repo version first p). intros item.
    open_page pgA. open_page pgB. unfold inputs in Hin.
    cbn [currentRepo releases from_prerelease_version] in Hin.
    injection Hin as <- <- <-.
    run_cases; intros H; try discriminate H;
      injection H as <-; eexists; split; reflexivity.
  - assert (Hf : fails first = true) by (unfold fails; now rewrite Hb).
    open_page pgA. open_page pgB. unfold inputs in Hin.
    cbn [currentRepo releases from_prerelease_version] in Hin.
    injection Hin as <- <- <-.
    unfold after_branch.
    apply fails_inv in Hf as [(? & ->) | [(? & ? & ? & ->) | (? & ? & ->)]];
      run_bare; repeat (branch; try congruence; run_bare);
      intros H; try discriminate H;
      injection H as <-; eexists; split; reflexivity.
Qed.




End AppClaims.

(* ===================================================================== *)
(** * More on the version algebra *)
(* ===================================================================== *)

Module VersionExtras.
Import JS SemVer VersionUtils StringFacts VersionFacts.

Lemma gt_lt a b : gt a b = lt b a.
Proof. reflexivity. Qed.

Lemma less_asymmetric x y : less x y = true -> less y x = false.
Proof.
  destruct x as [| x | []], y as [| y | []]; cbn [less negb andb];
    try discriminate; try reflexivity.
  intros H. apply Z.ltb_lt in H. apply Z.ltb_ge. lia.
Qed.

Lemma gt_not_lt a b : gt a b = true -> lt a b = false.
Proof. unfold gt, lt. apply less_asymmetric. Qed.

Lemma compare_loop_swap parts1 parts2 indices :
  compare_loop parts1 parts2 indices = - compare_loop parts2 parts1 indices.
Proof.
  induction indices as [| i rest IH]; cbn [compare_loop]; [reflexivity |].
  rewrite (gt_lt (index parts2 i)), <- (gt_lt (index parts1 i)).
  destruct (gt (index parts1 i) (index parts2 i)) eqn:G.
  - now rewrite (gt_not_lt _ _ G).
  - destruct (lt (index parts1 i) (index parts2 i)); [reflexivity | exact IH].
Qed.

Lemma compare_loop_same parts indices : compare_loop parts parts indices = 0.
Proof.
  induction indices as [| i rest IH]; cbn [compare_loop]; [reflexivity |].
  assert (G : gt (index parts i) (index parts i) = false).
  { unfold gt. destruct (to_number (index parts i)) as [| x | []];
      [reflexivity | apply Z.ltb_irrefl | reflexivity | reflexivity]. }
  rewrite G, <- gt_lt, G. exact IH.
Qed.

Lemma compare_loop_range parts1 parts2 indices :
  In (compare_loop parts1 parts2 indices) [-1; 0; 1].
Proof.
  induction indices as [| i rest IH]; cbn [compare_loop]; [simpl; auto |].
  destruct (gt _ _); [simpl; auto |].
  destruct (lt _ _); [simpl; auto | exact IH].
Qed.

(** X1.  On any two versions the validator accepts, build metadata or not,
    [compareSemver] returns -1, 0 or 1, swapping the arguments negates the
    result, and a version compares equal to itself. *)
Theorem compareSemver_antisymmetric (version1 version2 : string) :
  isValidSemver version1 = true -> isValidSemver version2 = true ->
  In (compareSemver version1 version2) [-1; 0; 1]
  /\ compareSemver version1 version2 = - compareSemver version2 version1
  /\ compareSemver version1 version1 = 0.
Proof.
  intros _ _. unfold compareSemver. split; [apply compare_loop_range |].
  split; [apply compare_loop_swap | apply compare_loop_same].
Qed.

(** ["1.2.3+b"] against ["v1.3.0"]. *)
Lemma compareSemver_antisymmetric_witness :
  compareSemver "1.2.3+b" "v1.3.0" = - compareSemver "v1.3.0" "1.2.3+b"
  /\ compareSemver "1.2.3+b" "1.2.3+b" = 0.
Proof.
  exact (proj2 (compareSemver_antisymmetric "1.2.3+b" "v1.3.0" eq_refl eq_refl)).
Defined.

(** The third numbers of two safe versions, as [parts] reads them. *)
Ltac read_parts Hc Sc Hn Sn :=
  let tc := fresh "tc" in let rc := fresh "rc" in
  let tn := fresh "tn" in let rn := fresh "rn" in
  let Hplain := fresh "Hplain" in let Hbare := fresh "Hbare" in
  let Hplain' := fresh "Hplain" in let Hbare' := fresh "Hbare" in
  destruct (parts_safe _ Hc Sc) as (tc & rc & -> & Hplain & Hbare);
  destruct (parts_safe _ Hn Sn) as (tn & rn & -> & Hplain' & Hbare');
  match type of Hbare with
  | bare_build ?v = true -> _ =>
      destruct (bare_build v);
      [rewrite (Hbare eq_refl) in * | destruct (Hplain eq_refl) as [-> ->]]
  end;
  match type of Hbare' with
  | bare_build ?v = true -> _ =>
      destruct (bare_build v);
      [rewrite (Hbare' eq_refl) in * | destruct (Hplain' eq_refl) as [-> ->]]
  end;
  clear Hplain Hbare Hplain' Hbare'.

(** X2.  No accepted version whose numbers are safe integers, build
    metadata or not, is classified as its own successor. *)
Theorem isNextVersion_irreflexive (v : Version) :
  well_formed v = true -> safe v = true ->
  isNextVersion (render v) (render v) = None.
Proof.
  intros Hwf Hs.
  destruct (safe_inv v Hwf Hs) as (HM & Hm & Hp).
  unfold isNextVersion. cbv zeta. fold (parts (render v)).
  destruct (parts_safe v Hwf Hs) as (third & rest & -> & Hplain & Hbare).
  cbn [index nth_error].
  rewrite !VersionClaims.add_one_safe by assumption.
  assert (Hthird : strict_eq (VNum third) (VNum (add (VNum third) one)) = false).
  { destruct (bare_build v).
    - now rewrite (Hbare eq_refl).
    - destruct (Hplain eq_refl) as [-> _].
      rewrite VersionClaims.add_one_safe by assumption.
      cbn [strict_eq]. apply Z.eqb_neq. lia. }
  rewrite Hthird. cbn [strict_eq andb].
  destruct (Z.eqb_spec (digits_value 0 (minor v)) (digits_value 0 (minor v) + 1));
    [lia |].
  destruct (Z.eqb_spec (digits_value 0 (major v)) (digits_value 0 (major v) + 1));
    [lia |].
  reflexivity.
Qed.

(** ["v1.2.3-rc.1"]. *)
Lemma isNextVersion_irreflexive_witness :
  well_formed (mkVersion true "1" "2" "3" (Some "rc.1") None) = true
  /\ isNextVersion "v1.2.3-rc.1" "v1.2.3-rc.1" = None.
Proof.
  split; [reflexivity |].
  exact (isNextVersion_irreflexive
           (mkVersion true "1" "2" "3" (Some "rc.1") None) eq_refl eq_refl).
Defined.

(** X3.  For two accepted versions whose numbers are safe integers, build
    metadata or not: when [isNextVersion] returns a kind it is one of the
    three, and [compareSemver] places the candidate after the current
    version. *)
Theorem isNextVersion_is_greater (current next : Version) (kind : string) :
  well_formed current = true -> well_formed next = true ->
  safe current = true -> safe next = true ->
  isNextVersion (render current) (render next) = Some kind ->
  In kind ["patch"; "minor"; "major"]
  /\ compareSemver (render next) (render current) = 1.
Proof.
  intros Hc Hn Sc Sn.
  destruct (safe_inv current Hc Sc) as (HM & Hm & Hp).
  destruct (safe_inv next Hn Sn) as (HM' & Hm' & Hp').
  unfold isNextVersion, compareSemver. cbv zeta.
  fold (parts (render current)). fold (parts (render next)).
  read_parts Hc Sc Hn Sn;
  cbn [compare_loop index nth_error];
  rewrite ?VersionClaims.add_one_safe by assumption;
  cbn [add to_number one strict_eq gt lt less andb];
  rewrite ?andb_false_r; cbn [andb];
  repeat match goal with
  | |- context [?x =? ?y] => destruct (Z.eqb_spec x y); cbn [andb]
  end;
  intros H; try discriminate H; injection H as <-;
  (split; [simpl; tauto |]);
  repeat match goal with
  | |- context [?x <? ?y] => destruct (Z.ltb_spec x y); try lia
  end; reflexivity.
Qed.

(** ["v1.2.3+b"] to ["v1.3.0"]. *)
Lemma isNextVersion_is_greater_witness :
  (well_formed (mkVersion true "1" "2" "3" None (Some "b")) = true
   /\ well_formed (mkVersion true "1" "3" "0" None None) = true)
  /\ isNextVersion "v1.2.3+b" "v1.3.0" = Some "minor"
  /\ compareSemver "v1.3.0" "v1.2.3+b" = 1.
Proof.
  split; [split; reflexivity |].
  split; [reflexivity |].
  exact (proj2 (isNextVersion_is_greater
                  (mkVersion true "1" "2" "3" None (Some "b"))
                  (mkVersion true "1" "3" "0" None None) "minor"
                  eq_refl eq_refl eq_refl eq_refl eq_refl)).
Defined.

Lemma plain_well_formed M m p :
  well_formed (of_numbers true (Z.to_N M) (Z.to_N m) (Z.to_N p) None None) = true.
Proof. now apply of_numbers_well_formed. Qed.

(** X4.  For an accepted version whose numbers are safe integers, without
    build metadata directly after its triple, and any second argument,
    [getNextVersion] returns a version the validator accepts and
    [compareSemver] places after the given one. *)
Theorem getNextVersion_accepted_and_greater (v : Version) (type : string) :
  well_formed v = true -> safe v = true -> bare_build v = false ->
  isValidSemver (getNextVersion (render v) type) = true
  /\ compareSemver (getNextVersion (render v) type) (render v) = 1.
Proof.
  intros Hwf Hs Hb.
  destruct (safe_inv v Hwf Hs) as (HM & Hm & Hp).
  pose proof (parts_render_safe v Hwf Hs Hb) as Eparts.
  assert (H53 : two53 = MAX_SAFE_INTEGER + 1) by reflexivity.
  destruct (VersionClaims.getNextVersion_of_parts
              (render v) (digits_value 0 (major v)) (digits_value 0 (minor v))
              (Num (digits_value 0 (patch v))) [])
    as (Emajor & Eminor & Epatch); [| lia | lia |].
  { now rewrite Eparts, !to_double_safe by assumption. }
  specialize (Emajor ltac:(lia)). specialize (Eminor ltac:(lia) ltac:(lia)).
  specialize (Epatch (digits_value 0 (patch v))
                (eq_sym (to_double_safe _ Hp)) Hp ltac:(lia) ltac:(lia)).
  assert (Hgreater : forall M' m' p',
    0 <= M' <= two53 -> 0 <= m' <= two53 -> 0 <= p' <= two53 ->
    lex_compare (M', m', p') (triple v) = 1 ->
    isValidSemver (plain M' m' p') = true
    /\ compareSemver (plain M' m' p') (render v) = 1).
  { intros M' m' p' H1 H2 H3 Hlex. split.
    - apply isValidSemver_render, plain_well_formed.
    - change (compare_loop (parts (plain M' m' p')) (parts (render v)) [0; 1; 2]%nat = 1).
      rewrite parts_plain, Eparts, compare_loop_lex by assumption. exact Hlex. }
  assert (Hcases : getNextVersion (render v) type = getNextVersion (render v) "major"
                   \/ getNextVersion (render v) type = getNextVersion (render v) "minor"
                   \/ getNextVersion (render v) type = getNextVersion (render v) "patch").
  { unfold getNextVersion.
    destruct (String.eqb_spec type "major") as [-> | _]; [now left |].
    destruct (String.eqb_spec type "minor") as [-> | _]; [now right; left |].
    right; right. reflexivity. }
  unfold triple in Hgreater.
  destruct Hcases as [-> | [-> | ->]];
    [rewrite Emajor | rewrite Eminor | rewrite Epatch];
    apply Hgreater; try lia; unfold lex_compare;
    rewrite ?Z.compare_refl;
    match goal with
    | |- context [?a ?= ?b] =>
        destruct (Z.compare_spec a b); try lia; reflexivity
    end.
Qed.

(** From ["1.4.9-beta"], with no kind given but ["anything"]. *)
Lemma getNextVersion_accepted_and_greater_witness :
  well_formed (mkVersion false "1" "4" "9" (Some "beta") None) = true
  /\ isValidSemver (getNextVersion "1.4.9-beta" "anything") = true
  /\ compareSemver (getNextVersion "1.4.9-beta" "anything") "1.4.9-beta" = 1.
Proof.
  split; [reflexivity |].
  exact (getNextVersion_accepted_and_greater
           (mkVersion false "1" "4" "9" (Some "beta") None) "anything"
           eq_refl eq_refl eq_refl).
Defined.

(** ** Build metadata directly after the triple *)

(** X21.  When one of two accepted versions whose numbers are safe integers
    has build metadata directly after its triple, [compareSemver] compares
    the majors, then the minors, and nothing else: the patch numbers play no
    part. *)
Theorem compareSemver_bare_build (a b : Version) :
  well_formed a = true -> well_formed b = true ->
  safe a = true -> safe b = true ->
  bare_build a = true \/ bare_build b = true ->
  compareSemver (render a) (render b)
  = match digits_value 0 (major a) ?= digits_value 0 (major b) with
    | Eq => sign (digits_value 0 (minor a) ?= digits_value 0 (minor b))
    | c => sign c
    end.
Proof.
  intros Ha Hb Sa Sb Hbare.
  unfold compareSemver. cbv zeta.
  fold (parts (render a)). fold (parts (render b)).
  destruct (parts_safe a Ha Sa) as (ta & ra & -> & _ & Hta).
  destruct (parts_safe b Hb Sb) as (tb & rb & -> & _ & Htb).
  cbn [compare_loop index nth_error].
  assert (Hthird : gt (VNum ta) (VNum tb) = false /\ lt (VNum ta) (VNum tb) = false).
  { unfold gt, lt. cbn [to_number].
    destruct Hbare as [H | H]; [rewrite (Hta H) | rewrite (Htb H)];
      destruct ta, tb; split; reflexivity. }
  destruct Hthird as [-> ->].
  unfold gt, lt. cbn [to_number less].
  destruct (Z.compare_spec (digits_value 0 (major a)) (digits_value 0 (major b)));
  destruct (Z.compare_spec (digits_value 0 (minor a)) (digits_value 0 (minor b)));
  repeat match goal with
  | |- context [?x <? ?y] => destruct (Z.ltb_spec x y); try lia
  end; reflexivity.
Qed.

(** ["1.2.3+b"] and ["1.2.9"] compare equal. *)
Lemma compareSemver_bare_build_witness :
  (well_formed (mkVersion false "1" "2" "3" None (Some "b")) = true
   /\ well_formed (mkVersion false "1" "2" "9" None None) = true)
  /\ compareSemver "1.2.3+b" "1.2.9" = 0.
Proof.
  split; [split; reflexivity |].
  exact (compareSemver_bare_build
           (mkVersion false "1" "2" "3" None (Some "b"))
           (mkVersion false "1" "2" "9" None None)
           eq_refl eq_refl eq_refl eq_refl (or_introl eq_refl)).
Defined.

(** X22.  For an accepted version whose numbers (M, m, p) are safe
    integers, with build metadata directly after its triple,
    [getNextVersion] returns for ["patch"] the text [vM.m.NaN], which the
    validator rejects. *)
Theorem getNextVersion_bare_build (v : Version) :
  well_formed v = true -> safe v = true -> bare_build v = true ->
  let M := digits_value 0 (major v) in
  let m := digits_value 0 (minor v) in
  getNextVersion (render v) "patch"
  = "v" ++ decimal (Z.to_N M) ++ "." ++ decimal (Z.to_N m) ++ ".NaN"
  /\ isValidSemver (getNextVersion (render v) "patch") = false.
Proof.
  intros Hwf Hs Hb M m.
  destruct (safe_inv v Hwf Hs) as (HM & Hm & _). fold M in HM. fold m in Hm.
  destruct (parts_safe v Hwf Hs) as (third & rest & E & _ & Hbare).
  rewrite (Hbare Hb) in E. fold M m in E.
  assert (H53 : two53 = MAX_SAFE_INTEGER + 1) by reflexivity.
  assert (Epatch : getNextVersion (render v) "patch"
                   = "v" ++ decimal (Z.to_N M) ++ "." ++ decimal (Z.to_N m) ++ ".NaN").
  { unfold getNextVersion. fold (parts (render v)). rewrite E.
    cbn [String.eqb Ascii.eqb Bool.eqb index nth_error to_string add to_number one].
    rewrite !number_to_string_nonneg by lia. reflexivity. }
  split; [exact Epatch |].
  rewrite Epatch.
  destruct (isValidSemver ("v" ++ decimal (Z.to_N M) ++ "." ++ decimal (Z.to_N m) ++ ".NaN"))
    eqn:Hvalid; [exfalso | reflexivity].
  apply isValidSemver_grammar in Hvalid as (w & Hw & Hlead & Hrender).
  pose proof (well_formed_inv w Hw) as (DM' & Dm' & Dp' & _).
  pose proof (decimal_digits (Z.to_N M)) as DM.
  pose proof (decimal_digits (Z.to_N m)) as Dm.
  unfold render, core in Hrender. rewrite Hlead in Hrender.
  cbn [append strip_v] in Hrender.
  apply (f_equal (split ".")) in Hrender. revert Hrender. norm_app.
  rewrite !split_at by now apply digits_absent.
  rewrite split_app by now apply digits_absent.
  cbn [split Ascii.eqb Bool.eqb]. intros Hrender.
  injection Hrender as _ _ Hthird _.
  apply digits_inv in Dp' as (c & r & Ec & Hc & _). rewrite Ec in Hthird.
  injection Hthird as <- _. discriminate Hc.
Qed.

(** ["1.2.3+b"]. *)
Lemma getNextVersion_bare_build_witness :
  well_formed (mkVersion false "1" "2" "3" None (Some "b")) = true
  /\ getNextVersion "1.2.3+b" "patch" = "v1.2.NaN"
  /\ isValidSemver (getNextVersion "1.2.3+b" "patch") = false.
Proof.
  split; [reflexivity |].
  exact (getNextVersion_bare_build
           (mkVersion false "1" "2" "3" None (Some "b")) eq_refl eq_refl eq_refl).
Defined.

End VersionExtras.

(* ===================================================================== *)
(** * More on the API client and the page *)
(* ===================================================================== *)

Module AppExtras.
Import JS GitHub Async GitHubAPI ReleaseApp SemVer StringFacts VersionFacts AppFacts.
Import AppClaims.

(** ** [getNextPatchVersion] *)

Lemma length_app (a b : string) :
  String.length (a ++ b) = (String.length a + String.length b)%nat.
Proof. induction a as [| c a IH]; simpl; [reflexivity | now rewrite IH]. Qed.

Lemma strip_end_app suffix a : strip_end suffix (a ++ suffix) = a.
Proof.
  induction a as [| c a IH].
  - destruct suffix; cbn [append strip_end]; now rewrite String.eqb_refl.
  - cbn [append strip_end].
    destruct (String.eqb_spec (String c (a ++ suffix)) suffix) as [E | _].
    + apply (f_equal String.length) in E. cbn [String.length] in E.
      rewrite length_app in E. lia.
    + now rewrite IH.
Qed.

Lemma strip_end_absent s : absent "-" s = true -> strip_end "-vscode" s = s.
Proof.
  unfold absent. induction s as [| c s IH]; cbn [all_chars]; intros H; [reflexivity |].
  apply andb_prop in H as [Hc Hs].
  cbn [strip_end String.eqb]. rewrite (IH Hs).
  destruct (Ascii.eqb_spec c "-") as [-> | _]; [discriminate Hc | reflexivity].
Qed.

(** X5.  On a tag of the channel, the numeric triple (with or without [v])
    followed by [-vscode], and on the bare triple, [getNextPatchVersion]
    returns what [getNextVersion] returns for ["patch"]; when the numbers
    are safe integers this is the text [vM.m.(p+1)]. *)
Theorem getNextPatchVersion_on_channel_tag (v : Version) :
  well_formed v = true ->
  prerelease v = None \/ prerelease v = Some "vscode" -> build v = None ->
  getNextPatchVersion (render v) = VersionUtils.getNextVersion (render v) "patch"
  /\ (safe v = true ->
      getNextPatchVersion (render v)
      = plain (digits_value 0 (major v)) (digits_value 0 (minor v))
              (digits_value 0 (patch v) + 1)).
Proof.
  intros Hwf Hpre Hbuild.
  assert (Hb : bare_build v = false).
  { unfold bare_build. rewrite Hbuild. now destruct (SemVer.prerelease v). }
  assert (Eclean : strip_end "-vscode" (strip_v (render v)) = core v).
  { rewrite (strip_v_render _ Hwf). unfold suffix. rewrite Hbuild.
    destruct Hpre as [-> | ->]; cbn [tagged].
    - rewrite !app_nil_r. apply strip_end_absent. now apply core_no_dash.
    - rewrite app_nil_r. apply strip_end_app. }
  assert (Ecut : first (split "-" (strip_v (render v))) = core v).
  { rewrite (strip_v_render _ Hwf), (split_app _ _ _ (core_no_dash _ Hwf)).
    cbn [first hd]. now rewrite (first_split_suffix _ Hb), app_nil_r. }
  assert (Esame : getNextPatchVersion (render v)
                  = VersionUtils.getNextVersion (render v) "patch").
  { unfold getNextPatchVersion, VersionUtils.getNextVersion.
    rewrite Eclean, Ecut. reflexivity. }
  split; [exact Esame |].
  intros Hs. rewrite Esame.
  destruct (safe_inv v Hwf Hs) as (HM & Hm & Hp).
  assert (H53 : two53 = MAX_SAFE_INTEGER + 1) by reflexivity.
  destruct (VersionClaims.getNextVersion_of_parts
              (render v) (digits_value 0 (major v)) (digits_value 0 (minor v))
              (Num (digits_value 0 (patch v))) [])
    as (_ & _ & Epatch); [| lia | lia |].
  { now rewrite (parts_render_safe v Hwf Hs Hb), !to_double_safe by assumption. }
  apply Epatch; [now rewrite to_double_safe | assumption | lia | lia].
Qed.

(** The latest release ["v1.2.3-vscode"] gives the target ["v1.2.4"]. *)
Lemma getNextPatchVersion_on_channel_tag_witness :
  well_formed (mkVersion true "1" "2" "3" (Some "vscode") None) = true
  /\ getNextPatchVersion "v1.2.3-vscode" = "v1.2.4".
Proof.
  split; [reflexivity |].
  exact (proj2 (getNextPatchVersion_on_channel_tag
                  (mkVersion true "1" "2" "3" (Some "vscode") None)
                  eq_refl (or_intror eq_refl) eq_refl) eq_refl).
Defined.

(** With another suffix the two differ: only [-vscode] is removed. *)
Example getNextPatchVersion_other_suffix :
  getNextPatchVersion "v1.2.3-beta" = "v1.2.NaN"
  /\ VersionUtils.getNextVersion "v1.2.3-beta" "patch" = "v1.2.4".
Proof. evaluate. Qed.

(** ** The API client *)

(** X6.  The line number [getPackageJson] looks for is that of the first
    line holding both ["version"] in double quotes and a colon, counted from
    1; there is none exactly when no line holds both. *)
Theorem find_version_line_first (lines : list string) :
  let marked line := includes line (dquote ++ "version" ++ dquote) && includes line ":" in
  match find_version_line lines 0 with
  | Some n =>
      exists k line, n = Datatypes.S k /\ nth_error lines k = Some line
        /\ marked line = true
        /\ forall j earlier, (j < k)%nat -> nth_error lines j = Some earlier ->
                             marked earlier = false
  | None => forall line, In line lines -> marked line = false
  end.
Proof.
  intros marked.
  assert (G : forall i,
    match find_version_line lines i with
    | Some n =>
        exists k line, n = (i + Datatypes.S k)%nat /\ nth_error lines k = Some line
          /\ marked line = true
          /\ forall j earlier, (j < k)%nat -> nth_error lines j = Some earlier ->
                               marked earlier = false
    | None => forall line, In line lines -> marked line = false
    end).
  { induction lines as [| l rest IH]; intros i; cbn [find_version_line].
    - intros line [].
    - fold (marked l). destruct (marked l) eqn:El.
      + exists 0%nat, l.
        split; [lia |]. split; [reflexivity |]. split; [assumption |].
        intros; lia.
      + specialize (IH (Datatypes.S i)).
        destruct (find_version_line rest (Datatypes.S i)) as [n |].
        * destruct IH as (k & line & -> & Hk & Hm & Hfirst).
          exists (Datatypes.S k), line.
          split; [lia |]. split; [assumption |]. split; [assumption |].
          intros [| j] earlier Hj Hnth; cbn in Hnth.
          -- now injection Hnth as <-.
          -- apply (Hfirst j); [lia | assumption].
        * intros line [<- | Hin]; [assumption | now apply IH]. }
  exact (G 0%nat).
Qed.

Section Client.
Context {S : Type}.

(** X7.  [getPackageJson] makes one request.  It returns exactly when the
    request succeeds with a file whose content decodes and parses: the
    result carries the version of the file and the line of its version
    field.  In every other case it throws the one error
    ["package.json not found"].  The state is not touched. *)
Theorem getPackageJson_outcome
    (owner repo : string) (branch : option string) (r : FetchResult) (s : S) :
  feed [r] (getPackageJson owner repo branch s)
  = match r with
    | Responded true _ _ (Some (JFile (Some content) (Some parsed))) =>
        Done s (mkPackageInfo (GitHub.version parsed)
                              (find_version_line (split "010" content) 0))
    | _ => Thrown s "package.json not found"
    end
  /\ length (requests [r] (getPackageJson owner repo branch s)) = 1%nat.
Proof.
  destruct r as [reason | [] status statusText [[[content |] [parsed |] | commits |] |]];
    split; reflexivity.
Qed.

(** X8.  [checkBranchExists] and [checkTagExists] never throw: whatever the
    answer to their request, they return, with [true] exactly when the
    request succeeded, and leave the state as it was. *)
Theorem exists_checks_never_throw
    (owner repo name : string) (r : FetchResult) (s : S) :
  feed [r] (checkBranchExists owner repo name s) = Done s (succeeds r)
  /\ feed [r] (checkTagExists owner repo name s) = Done s (succeeds r).
Proof.
  split; destruct r as [reason | [] status statusText [document |]]; reflexivity.
Qed.

End Client.

(** ** The checks *)

(** X9.  With the releases loaded, [checkGitHubReleaseExists] writes the
    published-release check and nothing else, without a request; the check
    shows as passed exactly when the list holds a release whose tag is the
    version followed by [-vscode]. *)
Theorem checkGitHubReleaseExists_passes
    (pg : Page) (owner repo version : string) (all : list Release) :
  releases pg = Some all ->
  exists item,
    checkGitHubReleaseExists owner repo version pg
    = Done (with_checks (on_check GithubReleasePublished (fun _ => item)) pg) tt
    /\ (passed item = true <->
        exists release, In release all /\ tag_name release = version ++ "-vscode").
Proof.
  intros Hall. open_page pg. cbn [releases] in Hall. subst. run_page.
  destruct (find (fun release => String.eqb (tag_name release) (version ++ "-vscode")) all)
    as [release |] eqn:Efind; run_page; eexists; (split; [reflexivity |]).
  - split; [intros _ | reflexivity].
    apply find_some in Efind as [Hin Htag]. apply String.eqb_eq in Htag. eauto.
  - split; [discriminate |].
    intros (release & Hin & Htag).
    pose proof (find_none _ _ Efind release Hin) as Hno. cbv beta in Hno.
    rewrite Htag, String.eqb_refl in Hno. discriminate.
Qed.

(** On the sample page, ["v1.2.3"] is published and ["v1.2.4"] is not. *)
Lemma checkGitHubReleaseExists_passes_witness :
  passed (github_release_published_check (checks (state_of
    (checkGitHubReleaseExists "o" "r" "v1.2.3" (Sample.page ""))))) = true
  /\ passed (github_release_published_check (checks (state_of
    (checkGitHubReleaseExists "o" "r" "v1.2.4" (Sample.page ""))))) = false.
Proof.
  destruct (checkGitHubReleaseExists_passes (Sample.page "") "o" "r" "v1.2.3" _ eq_refl)
    as (item & Hrun & Hpass).
  split; [| reflexivity].
  rewrite Hrun. apply Hpass.
  exists (mkRelease "v1.2.3-vscode" false). split; [right; left |]; reflexivity.
Defined.

(** X10.  When the request for the release branch fails, [checkReleaseSteps]
    makes no other request and runs to its end: the branch check says the
    branch is missing, the package check says it is not created, and the
    panel of cherry-picked commits is hidden. *)
Theorem checkReleaseSteps_branch_missing
    (pg : Page) (owner repo version : string) (b : FetchResult) (rest : list FetchResult) :
  currentRepo pg = Some (owner, repo) -> fails b = true ->
  requests (b :: rest) (checkReleaseSteps version pg)
    = [baseURL ++ "/repos/" ++ owner ++ "/" ++ repo ++ "/branches/"
         ++ version ++ "-vscode-release"]
  /\ exists pg', feed (b :: rest) (checkReleaseSteps version pg) = Done pg' tt
      /\ release_branch_exists_check (checks pg')
         = mkCheckItem "check-item danger"
                       "Release branch missing, run command to create branch"
      /\ package_version_check (checks pg')
         = mkCheckItem "check-item danger" "Release branch not created"
      /\ display (cherry pg') = "none".
Proof.
  intros Hrepo Hb.
  open_page pg. cbn [currentRepo] in Hrepo. subst.
  apply fails_inv in Hb as [(? & ->) | [(? & ? & ? & ->) | (? & ? & ->)]];
    run_cases;
    (split; [reflexivity |]); eexists; (split; [reflexivity |]);
    (split; [reflexivity |]); split; reflexivity.
Qed.

(** The sample page, the branch not found. *)
Lemma checkReleaseSteps_branch_missing_witness :
  fails Sample.not_found = true
  /\ requests [Sample.not_found] (checkReleaseSteps "v1.2.4" (Sample.page ""))
     = ["https://api.github.com/repos/o/r/branches/v1.2.4-vscode-release"].
Proof.
  split; [reflexivity |].
  exact (proj1 (checkReleaseSteps_branch_missing (Sample.page "") "o" "r" "v1.2.4"
                  Sample.not_found [] eq_refl eq_refl)).
Defined.

(** X11.  Whatever the page and the answers, [checkReleaseSteps] does not
    throw, and it makes at most three requests. *)
Theorem checkReleaseSteps_never_throws
    (pg : Page) (version : string) (answers : list FetchResult) :
  match feed answers (checkReleaseSteps version pg) with
  | Thrown _ _ => False
  | _ => True
  end
  /\ (length (requests answers (checkReleaseSteps version pg)) <= 3)%nat.
Proof.
  destruct (currentRepo pg) as [[owner repo] |] eqn:Hrepo.
  - destruct answers as [| b answers].
    { open_page pg. cbn [currentRepo] in Hrepo. subst. split; [exact I | cbn; lia]. }
    destruct (succeeds b) eqn:Hb.
    + destruct answers as [| p rest].
      { apply succeeds_inv in Hb as (? & ? & ? & ->).
        open_page pg. cbn [currentRepo] in Hrepo. subst.
        run_cases; split; first [exact I | cbn; lia]. }
      pose proof (checkReleaseSteps_after_package
                    pg owner repo version b p rest Hrepo Hb) as Hstep.
      cbv zeta in Hstep. destruct Hstep as [Hfeed Hreq].
      rewrite Hfeed.
      assert (Hlen : forall l l' : list string,
                skipn 2 l = l' -> (length l <= 2 + length l')%nat).
      { intros [| x [| y l]] l' <-; cbn; lia. }
      apply Hlen in Hreq. revert Hreq.
      generalize (requests (b :: p :: rest) (checkReleaseSteps version pg)).
      generalize (package_item owner repo version b p).
      intros item l.
      open_page pg. cbn [currentRepo] in Hrepo. subst.
      run_cases; intros Hreq; split; first [exact I | cbn in *; lia].
    + assert (Hf : fails b = true) by (unfold fails; now rewrite Hb).
      open_page pg. cbn [currentRepo] in Hrepo. subst.
      apply fails_inv in Hf as [(? & ->) | [(? & ? & ? & ->) | (? & ? & ->)]];
        run_cases; split; first [exact I | cbn; lia].
  - open_page pg. cbn [currentRepo] in Hrepo. subst.
    split; [exact I | cbn; lia].
Qed.

(** X12.  When the branch is found and the request for its package.json
    fails, the failure stays in the package check: that check reports the
    error, the branch check still shows as passed, and the evaluation goes
    on, to its end when no from-version is given and to the request for the
    comparison otherwise. *)
Theorem package_failure_is_isolated
    (pg : Page) (owner repo version : string) (b p : FetchResult) :
  currentRepo pg = Some (owner, repo) -> succeeds b = true -> fails p = true ->
  let o := feed [b; p] (checkReleaseSteps version pg) in
  package_version_check (checks (state_of o))
    = mkCheckItem "check-item danger" "Error checking package.json version"
  /\ passed (release_branch_exists_check (checks (state_of o))) = true
  /\ (trim (from_prerelease_version pg) = "" ->
      exists pg', o = Done pg' tt
        /\ className (github_release_published_check (checks pg')) <> "check-item")
  /\ (trim (from_prerelease_version pg) <> "" ->
      requests [b; p] (checkReleaseSteps version pg)
      = [baseURL ++ "/repos/" ++ owner ++ "/" ++ repo ++ "/branches/"
           ++ version ++ "-vscode-release";
         baseURL ++ "/repos/" ++ owner ++ "/" ++ repo ++ "/contents/"
           ++ (if String.eqb owner "continuedev" && String.eqb repo "continue"
               then "extensions/vscode/package.json" else "package.json")
           ++ "?ref=" ++ version ++ "-vscode-release";
         baseURL ++ "/repos/" ++ owner ++ "/" ++ repo ++ "/compare/"
           ++ trim (from_prerelease_version pg) ++ "..."
           ++ version ++ "-vscode-release"]).
Proof.
  intros Hrepo Hb Hp o. subst o.
  apply succeeds_inv in Hb as (? & ? & ? & ->).
  open_page pg. cbn [currentRepo from_prerelease_version] in Hrepo |- *. subst.
  apply fails_inv in Hp as [(? & ->) | [(? & ? & ? & ->) | (? & ? & ->)]];
    run_cases;
    try match goal with
        | H : _ ++ _ = "" |- _ => apply app_eq_nil in H as [_ H]; discriminate H
        end;
    (split; [reflexivity |]); (split; [reflexivity |]);
    (split; intros Hfrom; try congruence);
    try (eexists; split; [reflexivity | discriminate]);
    try (now norm_app).
Qed.

(** The sample page, with the package.json of the branch not found. *)
Lemma package_failure_is_isolated_witness :
  (succeeds Sample.found = true /\ fails Sample.not_found = true)
  /\ package_version_check (checks (state_of
       (feed [Sample.found; Sample.not_found]
          (checkReleaseSteps "v1.2.4" (Sample.page "")))))
     = mkCheckItem "check-item danger" "Error checking package.json version".
Proof.
  split; [split; reflexivity |].
  exact (proj1 (package_failure_is_isolated (Sample.page "") "o" "r" "v1.2.4"
                  Sample.found Sample.not_found eq_refl eq_refl eq_refl)).
Defined.

(** ** The release steps *)

(** X13.  With no repository loaded, [generateReleaseSteps] throws after it
    has written the two commands and the target version: the link, the
    instruction and everything else on the page are as they were.
    [validateVersion], on an accepted version, then throws too: the section
    is not shown and no request is made. *)
Theorem generateReleaseSteps_without_repository (pg : Page) (version : string) :
  currentRepo pg = None ->
  (exists error,
     generateReleaseSteps version pg
     = Thrown (with_steps (fun s =>
                 mkSteps ("git checkout -b " ++ version ++ "-vscode-release "
                            ++ baseBranch version (trim (from_prerelease_version pg)))
                         (strip_v version)
                         ("git push origin " ++ version ++ "-vscode-release")
                         (create_release_link s) (step_instruction s)) pg)
              error)
  /\ (trim (target_release_version pg) = version ->
      VersionUtils.isValidSemver version = true ->
      exists error,
        validateVersion pg = Thrown (state_of (generateReleaseSteps version pg)) error).
Proof.
  intros Hrepo.
  assert (E : generateReleaseSteps version pg
     = Thrown (with_steps (fun s =>
                 mkSteps ("git checkout -b " ++ version ++ "-vscode-release "
                            ++ baseBranch version (trim (from_prerelease_version pg)))
                         (strip_v version)
                         ("git push origin " ++ version ++ "-vscode-release")
                         (create_release_link s) (step_instruction s)) pg)
              "TypeError").
  { unfold generateReleaseSteps. cbn. rewrite Hrepo. reflexivity. }
  split; [eauto |].
  intros Htarget Hvalid.
  assert (Hne : version <> "") by (intros ->; discriminate Hvalid).
  exists "TypeError".
  cbv beta iota zeta delta [validateVersion bind ret Monad_Async bind_async and_then get].
  rewrite Htarget, Hvalid.
  destruct (String.eqb_spec version "") as [-> | _]; [now elim Hne |].
  cbv beta iota delta [negb andb]. rewrite E. reflexivity.
Qed.

(** The sample page without its repository, target ["v1.2.4"]. *)
Lemma generateReleaseSteps_without_repository_witness :
  requests [] (validateVersion
    (mkPage None None "v1.2.4" "" ["release-process"]
            (mkSteps "" "" "" "" "")
            (checks (Sample.page "")) (cherry (Sample.page "")))) = []
  /\ create_release_branch_command (steps (state_of (validateVersion
       (mkPage None None "v1.2.4" "" ["release-process"]
               (mkSteps "" "" "" "" "")
               (checks (Sample.page "")) (cherry (Sample.page ""))))))
     = "git checkout -b v1.2.4-vscode-release v1.3.x-vscode".
Proof.
  destruct (proj2 (generateReleaseSteps_without_repository
              (mkPage None None "v1.2.4" "" ["release-process"]
                      (mkSteps "" "" "" "" "")
                      (checks (Sample.page "")) (cherry (Sample.page "")))
              "v1.2.4" eq_refl) eq_refl eq_refl)
    as (error & Hrun).
  rewrite Hrun. split; reflexivity.
Defined.

Lemma ident_char_form_byte c :
  Regex.ident_char c = true -> form_byte c = String c "".
Proof.
  unfold Regex.ident_char, form_byte. intros H.
  destruct (is_word c); [reflexivity |]. cbn [orb] in H |- *.
  apply orb_prop in H as [H | H]; apply Ascii.eqb_eq in H; subst c; reflexivity.
Qed.

(** Text made of the characters of [[\w.-]] goes into a query as it is. *)
Lemma form_urlencode_identifier s :
  all_chars Regex.ident_char s = true -> form_urlencode s = s.
Proof.
  induction s as [| c s IH]; cbn [all_chars form_urlencode]; intros H; [reflexivity |].
  apply andb_prop in H as [Hc Hs].
  now rewrite (ident_char_form_byte c Hc), (IH Hs).
Qed.

Lemma all_chars_weaken (p q : ascii -> bool) s :
  (forall c, p c = true -> q c = true) -> all_chars p s = true -> all_chars q s = true.
Proof.
  intros Hpq. induction s as [| c s IH]; cbn [all_chars]; intros H; [reflexivity |].
  apply andb_prop in H as [Hc Hs]. now rewrite (Hpq c Hc), (IH Hs).
Qed.

Lemma digits_identifier s : digits s = true -> all_chars Regex.ident_char s = true.
Proof.
  intros H. apply andb_prop in H as [_ H].
  apply (all_chars_weaken is_digit); [| exact H].
  intros c Hc. unfold Regex.ident_char, is_word. now rewrite Hc.
Qed.

Lemma render_identifier v :
  well_formed v = true -> build v = None ->
  all_chars Regex.ident_char (render v) = true.
Proof.
  intros Hwf Hbuild.
  apply well_formed_inv in Hwf as (HM & Hm & Hp & Hpre & _).
  unfold render, core, suffix. rewrite Hbuild.
  rewrite !all_chars_app.
  rewrite (digits_identifier (major v)), (digits_identifier (minor v)),
    (digits_identifier (patch v)) by assumption.
  destruct (lead_v v), (SemVer.prerelease v) as [pre |]; cbn; try reflexivity;
    cbn in Hpre; apply andb_prop in Hpre as [_ Hpre];
    now rewrite Hpre.
Qed.

(** X14.  For an accepted target version without build metadata, the link
    that opens the new release carries the tag and the branch as they are
    written: [tag={version}-vscode] and [target={version}-vscode-release]. *)
Theorem create_release_link_verbatim (pg : Page) (owner repo : string) (v : Version) :
  well_formed v = true -> build v = None -> currentRepo pg = Some (owner, repo) ->
  create_release_link (steps (state_of (generateReleaseSteps (render v) pg)))
  = "https://github.com/" ++ owner ++ "/" ++ repo ++ "/releases/new?tag="
      ++ render v ++ "-vscode" ++ "&target=" ++ render v ++ "-vscode-release".
Proof.
  intros Hwf Hbuild Hrepo.
  assert (Eenc : forall tail, all_chars Regex.ident_char tail = true ->
            form_urlencode (render v ++ tail) = render v ++ tail).
  { intros tail Htail. apply form_urlencode_identifier.
    now rewrite all_chars_app, (render_identifier v Hwf Hbuild). }
  unfold generateReleaseSteps. cbn. rewrite Hrepo. cbn.
  rewrite !Eenc by reflexivity.
  destruct (releases pg); cbn; now norm_app.
Qed.

(** Target ["v1.2.4-rc.1"]; with build metadata the [+] is escaped. *)
Lemma create_release_link_verbatim_witness :
  well_formed (mkVersion true "1" "2" "4" (Some "rc.1") None) = true
  /\ create_release_link (steps (state_of
       (generateReleaseSteps "v1.2.4-rc.1" (Sample.page ""))))
     = "https://github.com/o/r/releases/new?tag=v1.2.4-rc.1-vscode&target=v1.2.4-rc.1-vscode-release"
  /\ create_release_link (steps (state_of
       (generateReleaseSteps "v1.2.4+b" (Sample.page ""))))
     = "https://github.com/o/r/releases/new?tag=v1.2.4%2Bb-vscode&target=v1.2.4%2Bb-vscode-release".
Proof.
  split; [reflexivity |].
  split; [| reflexivity].
  exact (create_release_link_verbatim (Sample.page "") "o" "r"
           (mkVersion true "1" "2" "4" (Some "rc.1") None) eq_refl eq_refl eq_refl).
Defined.

Lemma find_filter {A} (p q : A -> bool) (l : list A) :
  find p (filter q l) = find (fun x => q x && p x) l.
Proof.
  induction l as [| x l IH]; cbn [filter find]; [reflexivity |].
  destruct (q x); cbn [find andb]; [now rewrite IH | exact IH].
Qed.

(** X15.  The previous tag named in the instruction is the tag of the first
    release of the list, in its order, that ends with [-vscode] and is not a
    pre-release; when there is none, the words "latest release". *)
Theorem step_instruction_names_latest_release
    (pg : Page) (owner repo version : string) (all : list Release) :
  currentRepo pg = Some (owner, repo) -> releases pg = Some all ->
  exists pg', generateReleaseSteps version pg = Done pg' tt
    /\ step_instruction (steps pg')
       = "This will open GitHub, select Previous tag: "
         ++ match find (fun release => endsWith (tag_name release) "-vscode"
                                       && negb (GitHub.prerelease release)) all with
            | Some release => tag_name release
            | None => "latest release"
            end
         ++ ", click " ++ dquote ++ "Generate release notes" ++ dquote
         ++ " and " ++ dquote ++ "Publish release" ++ dquote ++ "!".
Proof.
  intros Hrepo Hall. unfold generateReleaseSteps. cbn. rewrite Hrepo. cbn.
  rewrite Hall. cbn. rewrite find_filter.
  eexists. split; [reflexivity |]. cbn. reflexivity.
Qed.

(** The sample page: the pre-release ["v1.3.0-vscode"] comes first and is
    passed over. *)
Lemma step_instruction_names_latest_release_witness :
  includes (step_instruction (steps (state_of
              (generateReleaseSteps "v1.2.4" (Sample.page "")))))
           "Previous tag: v1.2.3-vscode," = true.
Proof.
  destruct (step_instruction_names_latest_release
              (Sample.page "") "o" "r" "v1.2.4" _ eq_refl eq_refl)
    as (pg' & Hrun & Htext).
  rewrite Hrun. cbn [state_of]. rewrite Htext. reflexivity.
Defined.

(** X16.  After a comparison that succeeds with commits, the panel is
    displayed with one entry per commit, in their order: a link to the commit
    on the first seven characters of its hash, then the first line of its
    message.  The link of the panel compares the from-version with the
    release branch. *)
Theorem cherry_pick_panel_lists_commits
    (pg : Page) (owner repo version releaseBranchName : string)
    (status : Z) (statusText : string) (first_commit : Commit) (more : list Commit) :
  trim (from_prerelease_version pg) <> "" ->
  let commits := first_commit :: more in
  let answer := Responded true status statusText (Some (JComparison (Some commits))) in
  exists pg',
    feed [answer] (checkCherryPickedCommits owner repo version releaseBranchName pg)
    = Done pg' tt
    /\ display (cherry pg') = "block"
    /\ compare_href (cherry pg')
       = "https://github.com/" ++ owner ++ "/" ++ repo ++ "/compare/"
         ++ trim (from_prerelease_version pg) ++ "..." ++ releaseBranchName
    /\ length (items (cherry pg')) = length commits
    /\ forall i commit, nth_error commits i = Some commit ->
         nth_error (items (cherry pg')) i
         = Some (anchor ("https://github.com/" ++ owner ++ "/" ++ repo ++ "/commit/"
                           ++ sha commit)
                        "commit-link" (substring 0 7 (sha commit))
                 ++ " " ++ JS.first (split "010" (message commit))).
Proof.
  intros Hfrom commits answer.
  open_page pg. cbn [from_prerelease_version] in Hfrom |- *.
  subst answer. run_page.
  destruct (trim from) as [| c0 f] eqn:Efrom; [now elim Hfrom |].
  run_page. eexists. split; [reflexivity |].
  split; [reflexivity |]. split; [reflexivity |].
  split; [subst commits; now rewrite length_map |].
  intros i commit Hnth. subst commits.
  rewrite nth_error_map, Hnth. reflexivity.
Qed.

(** One commit on the release branch, on the sample page with the
    from-version ["v1.3.0-vscode"]. *)
Lemma cherry_pick_panel_lists_commits_witness :
  items (cherry (state_of
    (feed [Responded true 200 "OK"
             (Some (JComparison (Some [mkCommit "0123456789abcdef" "fix: the thing"])))]
       (checkCherryPickedCommits "o" "r" "v1.2.4" "v1.2.4-vscode-release"
          (Sample.page "v1.3.0-vscode")))))
  = [anchor "https://github.com/o/r/commit/0123456789abcdef" "commit-link" "0123456"
     ++ " fix: the thing"].
Proof.
  assert (Hfrom : trim (from_prerelease_version (Sample.page "v1.3.0-vscode")) <> "")
    by discriminate.
  destruct (cherry_pick_panel_lists_commits
              (Sample.page "v1.3.0-vscode") "o" "r" "v1.2.4" "v1.2.4-vscode-release"
              200 "OK" (mkCommit "0123456789abcdef" "fix: the thing") [] Hfrom)
    as (pg' & Hrun & _).
  rewrite Hrun. vm_compute in Hrun. injection Hrun as <-. reflexivity.
Defined.

(** ** What the methods leave alone *)

(** X17.  [checkReleaseSteps] writes the checks and the panel of
    cherry-picked commits and nothing else: whatever the answers, the fields
    of the application, the two inputs, the hidden sections and the release
    steps are as they were. *)
Theorem checkReleaseSteps_writes_checks_only
    (pg : Page) (version : string) (answers : list FetchResult) :
  let pg' := state_of (feed answers (checkReleaseSteps version pg)) in
  currentRepo pg' = currentRepo pg /\ releases pg' = releases pg
  /\ target_release_version pg' = target_release_version pg
  /\ from_prerelease_version pg' = from_prerelease_version pg
  /\ hidden pg' = hidden pg /\ steps pg' = steps pg.
Proof.
  assert (G : forall o : Outcome Page unit,
    (currentRepo (state_of o), releases (state_of o),
     target_release_version (state_of o), from_prerelease_version (state_of o),
     hidden (state_of o), steps (state_of o))
    = (currentRepo pg, releases pg, target_release_version pg,
       from_prerelease_version pg, hidden pg, steps pg) ->
    currentRepo (state_of o) = currentRepo pg /\ releases (state_of o) = releases pg
    /\ target_release_version (state_of o) = target_release_version pg
    /\ from_prerelease_version (state_of o) = from_prerelease_version pg
    /\ hidden (state_of o) = hidden pg /\ steps (state_of o) = steps pg).
  { intros o H. injection H as -> -> -> -> -> ->. repeat split. }
  apply G. clear G.
  destruct (currentRepo pg) as [[owner repo] |] eqn:Hrepo.
  - destruct answers as [| b answers].
    { open_page pg. cbn [currentRepo] in Hrepo. subst. reflexivity. }
    destruct (succeeds b) eqn:Hb.
    + destruct answers as [| p rest].
      { apply succeeds_inv in Hb as (? & ? & ? & ->).
        open_page pg. cbn [currentRepo] in Hrepo. subst. run_cases; reflexivity. }
      rewrite (proj1 (checkReleaseSteps_after_package
                        pg owner repo version b p rest Hrepo Hb)).
      generalize (package_item owner repo version b p). intros item.
      open_page pg. cbn [currentRepo] in Hrepo. subst. run_cases; reflexivity.
    + assert (Hf : fails b = true) by (unfold fails; now rewrite Hb).
      open_page pg. cbn [currentRepo] in Hrepo. subst.
      apply fails_inv in Hf as [(? & ->) | [(? & ? & ? & ->) | (? & ? & ->)]];
        run_cases; reflexivity.
  - open_page pg. cbn [currentRepo] in Hrepo. subst. reflexivity.
Qed.

(** X18.  [generateReleaseSteps] makes no request and writes the release
    steps only: the checks, the panel, the inputs, the hidden sections and
    the fields of the application are as they were, whether it returns or
    throws. *)
Theorem generateReleaseSteps_writes_steps_only
    (pg : Page) (version : string) (answers : list FetchResult) :
  let o := generateReleaseSteps version pg in
  requests answers o = []
  /\ checks (state_of o) = checks pg /\ cherry (state_of o) = cherry pg
  /\ hidden (state_of o) = hidden pg
  /\ target_release_version (state_of o) = target_release_version pg
  /\ inputs (state_of o) = inputs pg.
Proof.
  open_page pg. unfold generateReleaseSteps. cbn.
  destruct repo as [[owner name] |]; cbn; [| repeat split].
  destruct all as [all |]; cbn; repeat split.
Qed.

(** X19.  On an accepted version, with the repository and its releases
    loaded, [validateVersion] takes the release-process section off the
    hidden ones, writes the steps of the trimmed version, sets the three
    checks back to the neutral class with their texts kept, and awaits the
    answer about the release branch of that version. *)
Theorem validateVersion_accepted
    (pg : Page) (owner repo version : string) (all : list Release) :
  currentRepo pg = Some (owner, repo) -> releases pg = Some all ->
  trim (target_release_version pg) = version ->
  VersionUtils.isValidSemver version = true ->
  exists pg' resume,
    validateVersion pg
    = Suspended pg' (baseURL ++ "/repos/" ++ owner ++ "/" ++ repo ++ "/branches/"
                       ++ version ++ "-vscode-release") resume
    /\ hidden pg' = filter (fun id => negb (String.eqb id "release-process")) (hidden pg)
    /\ steps pg' = steps (state_of (generateReleaseSteps version pg))
    /\ target_version (steps pg') = strip_v version
    /\ checks pg'
       = mkChecks
           (mkCheckItem "check-item" (innerHTML (release_branch_exists_check (checks pg))))
           (mkCheckItem "check-item" (innerHTML (package_version_check (checks pg))))
           (mkCheckItem "check-item" (innerHTML (github_release_published_check (checks pg))))
    /\ cherry pg' = cherry pg.
Proof.
  intros Hrepo Hall Htarget Hvalid.
  assert (Hne : version <> "") by (intros ->; discriminate Hvalid).
  open_page pg.
  cbn [currentRepo releases target_release_version] in Hrepo, Hall, Htarget. subst.
  cbv beta iota zeta delta
    [validateVersion bind ret Monad_Async bind_async and_then get
     target_release_version].
  rewrite Hvalid.
  destruct (String.eqb_spec (trim target) "") as [E | _]; [now elim Hne |].
  cbv beta iota delta [negb andb].
  unfold generateReleaseSteps. run_page.
  do 2 eexists. split; [reflexivity |].
  split; [reflexivity |]. split; [reflexivity |]. split; [reflexivity |].
  split; reflexivity.
Qed.

(** The sample page with the target typed as [" v1.2.4 "]. *)
Lemma validateVersion_accepted_witness :
  requests [] (validateVersion (with_target_release_version " v1.2.4 " (Sample.page "")))
  = ["https://api.github.com/repos/o/r/branches/v1.2.4-vscode-release"].
Proof.
  destruct (validateVersion_accepted
              (with_target_release_version " v1.2.4 " (Sample.page ""))
              "o" "r" "v1.2.4" _ eq_refl eq_refl eq_refl eq_refl)
    as (pg' & resume & Hrun & _).
  rewrite Hrun. reflexivity.
Defined.

(** ** The characters of an accepted version *)

Lemma identifier_chars o :
  optional identifier o = true ->
  forall mark, Regex.ident_char mark || Ascii.eqb mark "+" = true ->
  all_chars (fun c => Regex.ident_char c || Ascii.eqb c "+") (tagged (String mark "") o) = true.
Proof.
  intros H mark Hmark. destruct o as [w |]; cbn; [| reflexivity].
  rewrite Hmark. cbn in H. apply andb_prop in H as [_ H].
  apply (all_chars_weaken Regex.ident_char); [| exact H].
  intros c Hc. now rewrite Hc.
Qed.

(** X20.  A string the validator accepts is made of letters, digits, [_],
    [.], [-] and [+] only; in particular it is not empty, holds no white
    space, and [trim] leaves it as it is. *)
Theorem isValidSemver_characters (version : string) :
  VersionUtils.isValidSemver version = true ->
  all_chars (fun c => Regex.ident_char c || Ascii.eqb c "+") version = true
  /\ version <> "" /\ trim version = version.
Proof.
  intros Hvalid.
  assert (Hchars : all_chars (fun c => Regex.ident_char c || Ascii.eqb c "+") version = true).
  { apply isValidSemver_inv in Hvalid as (v & Hwf & ->).
    apply well_formed_inv in Hwf as (HM & Hm & Hp & Hpre & Hbuild).
    unfold render, core, suffix. rewrite !all_chars_app.
    rewrite (identifier_chars _ Hpre "-"), (identifier_chars _ Hbuild "+") by reflexivity.
    assert (D : forall s, digits s = true ->
                all_chars (fun c => Regex.ident_char c || Ascii.eqb c "+") s = true).
    { intros s Hs. apply (all_chars_weaken Regex.ident_char);
        [intros c Hc; now rewrite Hc | now apply digits_identifier]. }
    rewrite (D (major v)), (D (minor v)), (D (patch v)) by assumption.
    now destruct (lead_v v). }
  split; [exact Hchars |].
  split; [intros ->; discriminate Hvalid |].
  assert (Hspace : forall c, Regex.ident_char c || Ascii.eqb c "+" = true ->
                             is_space c = false).
  { intros c. destruct c as [[] [] [] [] [] [] [] []]; vm_compute; congruence. }
  clear Hvalid. unfold trim.
  assert (Hend : forall s,
            all_chars (fun c => Regex.ident_char c || Ascii.eqb c "+") s = true ->
            trim_end s = s).
  { induction s as [| c s IH]; cbn [all_chars trim_end]; intros H; [reflexivity |].
    apply andb_prop in H as [Hc Hs]. rewrite (IH Hs), (Hspace c Hc).
    now destruct s. }
  destruct version as [| c rest]; [reflexivity |].
  pose proof Hchars as Hall. cbn [all_chars] in Hchars.
  apply andb_prop in Hchars as [Hc _].
  cbn [trim_start]. rewrite (Hspace c Hc). now apply Hend.
Qed.

(** ["v1.2.3-rc.1+b5"]. *)
Lemma isValidSemver_characters_witness :
  VersionUtils.isValidSemver "v1.2.3-rc.1+b5" = true
  /\ trim "v1.2.3-rc.1+b5" = "v1.2.3-rc.1+b5".
Proof.
  split; [reflexivity |].
  exact (proj2 (proj2 (isValidSemver_characters "v1.2.3-rc.1+b5" eq_refl))).
Defined.

End AppExtras.
